(** * StructNova Africa: the one-way slab design calculator of [app.py]

    A shallow embedding of [calculate_slab_design] together with the three
    material tables it reads, and the properties of the calculation that the
    design document states.

    Python's [float] is IEEE binary64.  The calculator is written once, over
    the interface [PyFloat] of the operations it applies to floats, and read
    at two instances:

    - [Binary64.py_float]: Rocq's primitive binary64 floats, operation for
      operation what CPython computes.  Everything stated on it can be
      evaluated.
    - [Exact.py_float]: the real numbers, the same code without the rounding
      of each operation (no NaN, no infinities, no overflow).  Properties
      of the formulas that hold for all inputs are stated here.

    Python exceptions are results of the [exc] monad. *)

From Stdlib Require Import ZArith List String Bool Lia.
From Stdlib Require DecimalString.
From Stdlib Require Import Floats.
From Stdlib Require Import Reals Lra.
Import ListNotations.

Set Warnings "-inexact-float".

Local Open Scope Z_scope.
Local Open Scope string_scope.

(** ** Exceptions *)

(** The exceptions the calculator can raise: [KeyError] from a table lookup,
    the others from float arithmetic, [math] functions, [int()] and the
    builtins [min] and [max]. *)
Inductive exception : Type :=
| KeyError (key : string)
| ZeroDivisionError
| OverflowError
| ValueError
| TypeError.

Inductive exc (A : Type) : Type :=
| Ok (a : A)
| Raise (e : exception).
Arguments Ok {A} a.
Arguments Raise {A} e.

Definition bind {A B : Type} (c : exc A) (k : A -> exc B) : exc B :=
  match c with
  | Ok a => k a
  | Raise e => Raise e
  end.

Declare Scope exc_scope.
Delimit Scope exc_scope with exc.
Notation "x <- c ;; k" := (bind c (fun x => k))
  (at level 61, c at next level, right associativity) : exc_scope.
Notation "' p <- c ;; k" := (bind c (fun x => let p := x in k))
  (at level 61, p pattern, c at next level, right associativity) : exc_scope.
Local Open Scope exc_scope.

Definition is_ok {A : Type} (c : exc A) : bool :=
  match c with Ok _ => true | Raise _ => false end.

(** ** The float interface *)

(** What [app.py] does with floats.  The operations are total here; the
    Python operations that raise are defined from them below. *)
Class PyFloat (F : Type) : Type := {
  (** the float written [m]e-[k] in decimal; with [k = 0] also the float
      of the int [m] *)
  lit : Z -> nat -> F;
  (** [float(n)] raises OverflowError *)
  int_too_large : Z -> bool;
  fadd : F -> F -> F;
  fsub : F -> F -> F;
  fmul : F -> F -> F;
  fdiv : F -> F -> F;
  fneg : F -> F;
  fsqrt : F -> F;
  flt : F -> F -> bool;
  fle : F -> F -> bool;
  feq : F -> F -> bool;
  is_nan : F -> bool;
  is_inf : F -> bool;
  (** largest integer below a finite float *)
  floorZ : F -> Z;
  (** a finite float rounded half-even to [k] decimal digits *)
  round_digits : F -> nat -> F
}.

Declare Scope py_scope.
Delimit Scope py_scope with py.
Infix "+" := fadd : py_scope.
Infix "-" := fsub : py_scope.
Infix "*" := fmul : py_scope.
Infix "<?" := flt : py_scope.
Infix "<=?" := fle : py_scope.
Infix "=?" := feq : py_scope.

(** C's [pow], which [float.__pow__] calls after its special cases.  It is
    not part of the repository nor of the float format. *)
Class Libm (F : Type) : Type := {
  libm_pow : F -> F -> F
}.

Section Python.
Context {F : Type} {PF : PyFloat F}.
Local Open Scope py_scope.

(** [float(n)] for an int [n], as the mixed int/float operators apply it. *)
Definition float_of_int (n : Z) : exc F :=
  if int_too_large n then Raise OverflowError else Ok (lit n 0).

(** [x > y] and [x >= y] *)
Definition fgt (x y : F) : bool := y <? x.
Definition fge (x y : F) : bool := y <=? x.

(** [x / y] *)
Definition truediv (x y : F) : exc F :=
  if y =? lit 0 0 then Raise ZeroDivisionError else Ok (fdiv x y).

(** [x ** 2]: the cases of CPython's [float_pow] at the exponent 2.0,
    where C's [pow(x, 2.0)] is the correctly rounded square; a finite
    base whose square overflows raises. *)
Definition square (x : F) : exc F :=
  let r := x * x in
  if is_inf r && negb (is_inf x) then Raise OverflowError else Ok r.

(** [math.sqrt(x)] *)
Definition math_sqrt (x : F) : exc F :=
  if is_nan x then Ok x
  else if x <? lit 0 0 then Raise ValueError
  else Ok (fsqrt x).

(** [math.floor(x)], [math.ceil(x)] and [int(x)]: Python ints *)
Definition math_floor (x : F) : exc Z :=
  if is_nan x then Raise ValueError
  else if is_inf x then Raise OverflowError
  else Ok (floorZ x).

Definition math_ceil (x : F) : exc Z :=
  if is_nan x then Raise ValueError
  else if is_inf x then Raise OverflowError
  else Ok (- floorZ (fneg x))%Z.

Definition int_of_float (x : F) : exc Z :=
  if is_nan x then Raise ValueError
  else if is_inf x then Raise OverflowError
  else Ok (if x <? lit 0 0 then (- floorZ (fneg x))%Z else floorZ x).

(** [round(x, k)] *)
Definition round (x : F) (k : nat) : F :=
  if is_nan x || is_inf x then x else round_digits x k.

(** [min(x, y)] and [max(x, y)] keep the first argument unless the second
    is strictly better. *)
Definition fmin (x y : F) : F := if y <? x then y else x.
Definition fmax (x y : F) : F := if fgt y x then y else x.

(** The same builtins on ints. *)
Definition imin (x y : Z) : Z := if (y <? x)%Z then y else x.
Definition imax (x y : Z) : Z := if (y >? x)%Z then y else x.

(** [min(xs, key=key)] and [max(xs, key=key)]: the first element whose
    key no later element beats; ValueError on the empty list. *)
Definition best_by {A : Type} (better : F -> F -> bool) (key : A -> F)
    (xs : list A) : exc A :=
  match xs with
  | [] => Raise ValueError
  | x :: rest =>
      Ok (fold_left (fun best item =>
                       if better (key item) (key best) then item else best)
                    rest x)
  end.

Definition min_by {A : Type} (key : A -> F) (xs : list A) : exc A :=
  best_by flt key xs.
Definition max_by {A : Type} (key : A -> F) (xs : list A) : exc A :=
  best_by fgt key xs.

(** A float power is a float or, for a negative base and a fractional
    exponent, a complex number.  No operation of the calculator looks
    into a complex value, so it is kept without its parts. *)
Inductive number : Type :=
| Float (x : F)
| Complex.

Definition is_integral (y : F) : bool := y =? lit (floorZ y) 0.
Definition is_odd_integer (y : F) : bool :=
  is_integral y && Z.odd (floorZ y).
Definition fabs (x : F) : F := if x <? lit 0 0 then fneg x else x.

(** [x ** y] on floats: the cases of CPython's [float_pow], in its
    order. *)
Definition float_pow {LM : Libm F} (x y : F) : exc number :=
  if y =? lit 0 0 then Ok (Float (lit 1 0))
  else if is_nan x then Ok (Float x)
  else if is_nan y then Ok (Float (if x =? lit 1 0 then lit 1 0 else y))
  else if is_inf y then
    let ax := fabs x in
    if ax =? lit 1 0 then Ok (Float (lit 1 0))
    else if Bool.eqb (lit 0 0 <? y) (lit 1 0 <? ax) then Ok (Float (fabs y))
    else Ok (Float (lit 0 0))
  else if is_inf x then
    let odd := is_odd_integer y in
    if lit 0 0 <? y then Ok (Float (if odd then x else fabs x))
    else Ok (Float (if odd
                    then (if x <? lit 0 0 then fneg (lit 0 0) else lit 0 0)
                    else lit 0 0))
  else if x =? lit 0 0 then
    if y <? lit 0 0 then Raise ZeroDivisionError
    else Ok (Float (if is_odd_integer y then x else lit 0 0))
  else
    let neg := x <? lit 0 0 in
    if neg && negb (is_integral y) then Ok Complex
    else
      let negate := neg && is_odd_integer y in
      let ax := if neg then fneg x else x in
      if ax =? lit 1 0 then
        Ok (Float (if negate then fneg (lit 1 0) else lit 1 0))
      else
        let r := libm_pow ax y in
        if is_inf r then Raise OverflowError
        else Ok (Float (if negate then fneg r else r)).

(** float by number, number by number, number by float: arithmetic on a
    complex number stays complex *)
Definition scale (x : F) (a : number) : number :=
  match a with
  | Float y => Float (x * y)
  | Complex => Complex
  end.

Definition nmul (a b : number) : number :=
  match a, b with
  | Float x, Float y => Float (x * y)
  | _, _ => Complex
  end.

Definition ntruediv (a : number) (y : F) : exc number :=
  if y =? lit 0 0 then Raise ZeroDivisionError
  else match a with
       | Float x => Ok (Float (fdiv x y))
       | Complex => Ok Complex
       end.

(** [min(a, y)]: ordering a complex number raises TypeError *)
Definition nmin (a : number) (y : F) : exc F :=
  match a with
  | Float x => Ok (fmin x y)
  | Complex => Raise TypeError
  end.
End Python.

Arguments number F : clear implicits.

(** ** Dictionaries *)

(** A dict literal with string keys, in insertion order; [d[k]] raises
    KeyError on a key that is not there. *)
Fixpoint getitem {V : Type} (d : list (string * V)) (k : string) : exc V :=
  match d with
  | [] => Raise (KeyError k)
  | (k', v) :: d' => if String.eqb k k' then Ok v else getitem d' k
  end.

Definition keys {V : Type} (d : list (string * V)) : list string :=
  map fst d.

(** [str(n)] for an int *)
Definition str_of_int (n : Z) : string :=
  DecimalString.NilZero.string_of_int (Z.to_int n).

(** ** Records of the calculator *)

Record concrete (F : Type) : Type := { fck : Z; fctm : F }.
Arguments fck {F} _.
Arguments fctm {F} _.

Record steel : Type := { fy : Z; Es : Z }.

(** An entry of [reinforcement_options]. *)
Record option_ (F : Type) : Type := {
  bar_size : string;
  bar_area : F;
  spacing : Z;
  As_actual : F;
  adequate : bool
}.
Arguments bar_size {F} _.
Arguments bar_area {F} _.
Arguments spacing {F} _.
Arguments As_actual {F} _.
Arguments adequate {F} _.

(** The local variables of steps 1 to 9, unrounded. *)
Module Loc.
Record t (F : Type) : Type := {
  ultimate_load : F;
  moment : F;
  estimated_depth : F;
  slab_depth : Z;
  effective_depth : F;
  effective_depth_int : Z;
  K : F;
  z : F;
  As_required : F;
  As_min : F;
  As_provided : F
}.
Arguments ultimate_load {F} _.
Arguments moment {F} _.
Arguments estimated_depth {F} _.
Arguments slab_depth {F} _.
Arguments effective_depth {F} _.
Arguments effective_depth_int {F} _.
Arguments K {F} _.
Arguments z {F} _.
Arguments As_required {F} _.
Arguments As_min {F} _.
Arguments As_provided {F} _.
End Loc.

(** The returned dict [results], a field per key. *)
Module Res.
Record t (F : Type) : Type := {
  span : F;
  dead_load : F;
  live_load : F;
  concrete_grade : string;
  steel_grade : string;
  cover : F;
  fck : Z;
  fy : Z;
  load_factor_dead : F;
  load_factor_live : F;
  ultimate_load : F;
  moment : F;
  moment_knm : F;
  slab_depth : Z;
  effective_depth : Z;
  assumed_bar_dia : Z;
  K : F;
  K_prime : F;
  compression_reinforcement_needed : bool;
  lever_arm : F;
  As_required : F;
  As_min : F;
  As_provided : F;
  reinforcement_options : list (option_ F);
  selected_reinforcement : option_ F;
  reinforcement_suggestion : string;
  basic_span_depth_ratio : Z;
  modification_factor : F;
  allowable_span_depth : F;
  actual_span_depth : F;
  deflection_ok : bool;
  shear_force : F;
  concrete_shear_strength : F;
  shear_ok : bool
}.
Arguments span {F} _.
Arguments dead_load {F} _.
Arguments live_load {F} _.
Arguments concrete_grade {F} _.
Arguments steel_grade {F} _.
Arguments cover {F} _.
Arguments fck {F} _.
Arguments fy {F} _.
Arguments load_factor_dead {F} _.
Arguments load_factor_live {F} _.
Arguments ultimate_load {F} _.
Arguments moment {F} _.
Arguments moment_knm {F} _.
Arguments slab_depth {F} _.
Arguments effective_depth {F} _.
Arguments assumed_bar_dia {F} _.
Arguments K {F} _.
Arguments K_prime {F} _.
Arguments compression_reinforcement_needed {F} _.
Arguments lever_arm {F} _.
Arguments As_required {F} _.
Arguments As_min {F} _.
Arguments As_provided {F} _.
Arguments reinforcement_options {F} _.
Arguments selected_reinforcement {F} _.
Arguments reinforcement_suggestion {F} _.
Arguments basic_span_depth_ratio {F} _.
Arguments modification_factor {F} _.
Arguments allowable_span_depth {F} _.
Arguments actual_span_depth {F} _.
Arguments deflection_ok {F} _.
Arguments shear_force {F} _.
Arguments concrete_shear_strength {F} _.
Arguments shear_ok {F} _.
End Res.

(** ** Material tables and the calculator *)

Section Calculator.
Context {F : Type} {PF : PyFloat F}.
Local Open Scope py_scope.

Definition CONCRETE_GRADES : list (string * concrete F) :=
  [ ("C20", {| fck := 20; fctm := lit 22 1 |});
    ("C25", {| fck := 25; fctm := lit 26 1 |});
    ("C30", {| fck := 30; fctm := lit 29 1 |});
    ("C35", {| fck := 35; fctm := lit 32 1 |});
    ("C40", {| fck := 40; fctm := lit 35 1 |}) ].

Definition STEEL_GRADES : list (string * steel) :=
  [ ("460", {| fy := 460; Es := 200000 |});
    ("500", {| fy := 500; Es := 200000 |}) ].

Definition BAR_AREAS : list (string * F) :=
  [ ("Y8", lit 503 1);
    ("Y10", lit 785 1);
    ("Y12", lit 1131 1);
    ("Y16", lit 2011 1);
    ("Y20", lit 3142 1);
    ("Y25", lit 4909 1) ].

(** Material properties: the two lookups. *)
Definition material_properties (concrete_grade steel_grade : string)
    : exc (Z * Z) :=
  c <- getitem CONCRETE_GRADES concrete_grade ;;
  s <- getitem STEEL_GRADES steel_grade ;;
  Ok (fck c, fy s).

(** Step 1: [(1.4 * dead_load) + (1.6 * live_load)] *)
Definition load_combination (dead_load live_load : F) : F :=
  (lit 14 1 * dead_load) + (lit 16 1 * live_load).

(** Step 2: [(ultimate_load * span ** 2) / 8] *)
Definition bending_moment (ultimate_load span : F) : exc F :=
  span2 <- square span ;;
  truediv (ultimate_load * span2) (lit 8 0).

(** Step 3: [(span * 1000) / 25], then
    [math.ceil(estimated_depth / 25) * 25] *)
Definition estimate_depth (span : F) : exc F :=
  truediv (span * lit 1000 0) (lit 25 0).

Definition round_up_depth (estimated_depth : F) : exc Z :=
  q <- truediv estimated_depth (lit 25 0) ;;
  n <- math_ceil q ;;
  Ok (n * 25)%Z.

Definition assumed_bar_dia : Z := 12.

(** Step 4: [slab_depth - cover - (assumed_bar_dia / 2)] *)
Definition effective_depth_of (slab_depth : Z) (cover : F) : exc F :=
  h <- float_of_int slab_depth ;;
  half_bar <- truediv (lit assumed_bar_dia 0) (lit 2 0) ;;
  Ok (h - cover - half_bar).

Definition b : Z := 1000.

(** Step 5: [(moment * 1e6) / (b * d ** 2 * fck)] *)
Definition k_value (moment d : F) (fck : Z) : exc F :=
  d2 <- square d ;;
  truediv (moment * lit 1000000 0) (lit b 0 * d2 * lit fck 0).

Definition K_prime : F := lit 156 3.

(** Step 7: the lever arm *)
Definition lever_arm (d K : F) : exc F :=
  if K <=? K_prime then
    q <- truediv K (lit 1134 3) ;;
    r <- math_sqrt (lit 25 2 - q) ;;
    let z := d * (lit 5 1 + r) in
    Ok (fmin z (lit 95 2 * d))
  else
    Ok (lit 95 2 * d).

(** Step 8: [(moment * 1e6) / (0.87 * fy * z)] *)
Definition required_steel (moment z : F) (fy : Z) : exc F :=
  truediv (moment * lit 1000000 0) (lit 87 2 * lit fy 0 * z).

(** Step 9: [0.0013 * b * slab_depth] *)
Definition minimum_steel (slab_depth : Z) : exc F :=
  h <- float_of_int slab_depth ;;
  Ok (lit 13 4 * lit b 0 * h).

(** Steps 1 to 9 in the order of the source; [int(effective_depth)] of
    the line that stores the effective depth is evaluated in its place. *)
Definition section_design (span dead_load live_load : F) (fck fy : Z)
    (cover : F) : exc (Loc.t F) :=
  let ultimate_load := load_combination dead_load live_load in
  moment <- bending_moment ultimate_load span ;;
  estimated_depth <- estimate_depth span ;;
  slab_depth <- round_up_depth estimated_depth ;;
  effective_depth <- effective_depth_of slab_depth cover ;;
  effective_depth_int <- int_of_float effective_depth ;;
  let d := effective_depth in
  K <- k_value moment d fck ;;
  z <- lever_arm d K ;;
  As_required <- required_steel moment z fy ;;
  As_min <- minimum_steel slab_depth ;;
  let As_provided := fmax As_required As_min in
  Ok {| Loc.ultimate_load := ultimate_load;
        Loc.moment := moment;
        Loc.estimated_depth := estimated_depth;
        Loc.slab_depth := slab_depth;
        Loc.effective_depth := effective_depth;
        Loc.effective_depth_int := effective_depth_int;
        Loc.K := K;
        Loc.z := z;
        Loc.As_required := As_required;
        Loc.As_min := As_min;
        Loc.As_provided := As_provided |}.

(** Step 10, the body of the loop over [BAR_AREAS.items()]: one bar size
    is evaluated and appended when [As_provided > 0]. *)
Definition practical_spacing (spacing : F) : exc Z :=
  q <- truediv spacing (lit 25 0) ;;
  n <- math_floor q ;;
  let spacing_practical := (n * 25)%Z in
  Ok (imax 75 (imin spacing_practical 300)).

Definition evaluate_bar (As_provided As_required : F)
    (reinforcement_options : list (option_ F)) (item : string * F)
    : exc (list (option_ F)) :=
  let '(bar_size, bar_area) := item in
  if fgt As_provided (lit 0 0) then
    spacing <- truediv (bar_area * lit 1000 0) As_provided ;;
    spacing_practical <- practical_spacing spacing ;;
    s <- float_of_int spacing_practical ;;
    As_actual <- truediv (bar_area * lit 1000 0) s ;;
    Ok (reinforcement_options ++
        [ {| bar_size := bar_size;
             bar_area := bar_area;
             spacing := spacing_practical;
             As_actual := round As_actual 1;
             adequate := fge As_actual As_required |} ])%list
  else
    Ok reinforcement_options.

Fixpoint for_each {A S : Type} (body : S -> A -> exc S) (xs : list A)
    (s : S) : exc S :=
  match xs with
  | [] => Ok s
  | x :: xs' => s' <- body s x ;; for_each body xs' s'
  end.

Definition evaluate_bars (As_provided As_required : F)
    : exc (list (option_ F)) :=
  for_each (evaluate_bar As_provided As_required) BAR_AREAS [].

(** The selection: the adequate option of smallest bar area, or the
    option of largest actual area when none is adequate. *)
Definition select_reinforcement (reinforcement_options : list (option_ F))
    : exc (option_ F) :=
  let adequate_options := filter adequate reinforcement_options in
  match adequate_options with
  | _ :: _ => min_by bar_area adequate_options
  | [] => max_by As_actual reinforcement_options
  end.

Definition suggestion (selected : option_ F) : string :=
  bar_size selected ++ " @ " ++ str_of_int (spacing selected) ++ "mm c/c".

Definition basic_ratio : Z := 26.

(** Step 11: the modification factor and the two span/depth ratios *)
Definition modification_factor (As_provided As_required moment d : F)
    (fy : Z) : exc F :=
  if fgt As_provided (lit 0 0) && fgt As_required (lit 0 0) then
    fs <- truediv (lit (2 * fy) 0 * As_required) (lit 3 0 * As_provided) ;;
    d2 <- square d ;;
    m <- truediv (moment * lit 1000000 0) (lit b 0 * d2) ;;
    t <- truediv (lit 477 0 - fs) (lit 120 0 * (lit 9 1 + m)) ;;
    let mf := fmin (lit 2 0) (lit 55 2 + t) in
    Ok (fmax (lit 9 1) mf)
  else
    Ok (lit 1 0).

Definition actual_span_depth_of (span : F) (slab_depth : Z) : exc F :=
  h <- float_of_int slab_depth ;;
  truediv (span * lit 1000 0) h.

(** Step 12: the concrete shear strength *)
Definition concrete_shear_strength_of {LM : Libm F} (As_provided d : F)
    (fck : Z) : exc F :=
  if fgt As_provided (lit 0 0) then
    rho <- truediv (lit 100 0 * As_provided) (lit b 0 * d) ;;
    third <- truediv (lit 1 0) (lit 3 0) ;;
    p <- float_pow rho third ;;
    r <- truediv (lit 400 0) d ;;
    quarter <- truediv (lit 1 0) (lit 4 0) ;;
    q <- float_pow r quarter ;;
    vc <- ntruediv (nmul (scale (lit 79 2) p) q) (lit 125 2) ;;
    root <- math_sqrt (lit fck 0) ;;
    nmin vc (lit 8 1 * root)
  else
    Ok (lit 4 1).

Definition calculate_slab_design {LM : Libm F} (span dead_load live_load : F)
    (concrete_grade steel_grade : string) (cover : F) : exc (Res.t F) :=
  '(fck, fy) <- material_properties concrete_grade steel_grade ;;
  l <- section_design span dead_load live_load fck fy cover ;;
  let d := Loc.effective_depth l in
  reinforcement_options <-
    evaluate_bars (Loc.As_provided l) (Loc.As_required l) ;;
  selected <- select_reinforcement reinforcement_options ;;
  mf <- modification_factor (Loc.As_provided l) (Loc.As_required l)
          (Loc.moment l) d fy ;;
  let allowable_span_depth := lit basic_ratio 0 * mf in
  actual_span_depth <- actual_span_depth_of span (Loc.slab_depth l) ;;
  V <- truediv (Loc.ultimate_load l * span) (lit 2 0) ;;
  vc <- concrete_shear_strength_of (Loc.As_provided l) d fck ;;
  v <- truediv (V * lit 1000 0) (lit b 0 * d) ;;
  Ok {| Res.span := span;
        Res.dead_load := dead_load;
        Res.live_load := live_load;
        Res.concrete_grade := concrete_grade;
        Res.steel_grade := steel_grade;
        Res.cover := cover;
        Res.fck := fck;
        Res.fy := fy;
        Res.load_factor_dead := lit 14 1;
        Res.load_factor_live := lit 16 1;
        Res.ultimate_load := round (Loc.ultimate_load l) 2;
        Res.moment := round (Loc.moment l) 2;
        Res.moment_knm := round (Loc.moment l) 2;
        Res.slab_depth := Loc.slab_depth l;
        Res.effective_depth := Loc.effective_depth_int l;
        Res.assumed_bar_dia := assumed_bar_dia;
        Res.K := round (Loc.K l) 4;
        Res.K_prime := K_prime;
        Res.compression_reinforcement_needed := fgt (Loc.K l) K_prime;
        Res.lever_arm := round (Loc.z l) 1;
        Res.As_required := round (Loc.As_required l) 1;
        Res.As_min := round (Loc.As_min l) 1;
        Res.As_provided := round (Loc.As_provided l) 1;
        Res.reinforcement_options := reinforcement_options;
        Res.selected_reinforcement := selected;
        Res.reinforcement_suggestion := suggestion selected;
        Res.basic_span_depth_ratio := basic_ratio;
        Res.modification_factor := round mf 2;
        Res.allowable_span_depth := round allowable_span_depth 1;
        Res.actual_span_depth := round actual_span_depth 1;
        Res.deflection_ok := actual_span_depth <=? allowable_span_depth;
        Res.shear_force := round V 2;
        Res.concrete_shear_strength := round vc 2;
        Res.shear_ok := v <=? vc |}.
End Calculator.

(** ** Python floats: binary64 *)

Module Binary64.
Local Open Scope Z_scope.

(** The quotient [n / d] of two positive integers, correctly rounded to
    binary64, with sign [s]. *)
Definition of_ratio (s : bool) (n d : positive) : float :=
  SF2Prim (SFdiv prec emax (S754_finite s n 0) (S754_finite false d 0)).

(** Decimal literals are correctly rounded, and so is [float(n)]. *)
Definition literal (m : Z) (k : nat) : float :=
  let d := Z.to_pos (10 ^ Z.of_nat k) in
  match m with
  | Z0 => PrimFloat.zero
  | Zpos p => of_ratio false p d
  | Zneg p => of_ratio true p d
  end.

Definition floor (x : float) : Z :=
  match Prim2SF x with
  | S754_finite s m e =>
      let n := if s then Zneg m else Zpos m in
      if 0 <=? e then n * 2 ^ e else n / 2 ^ (- e)
  | _ => 0
  end.

(** [round(x, k)] of a finite float: the exact value is rounded half-even
    to [k] decimal digits, and the decimal result is read back as the
    nearest float (the [dtoa]/[strtod] pair of CPython's [double_round]). *)
Definition round_to (x : float) (k : nat) : float :=
  match Prim2SF x with
  | S754_finite s m e =>
      if 0 <=? e then x
      else
        let num := Zpos m * 10 ^ Z.of_nat k in
        let den := 2 ^ (- e) in
        let q := num / den in
        let r := num mod den in
        let n := match 2 * r ?= den with
                 | Lt => q
                 | Gt => q + 1
                 | Eq => if Z.even q then q else q + 1
                 end in
        match n with
        | Zpos p => of_ratio s p (Z.to_pos (10 ^ Z.of_nat k))
        | _ => if s then PrimFloat.neg_zero else PrimFloat.zero
        end
  | _ => x
  end.

#[global] Instance py_float : PyFloat float := {|
  lit := literal;
  int_too_large := fun n => PrimFloat.is_infinity (literal n 0);
  fadd := PrimFloat.add;
  fsub := PrimFloat.sub;
  fmul := PrimFloat.mul;
  fdiv := PrimFloat.div;
  fneg := PrimFloat.opp;
  fsqrt := PrimFloat.sqrt;
  flt := PrimFloat.ltb;
  fle := PrimFloat.leb;
  feq := PrimFloat.eqb;
  is_nan := PrimFloat.is_nan;
  is_inf := PrimFloat.is_infinity;
  floorZ := floor;
  round_digits := round_to
|}.

(** The C library's [pow] is a parameter of the last step. *)
Definition libm (c_pow : float -> float -> float) : Libm float :=
  {| libm_pow := c_pow |}.

End Binary64.

(** ** Exact arithmetic: the real numbers *)

Module Exact.
Local Open Scope R_scope.

Definition literal (m : Z) (k : nat) : R :=
  IZR m / IZR (10 ^ Z.of_nat k).

Definition lt (x y : R) : bool := if Rlt_dec x y then true else false.
Definition le (x y : R) : bool := if Rle_dec x y then true else false.
Definition eq (x y : R) : bool := if Req_dec_T x y then true else false.

Definition floor (x : R) : Z := (up x - 1)%Z.

(** half-even rounding to [k] decimal digits *)
Definition round_to (x : R) (k : nat) : R :=
  let y := x * IZR (10 ^ Z.of_nat k) in
  let n := floor y in
  let f := y - IZR n in
  let n' := if Rlt_dec f (1 / 2) then n
            else if Rlt_dec (1 / 2) f then (n + 1)%Z
            else if Z.even n then n else (n + 1)%Z in
  IZR n' / IZR (10 ^ Z.of_nat k).

#[global] Instance py_float : PyFloat R := {|
  lit := literal;
  int_too_large := fun _ => false;
  fadd := Rplus;
  fsub := Rminus;
  fmul := Rmult;
  fdiv := Rdiv;
  fneg := Ropp;
  fsqrt := R_sqrt.sqrt;
  flt := lt;
  fle := le;
  feq := eq;
  is_nan := fun _ => false;
  is_inf := fun _ => false;
  floorZ := floor;
  round_digits := round_to
|}.

#[global] Instance libm : Libm R := {| libm_pow := Rpower |}.

End Exact.

(** ** Vocabulary of the properties *)

(** The order of the floats that are not NaN, as integers. *)
Definition rank (x : float) : Z :=
  match Prim2SF x with
  | S754_zero _ => 0
  | S754_nan => 0
  | S754_infinity s => if s then - 2 ^ 70 else 2 ^ 70
  | S754_finite s m e =>
      let v := (e + 1075) * 2 ^ 53 + Zpos m in
      if s then - v else v
  end.

(** [s] is the first element of [xs] of least rank. *)
Definition first_least {A : Type} (r : A -> Z) (xs : list A) (s : A) : Prop :=
  exists before after : list A,
    xs = (before ++ s :: after)%list /\
    (forall o, In o xs -> r s <= r o) /\
    (forall o, In o before -> r s < r o).

Section Vocabulary.
Context {F : Type} {PF : PyFloat F}.

(** What the loop body appends for one bar: the option [o] of a bar of
    the table, its spacing and its actual area. *)
Definition evaluated (As_provided As_required : F) (o : option_ F) : Prop :=
  In (bar_size o, bar_area o) BAR_AREAS /\
  exists raw a : F,
    truediv (fmul (bar_area o) (lit 1000 0)) As_provided = Ok raw /\
    (exists (q : F) (n : Z),
        truediv raw (lit 25 0) = Ok q /\ math_floor q = Ok n /\
        spacing o = imax 75 (imin (n * 25) 300)) /\
    75 <= spacing o <= 300 /\ (25 | spacing o) /\
    truediv (fmul (bar_area o) (lit 1000 0)) (lit (spacing o) 0) = Ok a /\
    As_actual o = round a 1 /\
    adequate o = fge a As_required.

(** The options appended once the loop has gone through the bars [done]. *)
Definition evaluated_so_far (As_provided As_required : F)
    (done : list (string * F)) (options : list (option_ F)) : Prop :=
  Forall (evaluated As_provided As_required) options /\
  (fgt As_provided (lit 0 0) = true ->
   map (fun o => (bar_size o, bar_area o)) options = done) /\
  (fgt As_provided (lit 0 0) = false -> options = []).

End Vocabulary.

(** The stored actual area of a bar at a spacing, and the check that no
    bar of the table has a NaN area or a NaN stored area at it. *)
Definition stored_area (bar_area : float) (s : Z) : exc float :=
  a <- truediv (fmul bar_area (lit 1000 0)) (lit s 0) ;; Ok (round a 1).

Definition no_nan_at (s : Z) : bool :=
  forallb (fun item =>
             match stored_area (snd item) s with
             | Ok a => negb (PrimFloat.is_nan (snd item)) &&
                       negb (PrimFloat.is_nan a)
             | Raise _ => false
             end) (BAR_AREAS (F := float)).

(** The unrounded actual area of a bar at a spacing, the spacings the
    clamp can produce, and the table of the areas with their stored
    roundings; [rounding_keeps_order] checks that rounding to one decimal
    changes no comparison between two entries of the table. *)
Definition actual_area (bar_area : float) (s : Z) : exc float :=
  truediv (fmul bar_area (lit 1000 0)) (lit s 0).

Definition practical_spacings : list Z :=
  [75; 100; 125; 150; 175; 200; 225; 250; 275; 300].

Definition area_pairs : list (float * float) :=
  flat_map (fun item =>
              flat_map (fun s =>
                          match actual_area (snd item) s with
                          | Ok a => [(a, round a 1)]
                          | Raise _ => []
                          end) practical_spacings)
           (BAR_AREAS (F := float)).

Definition rounding_keeps_order : bool :=
  forallb (fun p =>
             forallb (fun q =>
                        Bool.eqb (PrimFloat.ltb (snd p) (snd q))
                                 (PrimFloat.ltb (fst p) (fst q)) &&
                        Bool.eqb (PrimFloat.leb (snd p) (snd q))
                                 (PrimFloat.leb (fst p) (fst q)))
                     area_pairs) area_pairs.

(** The options of scenario A. *)
Definition scenario_A_options : list (option_ float) :=
  [ {| bar_size := "Y8"; bar_area := 50.3; spacing := 175;
       As_actual := 287.4; adequate := true |};
    {| bar_size := "Y10"; bar_area := 78.5; spacing := 275;
       As_actual := 285.5; adequate := true |};
    {| bar_size := "Y12"; bar_area := 113.1; spacing := 300;
       As_actual := 377; adequate := true |};
    {| bar_size := "Y16"; bar_area := 201.1; spacing := 300;
       As_actual := 670.3; adequate := true |};
    {| bar_size := "Y20"; bar_area := 314.2; spacing := 300;
       As_actual := 1047.3; adequate := true |};
    {| bar_size := "Y25"; bar_area := 490.9; spacing := 300;
       As_actual := 1636.3; adequate := true |} ]%float.

(** The options of a 12 m span under the loads 50 and 20 with C20 concrete:
    the provided and required areas are 10296.725725342918. *)
Definition scenario_heavy_options : list (option_ float) :=
  [ {| bar_size := "Y8"; bar_area := 50.3; spacing := 75;
       As_actual := 670.7; adequate := false |};
    {| bar_size := "Y10"; bar_area := 78.5; spacing := 75;
       As_actual := 1046.7; adequate := false |};
    {| bar_size := "Y12"; bar_area := 113.1; spacing := 75;
       As_actual := 1508; adequate := false |};
    {| bar_size := "Y16"; bar_area := 201.1; spacing := 75;
       As_actual := 2681.3; adequate := false |};
    {| bar_size := "Y20"; bar_area := 314.2; spacing := 75;
       As_actual := 4189.3; adequate := false |};
    {| bar_size := "Y25"; bar_area := 490.9; spacing := 75;
       As_actual := 6545.3; adequate := false |} ]%float.

(** ** What is assumed of C's [pow] *)

(** A root of a finite float is finite: [pow(x, y)] with [0 < y < 1] does
    not overflow. *)
Definition roots_finite (c_pow : float -> float -> float) : Prop :=
  forall x y : float,
    PrimFloat.is_infinity x = false ->
    PrimFloat.ltb 0 y = true -> PrimFloat.ltb y 1 = true ->
    PrimFloat.is_infinity (c_pow x y) = false.

(** ** The calculator page

    The [/calculator] route.  The form is given as the handler reads it:
    each of the four numbers is what [float(request.form.get(...))]
    evaluates to, a float or the ValueError of a text that is no number,
    and the two grades are the submitted strings or their defaults.  A
    page is what the template is rendered with, together with the messages
    flashed on the way.  The message of the last [except] clause is kept
    as the exception it formats. *)

Inductive message : Type :=
| Text (s : string)
| Calculation_error (e : exception).

Record form (F : Type) : Type := {
  form_span : exc F;
  form_dead_load : exc F;
  form_live_load : exc F;
  form_concrete_grade : string;
  form_steel_grade : string;
  form_cover : exc F
}.
Arguments form_span {F} _.
Arguments form_dead_load {F} _.
Arguments form_live_load {F} _.
Arguments form_concrete_grade {F} _.
Arguments form_steel_grade {F} _.
Arguments form_cover {F} _.

Record page (F : Type) : Type := {
  results : option (Res.t F);
  flashed : list (message * string);
  concrete_grades : list string;
  steel_grades : list string
}.
Arguments results {F} _.
Arguments flashed {F} _.
Arguments concrete_grades {F} _.
Arguments steel_grades {F} _.

Section Page.
Context {F : Type} {PF : PyFloat F}.
Local Open Scope py_scope.

Definition errors (span dead_load live_load cover : F) : list string :=
  let errors := [] in
  let errors :=
    if (span <=? lit 0 0) || fgt span (lit 12 0)
    then (errors ++ ["Span must be between 0.1m and 12m"])%list
    else errors in
  let errors :=
    if (dead_load <? lit 0 0) || fgt dead_load (lit 50 0)
    then (errors ++ ["Dead load must be between 0 and 50 kN/m²"])%list
    else errors in
  let errors :=
    if (live_load <? lit 0 0) || fgt live_load (lit 20 0)
    then (errors ++ ["Live load must be between 0 and 20 kN/m²"])%list
    else errors in
  let errors :=
    if (cover <? lit 15 0) || fgt cover (lit 75 0)
    then (errors ++ ["Cover must be between 15mm and 75mm"])%list
    else errors in
  errors.

Definition render_template (results : option (Res.t F))
    (flashed : list (message * string)) : page F :=
  {| results := results;
     flashed := flashed;
     concrete_grades := keys (CONCRETE_GRADES (F := F));
     steel_grades := keys STEEL_GRADES |}.

Definition calculator {LM : Libm F} (method : string) (f : form F) : page F :=
  if String.eqb method "POST" then
    let attempt : exc (option (Res.t F) * list (message * string)) :=
      span <- form_span f ;;
      dead_load <- form_dead_load f ;;
      live_load <- form_live_load f ;;
      let concrete_grade := form_concrete_grade f in
      let steel_grade := form_steel_grade f in
      cover <- form_cover f ;;
      match errors span dead_load live_load cover with
      | _ :: _ as errors =>
          Ok (None, map (fun error => (Text error, "error")) errors)
      | [] =>
          results <- calculate_slab_design span dead_load live_load
                       concrete_grade steel_grade cover ;;
          Ok (Some results,
              [(Text "Calculation completed successfully!", "success")])
      end in
    match attempt with
    | Ok (results, flashed) => render_template results flashed
    | Raise ValueError =>
        render_template None
          [(Text "Please enter valid numeric values", "error")]
    | Raise e => render_template None [(Calculation_error e, "error")]
    end
  else render_template None [].

End Page.




(** * Properties *)

(** ** The exception monad and dictionaries *)

Lemma bind_Ok {A B : Type} (c : exc A) (k : A -> exc B) (b : B) :
  bind c k = Ok b -> exists a, c = Ok a /\ k a = Ok b.
Proof.
  destruct c as [a|e]; simpl; intros E; [eauto | discriminate].
Qed.

Lemma bind_Raise {A B : Type} (c : exc A) (k : A -> exc B) (e : exception) :
  c = Raise e -> bind c k = Raise e.
Proof. intros ->; reflexivity. Qed.

Lemma bind_eq {A B : Type} (c : exc A) (k : A -> exc B) (a : A) :
  c = Ok a -> bind c k = k a.
Proof. intros ->; reflexivity. Qed.

Lemma getitem_missing {V : Type} (d : list (string * V)) (k : string) :
  ~ In k (keys d) -> getitem d k = Raise (KeyError k).
Proof.
  induction d as [|[k' v] d IH]; simpl; intros Hk; [reflexivity|].
  destruct (String.eqb_spec k k') as [->|_].
  - exfalso; apply Hk; now left.
  - apply IH; intros Hin; apply Hk; now right.
Qed.

Lemma getitem_present {V : Type} (d : list (string * V)) (k : string) :
  In k (keys d) -> exists v, getitem d k = Ok v.
Proof.
  induction d as [|[k' v] d IH]; simpl; intros Hk; [contradiction|].
  destruct (String.eqb_spec k k') as [->|Hne]; [eauto|].
  destruct Hk as [->|Hk]; [contradiction | auto].
Qed.

Lemma getitem_Ok_In {V : Type} (d : list (string * V)) (k : string) (v : V) :
  getitem d k = Ok v -> In (k, v) d.
Proof.
  induction d as [|[k' v'] d IH]; simpl; [discriminate|].
  destruct (String.eqb_spec k k') as [->|_].
  - intros [= ->]; now left.
  - intros E; right; auto.
Qed.

(** ** Unknown grades (C3) *)

(** C3.  When the concrete grade or the steel grade is not a key of its
    table, the call raises KeyError on the first such key, whatever the
    numeric arguments are (NaN and infinities included): the two lookups
    come before all arithmetic, and no [results] dict is returned. *)
Theorem unknown_grade_KeyError :
  forall (F : Type) (PF : PyFloat F) (LM : Libm F)
         (span dead_load live_load : F) (concrete_grade steel_grade : string)
         (cover : F),
    ~ In concrete_grade (keys (CONCRETE_GRADES (F := F))) \/
    ~ In steel_grade (keys STEEL_GRADES) ->
    (calculate_slab_design span dead_load live_load concrete_grade
       steel_grade cover = Raise (KeyError concrete_grade) /\
     ~ In concrete_grade (keys (CONCRETE_GRADES (F := F)))) \/
    (calculate_slab_design span dead_load live_load concrete_grade
       steel_grade cover = Raise (KeyError steel_grade) /\
     In concrete_grade (keys (CONCRETE_GRADES (F := F))) /\
     ~ In steel_grade (keys STEEL_GRADES)).
Proof.
  intros F PF LM span dead_load live_load cg sg cover Hk.
  unfold calculate_slab_design, material_properties.
  destruct (in_dec string_dec cg (keys (CONCRETE_GRADES (F := F)))) as [Hc|Hc].
  - right. destruct Hk as [Hn|Hs]; [contradiction|].
    destruct (getitem_present _ _ Hc) as [c ->]; cbn [bind].
    rewrite (getitem_missing _ _ Hs); cbn [bind]. auto.
  - left. rewrite (getitem_missing _ _ Hc); cbn [bind]. auto.
Qed.

Lemma unknown_grade_KeyError_witness :
  (calculate_slab_design (F := R) 4%R 3%R 2%R "C99" "460" 25%R
     = Raise (KeyError "C99") /\
   ~ In "C99" (keys (CONCRETE_GRADES (F := R)))) \/
  (calculate_slab_design (F := R) 4%R 3%R 2%R "C99" "460" 25%R
     = Raise (KeyError "460") /\
   In "C99" (keys (CONCRETE_GRADES (F := R))) /\
   ~ In "460" (keys STEEL_GRADES)).
Proof.
  apply (unknown_grade_KeyError R Exact.py_float Exact.libm).
  left. simpl. intros [E|[E|[E|[E|[E|[]]]]]]; discriminate E.
Defined.

(** ** The returned dict and the local variables *)

Ltac bind_inv H :=
  let a := fresh "a" in
  let E := fresh "E" in
  apply bind_Ok in H; destruct H as (a & E & H).

(** What a returned [results] holds: the rounded locals of steps 1 to 9,
    the options evaluated from them and the option selected among those. *)
Lemma calculate_slab_design_Ok {F : Type} {PF : PyFloat F} {LM : Libm F}
    (span dead_load live_load : F) (concrete_grade steel_grade : string)
    (cover : F) (r : Res.t F) :
  calculate_slab_design span dead_load live_load concrete_grade steel_grade
    cover = Ok r ->
  exists (fck fy : Z) (l : Loc.t F),
    material_properties (F := F) concrete_grade steel_grade = Ok (fck, fy) /\
    section_design span dead_load live_load fck fy cover = Ok l /\
    evaluate_bars (Loc.As_provided l) (Loc.As_required l)
      = Ok (Res.reinforcement_options r) /\
    select_reinforcement (Res.reinforcement_options r)
      = Ok (Res.selected_reinforcement r) /\
    Res.ultimate_load r = round (Loc.ultimate_load l) 2 /\
    Res.moment r = round (Loc.moment l) 2 /\
    Res.slab_depth r = Loc.slab_depth l /\
    Res.effective_depth r = Loc.effective_depth_int l /\
    Res.K r = round (Loc.K l) 4 /\
    Res.compression_reinforcement_needed r = fgt (Loc.K l) K_prime /\
    Res.lever_arm r = round (Loc.z l) 1 /\
    Res.As_required r = round (Loc.As_required l) 1 /\
    Res.As_min r = round (Loc.As_min l) 1 /\
    Res.As_provided r = round (Loc.As_provided l) 1.
Proof.
  unfold calculate_slab_design. intros H.
  bind_inv H. destruct a as [fck fy]. cbv zeta in H.
  do 8 bind_inv H.
  injection H as <-. cbn.
  exists fck, fy, a. repeat split; assumption.
Qed.

(** An exception of the lookups or of steps 1 to 9 is the exception of the
    call. *)
Lemma calculate_slab_design_Raise {F : Type} {PF : PyFloat F} {LM : Libm F}
    (span dead_load live_load : F) (concrete_grade steel_grade : string)
    (cover : F) (fck fy : Z) (e : exception) :
  material_properties (F := F) concrete_grade steel_grade = Ok (fck, fy) ->
  section_design span dead_load live_load fck fy cover = Raise e ->
  calculate_slab_design span dead_load live_load concrete_grade steel_grade
    cover = Raise e.
Proof.
  unfold calculate_slab_design. intros E1 E2.
  rewrite E1; cbn [bind]. rewrite E2. reflexivity.
Qed.

(** ** Scenario A (C1) *)

Section ScenarioA.
Local Open Scope float_scope.

(** Steps 1 to 9 on the binary64 inputs of scenario A. *)
Lemma scenario_A_section :
  section_design (F := float) 4 3 2 25 460 25 =
  Ok {| Loc.ultimate_load := 7.3999999999999995;
        Loc.moment := 14.799999999999999;
        Loc.estimated_depth := 160;
        Loc.slab_depth := 175;
        Loc.effective_depth := 144;
        Loc.effective_depth_int := 144;
        Loc.K := 0.028549382716049378;
        Loc.z := 136.79999999999998;
        Loc.As_required := 270.33266992234877;
        Loc.As_min := 227.5;
        Loc.As_provided := 270.33266992234877 |}.
Proof. vm_compute. reflexivity. Qed.

(** C1, counterexample.  On the inputs of scenario A no [results] has a K
    within 0.01 of 0.0147, whatever C's [pow] is: the stored K is 0.0285. *)
Lemma scenario_A_K_is_not_0_0147 :
  ~ exists (c_pow : float -> float -> float) (r : Res.t float),
      calculate_slab_design (LM := Binary64.libm c_pow)
        4 3 2 "C25" "460" 25 = Ok r /\
      PrimFloat.ltb (PrimFloat.abs (PrimFloat.sub (Res.K r) 0.0147)) 0.01
        = true.
Proof.
  intros (c_pow & r & E & HK).
  apply calculate_slab_design_Ok in E.
  destruct E as (fck & fy & l & Em & El & _ & _ & _ & _ & _ & _ & EK & _).
  vm_compute in Em. injection Em as <- <-.
  rewrite scenario_A_section in El. injection El as <-.
  rewrite EK in HK. vm_compute in HK. discriminate HK.
Qed.

(** C1, as amended.  On the inputs of scenario A the call returns
    ultimate_load 7.4, moment 14.8, slab_depth 175 (the estimate 160 rounded
    up), effective_depth 144 and K 0.0285, with no compression
    reinforcement needed. *)
Theorem scenario_A :
  forall c_pow : float -> float -> float,
    roots_finite c_pow ->
    exists r : Res.t float,
      calculate_slab_design (LM := Binary64.libm c_pow)
        4 3 2 "C25" "460" 25 = Ok r /\
      Res.ultimate_load r = 7.4%float /\
      Res.moment r = 14.8%float /\
      estimate_depth (F := float) 4 = Ok 160%float /\
      Res.slab_depth r = 175%Z /\
      Res.effective_depth r = 144%Z /\
      Res.K r = 0.0285%float /\
      PrimFloat.leb (Res.K r) 0.156 = true /\
      Res.compression_reinforcement_needed r = false.
Proof.
  intros c_pow Hfin.
  pose proof (Hfin 0.18773102077940887 0.33333333333333331
                eq_refl eq_refl eq_refl)%float as H1.
  pose proof (Hfin 2.7777777777777777 0.25 eq_refl eq_refl eq_refl)%float
    as H2.
  vm_compute in H1, H2.
  assert (Hr : exists r : Res.t float,
             calculate_slab_design (LM := Binary64.libm c_pow)
               4 3 2 "C25" "460" 25 = Ok r).
  { eexists. vm_compute. rewrite H1, H2. reflexivity. }
  destruct Hr as [r E]. exists r. split; [exact E|].
  apply calculate_slab_design_Ok in E.
  destruct E as (fck & fy & l & Em & El & _ & _ & Eu & Emo & Esd & Eed & EK
                 & Ec & _).
  vm_compute in Em. injection Em as <- <-.
  rewrite scenario_A_section in El. injection El as <-.
  rewrite Eu, Emo, Esd, Eed, EK, Ec. vm_compute.
  repeat split; reflexivity.
Qed.

Lemma scenario_A_witness :
  exists r : Res.t float,
    calculate_slab_design (LM := Binary64.libm (fun x _ => x))
      4 3 2 "C25" "460" 25 = Ok r /\
    Res.ultimate_load r = 7.4%float /\
    Res.moment r = 14.8%float /\
    estimate_depth (F := float) 4 = Ok 160%float /\
    Res.slab_depth r = 175%Z /\
    Res.effective_depth r = 144%Z /\
    Res.K r = 0.0285%float /\
    PrimFloat.leb (Res.K r) 0.156 = true /\
    Res.compression_reinforcement_needed r = false.
Proof.
  apply (scenario_A (fun x _ => x)).
  intros x y Hx _ _. exact Hx.
Defined.

End ScenarioA.

(** ** Steps 1 to 9, one by one *)

(** The local variables of a completed [section_design] are the results of
    the steps, each applied to the locals before it. *)
Lemma section_design_Ok {F : Type} {PF : PyFloat F}
    (span dead_load live_load : F) (fck fy : Z) (cover : F) (l : Loc.t F) :
  section_design span dead_load live_load fck fy cover = Ok l ->
  Loc.ultimate_load l = load_combination dead_load live_load /\
  bending_moment (Loc.ultimate_load l) span = Ok (Loc.moment l) /\
  estimate_depth span = Ok (Loc.estimated_depth l) /\
  round_up_depth (Loc.estimated_depth l) = Ok (Loc.slab_depth l) /\
  effective_depth_of (Loc.slab_depth l) cover = Ok (Loc.effective_depth l) /\
  int_of_float (Loc.effective_depth l) = Ok (Loc.effective_depth_int l) /\
  k_value (Loc.moment l) (Loc.effective_depth l) fck = Ok (Loc.K l) /\
  lever_arm (Loc.effective_depth l) (Loc.K l) = Ok (Loc.z l) /\
  required_steel (Loc.moment l) (Loc.z l) fy = Ok (Loc.As_required l) /\
  minimum_steel (Loc.slab_depth l) = Ok (Loc.As_min l) /\
  Loc.As_provided l = fmax (Loc.As_required l) (Loc.As_min l).
Proof.
  unfold section_design. intros H.
  do 9 bind_inv H. injection H as <-. cbn.
  repeat split; assumption.
Qed.

(** ** Exact arithmetic *)

Section ExactFacts.
Local Open Scope R_scope.

Lemma exact_flt (x y : R) : flt x y = true <-> x < y.
Proof. cbn; unfold Exact.lt; destruct (Rlt_dec x y); split; auto; discriminate. Qed.

Lemma exact_flt_false (x y : R) : flt x y = false <-> y <= x.
Proof.
  cbn; unfold Exact.lt; destruct (Rlt_dec x y); split; auto; try discriminate;
    intros; lra.
Qed.

Lemma exact_fle (x y : R) : fle x y = true <-> x <= y.
Proof. cbn; unfold Exact.le; destruct (Rle_dec x y); split; auto; discriminate. Qed.

Lemma exact_fle_false (x y : R) : fle x y = false <-> y < x.
Proof.
  cbn; unfold Exact.le; destruct (Rle_dec x y); split; auto; try discriminate;
    intros; lra.
Qed.

Lemma exact_feq (x y : R) : feq x y = true <-> x = y.
Proof. cbn; unfold Exact.eq; destruct (Req_dec_T x y); split; auto; discriminate. Qed.

Lemma exact_feq_false (x y : R) : feq x y = false <-> x <> y.
Proof.
  cbn; unfold Exact.eq; destruct (Req_dec_T x y); split; auto; try discriminate;
    intros; contradiction.
Qed.

Lemma exact_lit_int (n : Z) : lit n 0 = IZR n.
Proof. cbn; unfold Exact.literal; cbn; field. Qed.

Lemma exact_floor_spec (x : R) :
  IZR (Exact.floor x) <= x < IZR (Exact.floor x) + 1.
Proof.
  unfold Exact.floor. rewrite minus_IZR.
  destruct (archimed x) as [H1 H2]. lra.
Qed.

Lemma exact_floor_unique (x : R) (n : Z) :
  IZR n <= x < IZR n + 1 -> Exact.floor x = n.
Proof.
  intros [H1 H2]. destruct (exact_floor_spec x) as [H3 H4].
  assert (Ha : (Exact.floor x < n + 1)%Z).
  { apply lt_IZR. rewrite plus_IZR. lra. }
  assert (Hb : (n < Exact.floor x + 1)%Z).
  { apply lt_IZR. rewrite plus_IZR. lra. }
  lia.
Qed.

Lemma exact_truediv (x y : R) : y <> 0 -> truediv x y = Ok (x / y).
Proof.
  intros Hy. unfold truediv. rewrite exact_lit_int.
  apply exact_feq_false in Hy. rewrite Hy. reflexivity.
Qed.

Lemma exact_truediv_zero (x y : R) :
  y = 0 -> truediv x y = Raise ZeroDivisionError.
Proof.
  intros Hy. unfold truediv. rewrite exact_lit_int.
  apply exact_feq in Hy. rewrite Hy. reflexivity.
Qed.

Lemma exact_square (x : R) : square x = Ok (x * x).
Proof. reflexivity. Qed.

Lemma exact_float_of_int (n : Z) : float_of_int (F := R) n = Ok (IZR n).
Proof. unfold float_of_int. cbn [int_too_large Exact.py_float]. now rewrite exact_lit_int. Qed.

Lemma exact_math_sqrt (x : R) : 0 <= x -> math_sqrt x = Ok (R_sqrt.sqrt x).
Proof.
  intros Hx. unfold math_sqrt. cbn [is_nan Exact.py_float].
  rewrite exact_lit_int.
  assert (E : flt x 0 = false) by (apply exact_flt_false; exact Hx).
  rewrite E. reflexivity.
Qed.

Lemma exact_math_sqrt_negative (x : R) :
  x < 0 -> math_sqrt x = Raise ValueError.
Proof.
  intros Hx. unfold math_sqrt. cbn [is_nan Exact.py_float].
  rewrite exact_lit_int.
  assert (E : flt x 0 = true) by (apply exact_flt; exact Hx).
  rewrite E. reflexivity.
Qed.

Lemma exact_math_floor (x : R) :
  exists n : Z, math_floor x = Ok n /\ IZR n <= x < IZR n + 1.
Proof.
  exists (Exact.floor x). split; [reflexivity | apply exact_floor_spec].
Qed.

Lemma exact_math_ceil (x : R) :
  exists n : Z, math_ceil x = Ok n /\ IZR n - 1 < x <= IZR n.
Proof.
  exists (- Exact.floor (- x))%Z. split; [reflexivity|].
  rewrite opp_IZR. destruct (exact_floor_spec (- x)). lra.
Qed.

Lemma exact_fmax (x y : R) : fmax x y = Rmax x y.
Proof.
  unfold fmax, fgt, Rmax. cbn [flt Exact.py_float]. unfold Exact.lt.
  destruct (Rlt_dec x y), (Rle_dec x y); lra.
Qed.

Lemma exact_fmin (x y : R) : fmin x y = Rmin x y.
Proof.
  unfold fmin, Rmin. cbn [flt Exact.py_float]. unfold Exact.lt.
  destruct (Rlt_dec y x), (Rle_dec x y); lra.
Qed.

End ExactFacts.

Ltac exact_lits :=
  repeat match goal with
  | |- context [@lit R ?i ?m ?k] =>
      let d := eval vm_compute in (10 ^ Z.of_nat k)%Z in
      change (@lit R i m k) with (IZR m / IZR d)%R
  | H : context [@lit R ?i ?m ?k] |- _ =>
      let d := eval vm_compute in (10 ^ Z.of_nat k)%Z in
      change (@lit R i m k) with (IZR m / IZR d)%R in H
  end.

Section ExactSteps.
Local Open Scope R_scope.

Lemma exact_load_combination (dead_load live_load : R) :
  load_combination dead_load live_load = 1.4 * dead_load + 1.6 * live_load.
Proof. unfold load_combination. exact_lits. cbn [fadd fmul Exact.py_float]. lra. Qed.

Lemma exact_bending_moment (ultimate_load span : R) :
  bending_moment ultimate_load span = Ok (ultimate_load * (span * span) / 8).
Proof.
  unfold bending_moment. rewrite exact_square. cbn [bind].
  rewrite exact_truediv; exact_lits; [|lra].
  f_equal. cbn [fmul Exact.py_float]. lra.
Qed.

Lemma exact_estimate_depth (span : R) :
  estimate_depth span = Ok (span * 1000 / 25).
Proof.
  unfold estimate_depth. rewrite exact_truediv; exact_lits; [|lra].
  f_equal. cbn [fmul Exact.py_float]. lra.
Qed.

Lemma exact_round_up_depth (estimated_depth : R) :
  exists n : Z,
    round_up_depth estimated_depth = Ok (n * 25)%Z /\
    IZR n - 1 < estimated_depth / 25 <= IZR n.
Proof.
  unfold round_up_depth. rewrite exact_truediv; exact_lits; [|lra].
  cbn [bind].
  destruct (exact_math_ceil (estimated_depth / (25 / 1))) as (n & -> & Hn).
  exists n. split; [reflexivity|].
  replace (estimated_depth / 25) with (estimated_depth / (25 / 1)) by lra.
  exact Hn.
Qed.

Lemma exact_effective_depth_of (slab_depth : Z) (cover : R) :
  effective_depth_of slab_depth cover = Ok (IZR slab_depth - cover - 6).
Proof.
  unfold effective_depth_of. rewrite exact_float_of_int. cbn [bind].
  rewrite exact_truediv; unfold assumed_bar_dia; exact_lits; [|lra].
  cbn [bind fsub Exact.py_float]. f_equal. lra.
Qed.

Lemma exact_int_of_float (x : R) : exists n : Z, int_of_float x = Ok n.
Proof. unfold int_of_float. cbn [is_nan is_inf Exact.py_float]. eauto. Qed.

Lemma exact_k_value (moment d : R) (fck : Z) :
  d <> 0 -> (fck <> 0)%Z ->
  k_value moment d fck = Ok (moment * 1000000 / (1000 * (d * d) * IZR fck)).
Proof.
  intros Hd Hf. unfold k_value. rewrite exact_square. cbn [bind].
  assert (Hf' : IZR fck <> 0) by (now apply not_0_IZR).
  rewrite exact_truediv; unfold b; exact_lits; cbn [fmul Exact.py_float].
  - f_equal. field. auto.
  - intros E. apply Hf'.
    assert (Hdd : d * d <> 0) by (apply Rmult_integral_contrapositive; auto).
    replace (1000 / 1 * (d * d) * (IZR fck / 1)) with (1000 * (d * d) * IZR fck) in E by (field).
    apply Rmult_integral in E. destruct E as [E|E]; [|exact E].
    exfalso. apply Rmult_integral in E. destruct E; [lra|contradiction].
Qed.

Lemma exact_k_value_zero (moment d : R) (fck : Z) :
  d = 0 -> k_value moment d fck = Raise ZeroDivisionError.
Proof.
  intros ->. unfold k_value. rewrite exact_square. cbn [bind].
  apply exact_truediv_zero. cbn [fmul Exact.py_float]. ring.
Qed.

Lemma exact_K_prime : K_prime = 0.156.
Proof. unfold K_prime. exact_lits. lra. Qed.

(** below the threshold the argument of the square root is at least 0.11 *)
Lemma sqrt_argument_positive (K : R) : K <= 0.156 -> 0.11 < 0.25 - K / 1.134.
Proof. intros HK. lra. Qed.

Lemma exact_lever_arm_below (d K : R) :
  K <= 0.156 ->
  lever_arm d K =
  Ok (Rmin (d * (0.5 + R_sqrt.sqrt (0.25 - K / 1.134))) (0.95 * d)).
Proof.
  intros HK. unfold lever_arm. rewrite exact_K_prime.
  assert (E : fle K 0.156 = true) by (now apply exact_fle). rewrite E.
  rewrite exact_truediv; exact_lits; [|lra]. cbn [bind].
  cbn [fsub Exact.py_float].
  replace (25 / 100 - K / (1134 / 1000)) with (0.25 - K / 1.134) by lra.
  rewrite exact_math_sqrt by (pose proof (sqrt_argument_positive K HK); lra).
  cbn [bind]. rewrite exact_fmin. cbn [fmul fadd Exact.py_float].
  reflexivity.
Qed.

Lemma exact_lever_arm_above (d K : R) :
  0.156 < K -> lever_arm d K = Ok (0.95 * d).
Proof.
  intros HK. unfold lever_arm. rewrite exact_K_prime.
  assert (E : fle K 0.156 = false) by (now apply exact_fle_false). rewrite E.
  exact_lits. cbn [fmul Exact.py_float]. reflexivity.
Qed.

Lemma exact_required_steel (moment z : R) (fy : Z) :
  z <> 0 -> (fy <> 0)%Z ->
  required_steel moment z fy = Ok (moment * 1000000 / (0.87 * IZR fy * z)).
Proof.
  intros Hz Hf. unfold required_steel.
  assert (Hf' : IZR fy <> 0) by (now apply not_0_IZR).
  rewrite exact_truediv; exact_lits; cbn [fmul Exact.py_float].
  - apply f_equal. replace 0.87 with (87 / 100) by lra. field. auto.
  - intros E.
    replace (87 / 100 * (IZR fy / 1) * z) with (87 / 100 * (IZR fy * z)) in E by field.
    apply Rmult_integral in E. destruct E as [E|E]; [lra|].
    apply Rmult_integral in E. destruct E; contradiction.
Qed.

Lemma exact_minimum_steel (slab_depth : Z) :
  minimum_steel slab_depth = Ok (0.0013 * 1000 * IZR slab_depth).
Proof.
  unfold minimum_steel. rewrite exact_float_of_int. cbn [bind].
  unfold b. exact_lits. cbn [fmul Exact.py_float].
  first [reflexivity | f_equal; lra].
Qed.

(** C8.  For every positive real span the depth estimate is
    span * 1000 / 25 and the rounding step returns a slab depth that is
    positive, a multiple of 25 and not below the estimate; these are the
    values steps 1 to 9 keep whenever they complete. *)
Theorem slab_depth_rounds_up :
  forall span : R,
    0 < span ->
    exists slab_depth : Z,
      estimate_depth span = Ok (span * 1000 / 25) /\
      round_up_depth (span * 1000 / 25) = Ok slab_depth /\
      (0 < slab_depth)%Z /\
      (25 | slab_depth)%Z /\
      span * 1000 / 25 <= IZR slab_depth /\
      (forall (dead_load live_load : R) (fck fy : Z) (cover : R) (l : Loc.t R),
          section_design span dead_load live_load fck fy cover = Ok l ->
          Loc.estimated_depth l = span * 1000 / 25 /\
          Loc.slab_depth l = slab_depth).
Proof.
  intros span Hspan.
  destruct (exact_round_up_depth (span * 1000 / 25)) as (n & En & Hn1 & Hn2).
  exists (n * 25)%Z.
  assert (Hpos : (0 < n)%Z).
  { apply lt_IZR. lra. }
  repeat split.
  - apply exact_estimate_depth.
  - exact En.
  - lia.
  - exists n. reflexivity.
  - rewrite mult_IZR. lra.
  - apply section_design_Ok in H. destruct H as (_ & _ & He & _).
    rewrite exact_estimate_depth in He. now injection He.
  - apply section_design_Ok in H. destruct H as (_ & _ & He & Hr & _).
    rewrite exact_estimate_depth in He. injection He as He.
    rewrite <- He, En in Hr. now injection Hr.
Qed.

Lemma slab_depth_rounds_up_witness :
  exists slab_depth : Z,
    estimate_depth 4 = Ok (4 * 1000 / 25) /\
    round_up_depth (4 * 1000 / 25) = Ok slab_depth /\
    (0 < slab_depth)%Z /\
    (25 | slab_depth)%Z /\
    4 * 1000 / 25 <= IZR slab_depth /\
    (forall (dead_load live_load : R) (fck fy : Z) (cover : R) (l : Loc.t R),
        section_design 4 dead_load live_load fck fy cover = Ok l ->
        Loc.estimated_depth l = 4 * 1000 / 25 /\
        Loc.slab_depth l = slab_depth).
Proof. apply (slab_depth_rounds_up 4). lra. Defined.

(** C4, as amended.  In exact arithmetic, for a positive span and loads
    that are not negative: a strictly larger span gives a strictly larger
    moment when the ultimate load is positive; a strictly larger dead load,
    or live load, gives a strictly larger ultimate load and a strictly
    larger moment. *)
Theorem moment_strictly_monotone :
  forall span dead_load live_load : R,
    0 < span -> 0 <= dead_load -> 0 <= live_load ->
    let w := load_combination dead_load live_load in
    exists M : R,
      bending_moment w span = Ok M /\
      (forall span' : R,
          span < span' -> 0 < w ->
          exists M', bending_moment w span' = Ok M' /\ M < M') /\
      (forall dead_load' : R,
          dead_load < dead_load' ->
          let w' := load_combination dead_load' live_load in
          w < w' /\ exists M', bending_moment w' span = Ok M' /\ M < M') /\
      (forall live_load' : R,
          live_load < live_load' ->
          let w' := load_combination dead_load live_load' in
          w < w' /\ exists M', bending_moment w' span = Ok M' /\ M < M').
Proof.
  intros span dead_load live_load Hs Hd Hl w.
  exists (w * (span * span) / 8). split; [apply exact_bending_moment|].
  assert (Hss : 0 < span * span) by (apply Rmult_lt_0_compat; lra).
  assert (Hmono : forall w', w < w' ->
            w * (span * span) / 8 < w' * (span * span) / 8).
  { intros w' Hw. unfold Rdiv. apply Rmult_lt_compat_r; [lra|].
    apply Rmult_lt_compat_r; assumption. }
  split; [|split].
  - intros span' Hlt Hw. exists (w * (span' * span') / 8).
    split; [apply exact_bending_moment|].
    assert (span * span < span' * span') by (apply Rmult_le_0_lt_compat; lra).
    unfold Rdiv. apply Rmult_lt_compat_r; [lra|].
    apply Rmult_lt_compat_l; assumption.
  - intros dead_load' Hlt w'.
    assert (Hw : w < w').
    { subst w w'. rewrite !exact_load_combination. lra. }
    split; [exact Hw|].
    exists (w' * (span * span) / 8). split; [apply exact_bending_moment|].
    apply Hmono, Hw.
  - intros live_load' Hlt w'.
    assert (Hw : w < w').
    { subst w w'. rewrite !exact_load_combination. lra. }
    split; [exact Hw|].
    exists (w' * (span * span) / 8). split; [apply exact_bending_moment|].
    apply Hmono, Hw.
Qed.

End ExactSteps.

(** ** The loop of step 10 *)

Section Loop.
Local Open Scope Z_scope.


Lemma clamp_spec (n : Z) :
  let s := imax 75 (imin (n * 25) 300) in
  75 <= s <= 300 /\ (25 | s) /\
  (n * 25 < 75 -> s = 75) /\ (300 < n * 25 -> s = 300) /\
  (75 <= n * 25 <= 300 -> s = n * 25).
Proof.
  unfold imax, imin.
  destruct (300 <? n * 25) eqn:E1; destruct (_ >? 75) eqn:E2;
    try apply Z.ltb_lt in E1; try apply Z.ltb_ge in E1;
    try (apply Z.gtb_lt in E2); try (rewrite Z.gtb_ltb in E2; apply Z.ltb_ge in E2);
    repeat split; try lia;
    try (exists 12; lia); try (exists 3; lia); try (exists n; lia).
Qed.

Section Step10.
Context {F : Type} {PF : PyFloat F}.

Lemma float_of_int_Ok (n : Z) (x : F) : float_of_int n = Ok x -> x = lit n 0.
Proof.
  unfold float_of_int. destruct (int_too_large n); [discriminate|].
  now intros [= <-].
Qed.

Lemma practical_spacing_Ok (raw : F) (s : Z) :
  practical_spacing raw = Ok s ->
  exists (q : F) (n : Z),
    truediv raw (lit 25 0) = Ok q /\ math_floor q = Ok n /\
    s = imax 75 (imin (n * 25) 300) /\
    75 <= s <= 300 /\ (25 | s).
Proof.
  unfold practical_spacing. intros H. do 2 bind_inv H.
  injection H as <-. exists a, a0.
  destruct (clamp_spec a0) as (H1 & H2 & _). auto.
Qed.

Lemma evaluate_bar_Ok (As_provided As_required : F) (options : list (option_ F))
    (item : string * F) (options' : list (option_ F)) :
  evaluate_bar As_provided As_required options item = Ok options' ->
  (fgt As_provided (lit 0 0) = false /\ options' = options) \/
  (fgt As_provided (lit 0 0) = true /\
   exists o : option_ F,
     options' = (options ++ [o])%list /\
     bar_size o = fst item /\ bar_area o = snd item /\
     (In item BAR_AREAS -> evaluated As_provided As_required o)).
Proof.
  unfold evaluate_bar. destruct item as [name area].
  destruct (fgt As_provided (lit 0 0)); [|intros [= <-]; now left].
  intros H. right. split; [reflexivity|].
  do 4 bind_inv H. injection H as <-.
  eexists. split; [reflexivity|]. cbn.
  split; [reflexivity|]. split; [reflexivity|].
  intros Hin. unfold evaluated. cbn. split; [exact Hin|].
  apply float_of_int_Ok in E1. subst a1.
  destruct (practical_spacing_Ok _ _ E0) as (q & n & Hq & Hn & Hs & Hr & Hd).
  exists a, a2. split; [assumption|]. split; [now exists q, n|].
  repeat split; try assumption; lia.
Qed.

Lemma for_each_invariant {A S : Type} (body : S -> A -> exc S)
    (Inv : list A -> S -> Prop) (xs : list A) :
  forall (done : list A) (s s' : S),
    (forall d x t t',
        In x xs -> Inv d t -> body t x = Ok t' -> Inv (d ++ [x])%list t') ->
    Inv done s -> for_each body xs s = Ok s' ->
    Inv (done ++ xs)%list s'.
Proof.
  induction xs as [|x xs IH]; intros done s s' Hstep Hinv H; cbn in H.
  - injection H as <-. now rewrite app_nil_r.
  - bind_inv H.
    replace (done ++ x :: xs)%list with ((done ++ [x]) ++ xs)%list
      by (now rewrite <- app_assoc).
    apply (IH (done ++ [x])%list a s').
    + intros d y t t' Hy. apply Hstep. now right.
    + apply (Hstep done x s a); [now left | assumption | assumption].
    + exact H.
Qed.

Lemma evaluate_bars_Ok (As_provided As_required : F)
    (options : list (option_ F)) :
  evaluate_bars As_provided As_required = Ok options ->
  evaluated_so_far As_provided As_required BAR_AREAS options.
Proof.
  unfold evaluate_bars. intros H.
  apply (for_each_invariant (evaluate_bar As_provided As_required)
           (evaluated_so_far As_provided As_required)
           BAR_AREAS [] [] options); [| |exact H].
  - intros d x t t' Hx (Hall & Hon & Hoff) Hbody.
    apply evaluate_bar_Ok in Hbody.
    destruct Hbody as [(Hg & ->)|(Hg & o & -> & Hn & Ha & Ho)].
    + rewrite (Hoff Hg). split; [constructor|].
      split; [congruence | reflexivity].
    + split; [|split; [|congruence]].
      * apply Forall_app. split; [exact Hall|].
        constructor; [now apply Ho | constructor].
      * intros _. rewrite map_app, (Hon Hg). cbn. rewrite Hn, Ha.
        now destruct x.
  - split; [constructor|]. split; reflexivity.
Qed.

End Step10.

(** C9.  Every option the loop appends, at any float instance, is a bar of
    the table whose spacing is floor(raw / 25) * 25 clamped into 75..300,
    with raw = bar_area * 1000 / As_provided; the spacing is a multiple of 25
    between 75 and 300; the actual area is bar_area * 1000 / spacing, which
    decides adequacy at full precision and is recorded rounded to one
    decimal. *)
Theorem options_are_evaluated :
  forall (F : Type) (PF : PyFloat F) (As_provided As_required : F)
         (options : list (option_ F)),
    evaluate_bars As_provided As_required = Ok options ->
    Forall (evaluated As_provided As_required) options.
Proof.
  intros F PF Ap Ar options H. apply evaluate_bars_Ok in H. apply H.
Qed.


End Loop.

(** ** Steps 10 to 12 in exact arithmetic *)

Section ExactDesign.
Local Open Scope R_scope.

Lemma exact_fgt (x y : R) : fgt x y = true <-> y < x.
Proof. unfold fgt. apply exact_flt. Qed.

Lemma exact_fgt_false (x y : R) : fgt x y = false <-> x <= y.
Proof. unfold fgt. apply exact_flt_false. Qed.

Lemma exact_practical_spacing (raw : R) :
  exists s : Z, practical_spacing raw = Ok s /\ (75 <= s <= 300)%Z.
Proof.
  unfold practical_spacing. rewrite exact_truediv; exact_lits; [|lra].
  cbn [bind]. unfold math_floor. cbn [is_nan is_inf Exact.py_float bind].
  eexists. split; [reflexivity|]. apply clamp_spec.
Qed.

Lemma exact_evaluate_bar (As_provided As_required : R)
    (options : list (option_ R)) (item : string * R) :
  0 < As_provided ->
  exists o : option_ R,
    evaluate_bar As_provided As_required options item
      = Ok (options ++ [o])%list.
Proof.
  intros Hp. unfold evaluate_bar. destruct item as [name area].
  rewrite exact_lit_int.
  assert (E : fgt As_provided 0 = true) by (now apply exact_fgt). rewrite E.
  rewrite exact_truediv by lra. cbn [bind].
  destruct (exact_practical_spacing (fmul area (lit 1000 0) / As_provided))
    as (s & -> & Hs). cbn [bind].
  rewrite exact_float_of_int. cbn [bind].
  rewrite exact_truediv.
  - cbn [bind]. eexists. reflexivity.
  - apply not_0_IZR. lia.
Qed.

Lemma for_each_total {A S : Type} (body : S -> A -> exc S) (xs : list A) :
  (forall s x, exists s', body s x = Ok s') ->
  forall s, exists s', for_each body xs s = Ok s'.
Proof.
  intros Hbody. induction xs as [|x xs IH]; intros s; cbn.
  - eauto.
  - destruct (Hbody s x) as [s1 ->]. cbn [bind]. apply IH.
Qed.

Lemma exact_evaluate_bars (As_provided As_required : R) :
  0 < As_provided ->
  exists options : list (option_ R),
    evaluate_bars As_provided As_required = Ok options /\
    map bar_size options = keys (BAR_AREAS (F := R)) /\
    List.length options = 6%nat.
Proof.
  intros Hp.
  destruct (for_each_total (evaluate_bar As_provided As_required) BAR_AREAS)
    with (s := @nil (option_ R)) as [options E].
  { intros s x. destruct (exact_evaluate_bar As_provided As_required s x Hp)
      as [o Ho]. eauto. }
  exists options. split; [exact E|].
  apply evaluate_bars_Ok in E. destruct E as (_ & Hon & _).
  rewrite exact_lit_int in Hon.
  assert (Hg : fgt As_provided 0 = true) by (now apply exact_fgt).
  specialize (Hon Hg).
  assert (Hk : map bar_size options = keys (BAR_AREAS (F := R))).
  { unfold keys. rewrite <- Hon. rewrite map_map. reflexivity. }
  split; [exact Hk|].
  rewrite <- (length_map bar_size), Hk. reflexivity.
Qed.

Lemma best_by_nonempty {F A : Type} (better : F -> F -> bool) (key : A -> F)
    (xs : list A) :
  xs <> [] -> exists x, best_by better key xs = Ok x.
Proof. destruct xs; [contradiction | cbn; eauto]. Qed.

Lemma select_reinforcement_nonempty {F : Type} {PF : PyFloat F}
    (options : list (option_ F)) :
  options <> [] -> exists selected, select_reinforcement options = Ok selected.
Proof.
  intros Hne. unfold select_reinforcement.
  destruct (filter adequate options) eqn:E.
  - now apply best_by_nonempty.
  - apply best_by_nonempty. discriminate.
Qed.

Lemma select_reinforcement_empty {F : Type} {PF : PyFloat F} :
  select_reinforcement (F := F) [] = Raise ValueError.
Proof. reflexivity. Qed.

(** the values of the two tables *)
Lemma material_properties_Ok {F : Type} {PF : PyFloat F}
    (concrete_grade steel_grade : string) (fck fy : Z) :
  material_properties (F := F) concrete_grade steel_grade = Ok (fck, fy) ->
  (20 <= fck <= 40)%Z /\ (460 <= fy <= 500)%Z.
Proof.
  unfold material_properties. intros H. do 2 bind_inv H.
  injection H as <- <-.
  apply getitem_Ok_In in E, E0. cbn in E, E0.
  repeat match goal with
         | H : _ \/ _ |- _ => destruct H as [H|H]
         | H : (_, _) = (_, _) |- _ => injection H as _ <-
         | H : False |- _ => contradiction
         end; cbn; lia.
Qed.

(** the lever arm has the sign of the effective depth *)
Lemma exact_lever_arm_sign (d K z : R) :
  lever_arm d K = Ok z ->
  (0 < d -> 0 < z) /\ (d < 0 -> z < 0) /\ (d <> 0 -> z <> 0).
Proof.
  intros H.
  assert (Hz : (0 < d -> 0 < z) /\ (d < 0 -> z < 0)).
  { destruct (Rle_dec K 0.156) as [HK|HK].
    - rewrite exact_lever_arm_below in H by assumption. injection H as <-.
      set (r := R_sqrt.sqrt (0.25 - K / 1.134)).
      assert (Hr : 0 <= r) by apply sqrt_pos.
      split; intros Hd.
      + apply Rmin_glb_lt; [|lra]. apply Rmult_lt_0_compat; lra.
      + apply Rle_lt_trans with (0.95 * d); [apply Rmin_r | lra].
    - rewrite exact_lever_arm_above in H by lra. injection H as <-.
      split; intros; lra. }
  destruct Hz as [H1 H2]. repeat split; auto.
  intros Hd. destruct (Rlt_dec 0 d); [specialize (H1 r) | assert (d < 0) by lra; specialize (H2 H0)]; lra.
Qed.

(** Steps 1 to 9 complete unless the effective depth is zero. *)
Lemma exact_section_design (span dead_load live_load : R) (fck fy : Z)
    (cover : R) (slab_depth : Z) :
  (fck <> 0)%Z -> (fy <> 0)%Z ->
  round_up_depth (span * 1000 / 25) = Ok slab_depth ->
  let d := IZR slab_depth - cover - 6 in
  (d = 0 ->
   section_design span dead_load live_load fck fy cover
     = Raise ZeroDivisionError) /\
  (d <> 0 ->
   exists l : Loc.t R,
     section_design span dead_load live_load fck fy cover = Ok l /\
     Loc.slab_depth l = slab_depth /\ Loc.effective_depth l = d).
Proof.
  intros Hfck Hfy Hsd d. unfold section_design.
  rewrite exact_bending_moment. cbn [bind].
  rewrite exact_estimate_depth. cbn [bind]. rewrite Hsd. cbn [bind].
  rewrite exact_effective_depth_of. cbn [bind]. fold d.
  destruct (exact_int_of_float d) as [n ->]. cbn [bind].
  split; intros Hd.
  - rewrite exact_k_value_zero by assumption. reflexivity.
  - rewrite exact_k_value by assumption. cbn [bind].
    set (K := _ / _).
    assert (Hz : exists z, lever_arm d K = Ok z).
    { destruct (Rle_dec K 0.156).
      - rewrite exact_lever_arm_below by assumption. eauto.
      - rewrite exact_lever_arm_above by lra. eauto. }
    destruct Hz as [z Ez]. rewrite Ez. cbn [bind].
    destruct (exact_lever_arm_sign d K z Ez) as (_ & _ & Hz).
    rewrite exact_required_steel by auto. cbn [bind].
    rewrite exact_minimum_steel. cbn [bind].
    eexists. split; [reflexivity|]. cbn. auto.
Qed.

(** What steps 3 and 9 give for a positive span. *)
Lemma exact_section_steel (span dead_load live_load : R) (fck fy : Z)
    (cover : R) (l : Loc.t R) :
  0 < span ->
  section_design span dead_load live_load fck fy cover = Ok l ->
  (25 <= Loc.slab_depth l)%Z /\
  Loc.As_min l = 0.0013 * 1000 * IZR (Loc.slab_depth l) /\
  Loc.As_min l <= Loc.As_provided l.
Proof.
  intros Hspan Hl. apply section_design_Ok in Hl.
  destruct Hl as (_ & _ & He & Hr & _ & _ & _ & _ & _ & Hmin & Hmax).
  rewrite exact_estimate_depth in He. injection He as He.
  destruct (exact_round_up_depth (span * 1000 / 25)) as (n & En & Hn1 & Hn2).
  rewrite <- He, En in Hr. injection Hr as Hr.
  assert (Hpos : (0 < n)%Z) by (apply lt_IZR; lra).
  rewrite exact_minimum_steel in Hmin. injection Hmin as Hmin.
  rewrite exact_fmax in Hmax.
  split; [lia|]. split; [now symmetry|]. rewrite Hmax. apply Rmax_r.
Qed.

(** With a positive provided area every bar is evaluated, and one option is
    selected. *)
Lemma exact_options_selected (As_provided As_required : R) :
  0 < As_provided ->
  exists (options : list (option_ R)) (selected : option_ R),
    evaluate_bars As_provided As_required = Ok options /\
    map bar_size options = keys (BAR_AREAS (F := R)) /\
    List.length options = 6%nat /\
    select_reinforcement options = Ok selected.
Proof.
  intros Hp.
  destruct (exact_evaluate_bars As_provided As_required Hp)
    as (options & E & Hk & Hlen).
  destruct (select_reinforcement_nonempty options) as [selected Es].
  { intros ->. discriminate Hlen. }
  exists options, selected. auto.
Qed.

Lemma exact_modification_factor (As_provided As_required moment d : R)
    (fy : Z) :
  d <> 0 -> 0 <= moment ->
  exists mf : R,
    modification_factor As_provided As_required moment d fy = Ok mf.
Proof.
  intros Hd Hm. unfold modification_factor. rewrite !(exact_lit_int 0).
  destruct (fgt As_provided 0) eqn:Ep; cbn [andb]; [|eauto].
  destruct (fgt As_required 0) eqn:Er; [|eauto].
  apply exact_fgt in Ep.
  rewrite exact_truediv; [|exact_lits; cbn [fmul Exact.py_float]; lra].
  cbn [bind]. rewrite exact_square. cbn [bind].
  assert (Hdd : 0 < d * d).
  { destruct (Rlt_dec 0 d); [|assert (d < 0) by lra]; nra. }
  rewrite exact_truediv;
    [|unfold b; exact_lits; cbn [fmul Exact.py_float]; nra].
  cbn [bind].
  assert (Hq : 0 <= fmul moment (lit 1000000 0) / fmul (lit b 0) (fmul d d)).
  { unfold b. exact_lits. cbn [fmul Exact.py_float].
    apply Rmult_le_pos; [lra|]. apply Rlt_le, Rinv_0_lt_compat. nra. }
  rewrite exact_truediv.
  - cbn [bind]. eauto.
  - exact_lits. cbn [fmul fadd Exact.py_float].
    unfold b in *. exact_lits. cbn [fmul Exact.py_float] in Hq.
    set (q := _ / (_ * (d * d))) in *. lra.
Qed.

Lemma exact_actual_span_depth_of (span : R) (slab_depth : Z) :
  (slab_depth <> 0)%Z ->
  exists a : R, actual_span_depth_of span slab_depth = Ok a.
Proof.
  intros Hs. unfold actual_span_depth_of. rewrite exact_float_of_int.
  cbn [bind]. rewrite exact_truediv; [eauto | now apply not_0_IZR].
Qed.

Lemma exact_is_integral_fraction (y : R) : 0 < y < 1 -> is_integral y = false.
Proof.
  intros Hy. unfold is_integral. cbn [floorZ Exact.py_float].
  rewrite (exact_floor_unique y 0) by lra.
  rewrite exact_lit_int. apply exact_feq_false. lra.
Qed.

Lemma exact_float_pow_negative (x y : R) :
  x < 0 -> 0 < y < 1 -> float_pow x y = Ok (@Complex R).
Proof.
  intros Hx Hy. unfold float_pow. rewrite !exact_lit_int.
  assert (E1 : feq y 0 = false) by (apply exact_feq_false; lra).
  assert (E2 : feq x 0 = false) by (apply exact_feq_false; lra).
  assert (E3 : flt x 0 = true) by (now apply exact_flt).
  rewrite E1. cbn [is_nan is_inf Exact.py_float]. rewrite E2, E3.
  rewrite exact_is_integral_fraction by assumption. reflexivity.
Qed.

Lemma exact_float_pow_positive (x y : R) :
  0 < x -> 0 < y < 1 -> exists v : R, float_pow x y = Ok (Float v).
Proof.
  intros Hx Hy. unfold float_pow. rewrite !exact_lit_int.
  assert (E1 : feq y 0 = false) by (apply exact_feq_false; lra).
  assert (E2 : feq x 0 = false) by (apply exact_feq_false; lra).
  assert (E3 : flt x 0 = false) by (apply exact_flt_false; lra).
  rewrite E1. cbn [is_nan is_inf Exact.py_float]. rewrite E2, E3.
  cbn [andb]. destruct (feq x 1); eauto.
Qed.

Lemma exact_concrete_shear_strength_of (As_provided d : R) (fck : Z) :
  0 < As_provided -> (0 < fck)%Z ->
  (0 < d -> exists vc : R,
      concrete_shear_strength_of As_provided d fck = Ok vc) /\
  (d < 0 -> concrete_shear_strength_of As_provided d fck = Raise TypeError).
Proof.
  intros Hp Hf. unfold concrete_shear_strength_of.
  rewrite (exact_lit_int 0). apply exact_fgt in Hp as Eg. rewrite Eg.
  assert (Hfck : 0 <= lit (F := R) fck 0).
  { rewrite exact_lit_int. apply IZR_le. lia. }
  assert (H3 : truediv (lit (F := R) 1 0) (lit 3 0) = Ok (1 / 3)).
  { rewrite exact_truediv; exact_lits; [f_equal; lra | lra]. }
  assert (H4 : truediv (lit (F := R) 1 0) (lit 4 0) = Ok (1 / 4)).
  { rewrite exact_truediv; exact_lits; [f_equal; lra | lra]. }
  assert (H125 : lit (F := R) 125 2 <> 0) by (exact_lits; lra).
  assert (Hsc : forall n, ntruediv n (lit (F := R) 125 2) =
                          Ok (match n with
                              | Float x => Float (x / lit 125 2)
                              | Complex => Complex
                              end)).
  { intros n. unfold ntruediv. rewrite exact_lit_int.
    apply exact_feq_false in H125. rewrite H125. now destruct n. }
  split; intros Hd.
  - assert (Hbd : fmul (lit b 0) d <> 0).
    { unfold b. exact_lits. cbn [fmul Exact.py_float]. lra. }
    rewrite exact_truediv by assumption. cbn [bind]. rewrite H3. cbn [bind].
    destruct (exact_float_pow_positive
                (fmul (lit 100 0) As_provided / fmul (lit b 0) d) (1 / 3))
      as [p ->]; [|lra|].
    { unfold b. exact_lits. cbn [fmul Exact.py_float].
      apply Rmult_lt_0_compat; [lra|]. apply Rinv_0_lt_compat. lra. }
    cbn [bind]. rewrite exact_truediv by lra. cbn [bind].
    rewrite H4. cbn [bind].
    destruct (exact_float_pow_positive (lit 400 0 / d) (1 / 4)) as [q ->];
      [|lra|].
    { exact_lits. apply Rmult_lt_0_compat; [lra|].
      apply Rinv_0_lt_compat. lra. }
    cbn [bind]. rewrite Hsc. cbn [bind scale nmul].
    rewrite exact_math_sqrt by assumption. cbn [bind nmin]. eauto.
  - assert (Hbd : fmul (lit b 0) d <> 0).
    { unfold b. exact_lits. cbn [fmul Exact.py_float]. lra. }
    rewrite exact_truediv by assumption. cbn [bind]. rewrite H3. cbn [bind].
    rewrite exact_float_pow_negative; [|  |lra].
    2:{ unfold b. exact_lits. cbn [fmul Exact.py_float].
        assert (0 < 100 / 1 * As_provided / - (1000 / 1 * d)).
        { apply Rmult_lt_0_compat; [lra|]. apply Rinv_0_lt_compat. lra. }
        replace (100 / 1 * As_provided / (1000 / 1 * d))
          with (- (100 / 1 * As_provided / - (1000 / 1 * d))) by (field; lra).
        lra. }
    cbn [bind]. rewrite exact_truediv by lra. cbn [bind].
    rewrite H4. cbn [bind].
    rewrite exact_float_pow_negative; [| |lra].
    2:{ exact_lits.
        assert (0 < 400 / 1 / - d).
        { apply Rmult_lt_0_compat; [lra|]. apply Rinv_0_lt_compat. lra. }
        replace (400 / 1 / d) with (- (400 / 1 / - d)) by (field; lra).
        lra. }
    cbn [bind]. rewrite Hsc. cbn [bind scale nmul].
    rewrite exact_math_sqrt by assumption. reflexivity.
Qed.

Lemma exact_round_up_depth_value (estimated_depth : R) (n : Z) :
  IZR n - 1 < estimated_depth / 25 <= IZR n ->
  round_up_depth estimated_depth = Ok (n * 25)%Z.
Proof.
  intros [H1 H2].
  destruct (exact_round_up_depth estimated_depth) as (m & -> & H3 & H4).
  assert (m < n + 1)%Z by (apply lt_IZR; rewrite plus_IZR; lra).
  assert (n < m + 1)%Z by (apply lt_IZR; rewrite plus_IZR; lra).
  do 2 f_equal. lia.
Qed.

(** What the call does after steps 1 to 9, by the sign of the effective
    depth. *)
Lemma exact_calculate_slab_design (span dead_load live_load : R)
    (concrete_grade steel_grade : string) (cover : R) (fck fy : Z)
    (l : Loc.t R) :
  0 < span -> 0 <= dead_load -> 0 <= live_load ->
  material_properties (F := R) concrete_grade steel_grade = Ok (fck, fy) ->
  section_design span dead_load live_load fck fy cover = Ok l ->
  (0 < Loc.effective_depth l ->
   exists r : Res.t R,
     calculate_slab_design span dead_load live_load concrete_grade
       steel_grade cover = Ok r) /\
  (Loc.effective_depth l < 0 ->
   calculate_slab_design span dead_load live_load concrete_grade
     steel_grade cover = Raise TypeError).
Proof.
  intros Hspan Hdl Hll Em El.
  destruct (material_properties_Ok _ _ _ _ Em) as [Hfck Hfy].
  destruct (exact_section_steel _ _ _ _ _ _ _ Hspan El) as (Hsd & Hmin & Hle).
  assert (Hp : 0 < Loc.As_provided l).
  { apply IZR_le in Hsd. lra. }
  destruct (exact_options_selected (Loc.As_provided l) (Loc.As_required l) Hp)
    as (options & sel & Eo & _ & _ & Es).
  pose proof (section_design_Ok _ _ _ _ _ _ _ El)
    as (Hw & HM & _ & _ & _ & _ & _ & _ & _ & _ & _).
  rewrite exact_bending_moment in HM. injection HM as HM.
  assert (Hmom : 0 <= Loc.moment l).
  { rewrite <- HM, Hw, exact_load_combination.
    assert (0 <= span * span) by nra.
    assert (0 <= 1.4 * dead_load + 1.6 * live_load) by lra.
    apply Rmult_le_pos; [|lra]. now apply Rmult_le_pos. }
  assert (Hpre :
            (exists mf a,
              modification_factor (Loc.As_provided l) (Loc.As_required l)
                (Loc.moment l) (Loc.effective_depth l) fy = Ok mf /\
              actual_span_depth_of span (Loc.slab_depth l) = Ok a /\
              truediv (fmul (Loc.ultimate_load l) span) (lit 2 0)
                = Ok (Loc.ultimate_load l * span / 2))
            \/ Loc.effective_depth l = 0).
  { destruct (Req_dec_T (Loc.effective_depth l) 0) as [Hz|Hnz]; [now right|].
    left.
    destruct (exact_modification_factor (Loc.As_provided l)
                (Loc.As_required l) (Loc.moment l) (Loc.effective_depth l)
                fy Hnz Hmom) as [mf Emf].
    destruct (exact_actual_span_depth_of span (Loc.slab_depth l)) as [a Ea];
      [lia|].
    exists mf, a. repeat split; try assumption.
    rewrite exact_truediv by (exact_lits; lra).
    f_equal. exact_lits. cbn [fmul Exact.py_float]. lra. }
  destruct (exact_concrete_shear_strength_of (Loc.As_provided l)
              (Loc.effective_depth l) fck Hp) as [Hpos Hneg]; [lia|].
  split; intros Hd.
  - destruct Hpre as [(mf & a & Emf & Ea & EV)|Hz]; [|lra].
    destruct (Hpos Hd) as [vc Evc].
    unfold calculate_slab_design.
    rewrite Em; cbn [bind]. rewrite El; cbn [bind]. rewrite Eo; cbn [bind].
    rewrite Es; cbn [bind]. rewrite Emf; cbn [bind]. rewrite Ea; cbn [bind].
    rewrite EV; cbn [bind]. rewrite Evc; cbn [bind].
    rewrite exact_truediv; [cbn [bind]; eauto|].
    unfold b. exact_lits. cbn [fmul Exact.py_float]. lra.
  - destruct Hpre as [(mf & a & Emf & Ea & EV)|Hz]; [|lra].
    unfold calculate_slab_design.
    rewrite Em; cbn [bind]. rewrite El; cbn [bind]. rewrite Eo; cbn [bind].
    rewrite Es; cbn [bind]. rewrite Emf; cbn [bind]. rewrite Ea; cbn [bind].
    rewrite EV; cbn [bind]. rewrite (Hneg Hd). reflexivity.
Qed.

(** C2, as amended.  In exact arithmetic, for a positive span, loads that
    are not negative and known grades, with d = slab_depth - cover - 6: when
    d is zero the call raises ZeroDivisionError (the division of step 5);
    when d is negative steps 1 to 11 are computed and the call raises
    TypeError (the comparison of a complex power in the shear step).  No
    results are returned in either case. *)
Theorem nonpositive_effective_depth_raises :
  forall (span dead_load live_load : R) (concrete_grade steel_grade : string)
         (cover : R) (fck fy slab_depth : Z),
    0 < span -> 0 <= dead_load -> 0 <= live_load ->
    material_properties (F := R) concrete_grade steel_grade = Ok (fck, fy) ->
    round_up_depth (span * 1000 / 25) = Ok slab_depth ->
    let d := IZR slab_depth - cover - 6 in
    (d = 0 ->
     calculate_slab_design span dead_load live_load concrete_grade
       steel_grade cover = Raise ZeroDivisionError) /\
    (d < 0 ->
     calculate_slab_design span dead_load live_load concrete_grade
       steel_grade cover = Raise TypeError).
Proof.
  intros span dead_load live_load cg sg cover fck fy sd Hspan Hdl Hll Em Hsd d.
  destruct (material_properties_Ok _ _ _ _ Em) as [Hfck Hfy].
  destruct (exact_section_design span dead_load live_load fck fy cover sd)
    as [Hzero Hnz]; [lia | lia | exact Hsd |]. fold d in Hzero, Hnz.
  split; intros Hd.
  - apply (calculate_slab_design_Raise _ _ _ _ _ _ fck fy); auto.
  - destruct Hnz as (l & El & _ & Ed); [lra|].
    apply (exact_calculate_slab_design _ _ _ _ _ _ _ _ l Hspan Hdl Hll Em El).
    rewrite Ed. exact Hd.
Qed.

End ExactDesign.

(** ** The order of binary64 *)

Section Order.
Local Open Scope Z_scope.

Lemma digits2_pos_bound (m : positive) : Zpos m < 2 ^ Zpos (digits2_pos m).
Proof.
  induction m as [m IH|m IH|]; cbn [digits2_pos].
  - rewrite Pos2Z.inj_succ, Z.pow_succ_r by lia. lia.
  - rewrite Pos2Z.inj_succ, Z.pow_succ_r by lia. lia.
  - reflexivity.
Qed.

Lemma bounded_finite (m : positive) (e : Z) :
  SpecFloat.bounded FloatOps.prec FloatOps.emax m e = true ->
  0 < Zpos m < 2 ^ 53 /\ -1074 <= e <= 971.
Proof.
  unfold SpecFloat.bounded, canonical_mantissa, fexp, SpecFloat.emin,
    FloatOps.prec, FloatOps.emax.
  intros H. apply andb_true_iff in H. destruct H as [H1 H2].
  apply Z.eqb_eq in H1. apply Z.leb_le in H2.
  pose proof (digits2_pos_bound m) as Hm.
  assert (Hd : Zpos (digits2_pos m) <= 53) by lia.
  assert (2 ^ Zpos (digits2_pos m) <= 2 ^ 53)
    by (apply Z.pow_le_mono_r; lia).
  lia.
Qed.

Lemma is_nan_spec (x : float) :
  PrimFloat.is_nan x = false <-> Prim2SF x <> S754_nan.
Proof.
  unfold PrimFloat.is_nan. rewrite eqb_spec.
  pose proof (Prim2SF_valid x) as Hv.
  destruct (Prim2SF x) as [s|s| |s m e]; cbn.
  - split; [discriminate | reflexivity].
  - destruct s; split; (discriminate || reflexivity).
  - split; [discriminate | intros H; now elim H].
  - unfold SFeqb, SFcompare. rewrite Z.compare_refl, Pos.compare_cont_refl.
    destruct s; split; (discriminate || reflexivity).
Qed.

Lemma compare_rank (x y : float) :
  PrimFloat.is_nan x = false -> PrimFloat.is_nan y = false ->
  SFcompare (Prim2SF x) (Prim2SF y) = Some (rank x ?= rank y).
Proof.
  intros Hx Hy. apply is_nan_spec in Hx, Hy. unfold rank.
  pose proof (Prim2SF_valid x) as Vx. pose proof (Prim2SF_valid y) as Vy.
  assert (P70 : 2 ^ 70 = 2 ^ 17 * 2 ^ 53) by reflexivity.
  assert (P17 : 2 ^ 17 = 131072) by reflexivity.
  assert (P53 : 0 < 2 ^ 53) by reflexivity.
  destruct (Prim2SF x) as [sx|sx| |sx mx ex];
    destruct (Prim2SF y) as [sy|sy| |sy my ey]; try contradiction;
    cbn [valid_binary] in Vx, Vy;
    try (apply bounded_finite in Vx); try (apply bounded_finite in Vy);
    cbn [SFcompare]; rewrite ?P70, ?P17; set (P := 2 ^ 53) in *;
    try (destruct sx); try (destruct sy); cbv zeta; f_equal; symmetry;
    try (apply Z.compare_eq_iff; lia);
    try (apply Z.compare_lt_iff; nia);
    try (apply Z.compare_gt_iff; nia).
  - (* both negative *)
    destruct (Z.compare_spec ex ey) as [->|H|H].
    + change (PosDef.Pos.compare_cont Eq mx my) with (Pos.compare mx my).
      rewrite Pos2Z.inj_compare.
      destruct (Z.compare_spec (Zpos mx) (Zpos my)); cbn [CompOpp];
        [apply Z.compare_eq_iff | apply Z.compare_gt_iff
         | apply Z.compare_lt_iff]; lia.
    + apply Z.compare_gt_iff. nia.
    + apply Z.compare_lt_iff. nia.
  - (* both positive *)
    destruct (Z.compare_spec ex ey) as [->|H|H].
    + change (PosDef.Pos.compare_cont Eq mx my) with (Pos.compare mx my).
      rewrite Pos2Z.inj_compare.
      destruct (Z.compare_spec (Zpos mx) (Zpos my));
        [apply Z.compare_eq_iff | apply Z.compare_lt_iff
         | apply Z.compare_gt_iff]; lia.
    + apply Z.compare_lt_iff. nia.
    + apply Z.compare_gt_iff. nia.
Qed.

Lemma ltb_rank (x y : float) :
  PrimFloat.is_nan x = false -> PrimFloat.is_nan y = false ->
  PrimFloat.ltb x y = (rank x <? rank y).
Proof.
  intros Hx Hy. rewrite ltb_spec. unfold SFltb.
  rewrite (compare_rank x y Hx Hy). unfold Z.ltb.
  now destruct (rank x ?= rank y).
Qed.

Lemma leb_rank (x y : float) :
  PrimFloat.is_nan x = false -> PrimFloat.is_nan y = false ->
  PrimFloat.leb x y = (rank x <=? rank y).
Proof.
  intros Hx Hy. rewrite leb_spec. unfold SFleb.
  rewrite (compare_rank x y Hx Hy). unfold Z.leb.
  now destruct (rank x ?= rank y).
Qed.

(** *** The builtins [min] and [max] with a key *)

Section BestBy.
Context {F A : Type} (better : F -> F -> bool) (key : A -> F) (r : A -> Z).

Lemma fold_best_first_least (rest done : list A) (best : A) :
  (forall a b, In a (done ++ rest) -> In b (done ++ rest) ->
               better (key a) (key b) = (r a <? r b)) ->
  first_least r done best ->
  first_least r (done ++ rest)
    (fold_left (fun best item =>
                  if better (key item) (key best) then item else best)
               rest best).
Proof.
  revert done best. induction rest as [|x rest IH]; intros done best Hb Hf.
  - cbn. now rewrite app_nil_r.
  - cbn [fold_left].
    replace (done ++ x :: rest)%list with ((done ++ [x]) ++ rest)%list in *
      by (now rewrite <- app_assoc).
    apply IH; [exact Hb|].
    destruct Hf as (before & after & Hd & Hle & Hlt).
    assert (Hbest : In best done).
    { rewrite Hd. apply in_or_app. right. now left. }
    rewrite Hb.
    2:{ apply in_or_app. left. apply in_or_app. right. now left. }
    2:{ apply in_or_app. left. apply in_or_app. now left. }
    destruct (r x <? r best) eqn:E.
    + apply Z.ltb_lt in E. exists done, []. split; [reflexivity|].
      split.
      * intros o Ho. apply in_app_or in Ho. destruct Ho as [Ho|[<-|[]]].
        -- specialize (Hle o Ho). lia.
        -- lia.
      * intros o Ho. specialize (Hle o Ho). lia.
    + apply Z.ltb_ge in E. exists before, (after ++ [x])%list.
      split; [rewrite Hd, <- app_assoc; reflexivity|].
      split; [|exact Hlt].
      intros o Ho. apply in_app_or in Ho. destruct Ho as [Ho|[<-|[]]].
      * now apply Hle.
      * exact E.
Qed.

Lemma best_by_first_least (xs : list A) :
  xs <> [] ->
  (forall a b, In a xs -> In b xs ->
               better (key a) (key b) = (r a <? r b)) ->
  exists s, best_by better key xs = Ok s /\ first_least r xs s.
Proof.
  destruct xs as [|x rest]; [contradiction|]. intros _ Hb.
  eexists. split; [reflexivity|].
  apply (fold_best_first_least rest [x] x); [exact Hb|].
  exists [], []. split; [reflexivity|]. split.
  - intros o [<-|[]]. lia.
  - intros o [].
Qed.

End BestBy.

Lemma filter_split {A : Type} (f : A -> bool) (l l1 l2 : list A) (x : A) :
  filter f l = (l1 ++ x :: l2)%list ->
  exists l1' l2',
    l = (l1' ++ x :: l2')%list /\ filter f l1' = l1 /\ filter f l2' = l2.
Proof.
  revert l1. induction l as [|a l IH]; intros l1 H; cbn in H.
  - destruct l1; discriminate.
  - destruct (f a) eqn:E.
    + destruct l1 as [|b l1]; cbn in H.
      * injection H as -> H. exists [], l. cbn. auto.
      * injection H as -> H. destruct (IH l1 H) as (l1' & l2' & -> & H1 & H2).
        exists (b :: l1'), l2'. cbn. rewrite E, H1. auto.
    + destruct (IH l1 H) as (l1' & l2' & -> & H1 & H2).
      exists (a :: l1'), l2'. cbn. rewrite E. auto.
Qed.

Lemma multiple_of_25_cases (s : Z) :
  75 <= s <= 300 -> (25 | s) ->
  s = 75 \/ s = 100 \/ s = 125 \/ s = 150 \/ s = 175 \/ s = 200 \/
  s = 225 \/ s = 250 \/ s = 275 \/ s = 300.
Proof. intros Hs [k ->]. lia. Qed.

Lemma binary64_BAR_AREAS :
  BAR_AREAS (F := float) =
  [ ("Y8", 50.3%float); ("Y10", 78.5%float); ("Y12", 113.1%float);
    ("Y16", 201.1%float); ("Y20", 314.2%float); ("Y25", 490.9%float) ]%string.
Proof. vm_compute. reflexivity. Qed.

Lemma no_nan_table :
  forallb no_nan_at [75; 100; 125; 150; 175; 200; 225; 250; 275; 300] = true.
Proof. vm_compute. reflexivity. Qed.

Lemma binary64_evaluated_not_nan (As_provided As_required : float)
    (o : option_ float) :
  evaluated As_provided As_required o ->
  PrimFloat.is_nan (bar_area o) = false /\
  PrimFloat.is_nan (As_actual o) = false.
Proof.
  intros (Hin & raw & a & _ & _ & Hs & Hd & Ha & Hr & _).
  pose proof no_nan_table as T. rewrite forallb_forall in T.
  assert (Hsp : In (spacing o)
                  [75; 100; 125; 150; 175; 200; 225; 250; 275; 300]).
  { destruct (multiple_of_25_cases _ Hs Hd)
      as [E|[E|[E|[E|[E|[E|[E|[E|[E|E]]]]]]]]]; rewrite E; cbn; tauto. }
  specialize (T _ Hsp). unfold no_nan_at in T. rewrite forallb_forall in T.
  specialize (T _ Hin). cbn [snd] in T. unfold stored_area in T.
  rewrite Ha in T. cbn [bind] in T. rewrite <- Hr in T.
  apply andb_true_iff in T. destruct T as [T1 T2].
  apply negb_true_iff in T1, T2. auto.
Qed.

Lemma rounding_keeps_order_table : rounding_keeps_order = true.
Proof. vm_compute. reflexivity. Qed.

Lemma area_pairs_order (p q : float * float) :
  In p area_pairs -> In q area_pairs ->
  PrimFloat.ltb (snd p) (snd q) = PrimFloat.ltb (fst p) (fst q) /\
  PrimFloat.leb (snd p) (snd q) = PrimFloat.leb (fst p) (fst q).
Proof.
  intros Hp Hq. pose proof rounding_keeps_order_table as T.
  unfold rounding_keeps_order in T. rewrite forallb_forall in T.
  specialize (T p Hp). rewrite forallb_forall in T. specialize (T q Hq).
  apply andb_true_iff in T. destruct T as [T1 T2].
  split; now apply Bool.eqb_prop.
Qed.

Lemma binary64_evaluated_pair (As_provided As_required : float)
    (o : option_ float) :
  evaluated As_provided As_required o ->
  exists a : float,
    actual_area (bar_area o) (spacing o) = Ok a /\
    As_actual o = round a 1 /\
    adequate o = fge a As_required /\
    In (a, As_actual o) area_pairs.
Proof.
  intros (Hin & raw & a & _ & _ & Hs & Hd & Ha & Hr & Had).
  exists a. split; [exact Ha|]. split; [exact Hr|]. split; [exact Had|].
  unfold area_pairs. apply in_flat_map.
  exists (bar_size o, bar_area o). split; [exact Hin|]. cbn [snd].
  apply in_flat_map. exists (spacing o). split.
  - unfold practical_spacings.
    destruct (multiple_of_25_cases _ Hs Hd)
      as [E|[E|[E|[E|[E|[E|[E|[E|[E|E]]]]]]]]]; rewrite E; cbn; tauto.
  - unfold actual_area. rewrite Ha, Hr. now left.
Qed.

End Order.

(** ** The selection (C5) *)

Section Selection.
Local Open Scope float_scope.

Lemma selection_rule_general (options : list (option_ float)) :
  (forall o, In o options ->
             PrimFloat.is_nan (bar_area o) = false /\
             PrimFloat.is_nan (As_actual o) = false) ->
  ((exists o, In o options /\ adequate o = true) ->
   exists selected before after,
     select_reinforcement options = Ok selected /\
     adequate selected = true /\
     options = (before ++ selected :: after)%list /\
     (forall o, In o options -> adequate o = true ->
                (bar_area selected <=? bar_area o) = true) /\
     (forall o, In o before -> adequate o = true ->
                (bar_area selected <? bar_area o) = true)) /\
  ((forall o, In o options -> adequate o = false) -> options <> [] ->
   exists selected before after,
     select_reinforcement options = Ok selected /\
     options = (before ++ selected :: after)%list /\
     (forall o, In o options ->
                (As_actual o <=? As_actual selected) = true) /\
     (forall o, In o before ->
                (As_actual o <? As_actual selected) = true)).
Proof.
  intros Hnan. split.
  - intros (o0 & Hin0 & Had0).
    unfold select_reinforcement.
    assert (Hf0 : In o0 (filter adequate options))
      by (apply filter_In; auto).
    destruct (filter adequate options) as [|x f] eqn:Ef; [contradiction|].
    clear Hf0. set (fl := x :: f) in *.
    assert (Hfl : forall o, In o fl <-> In o options /\ adequate o = true).
    { intros o. rewrite <- Ef. apply filter_In. }
    destruct (best_by_first_least PrimFloat.ltb bar_area
                (fun o => rank (bar_area o)) fl)
      as (s & Es & fb & fa & Hsplit & Hle & Hlt).
    { discriminate. }
    { intros a c Ha Hc. apply Hfl in Ha, Hc.
      apply ltb_rank; now apply Hnan. }
    rewrite Hsplit in Ef.
    destruct (filter_split _ _ _ _ _ Ef) as (before & after & Ho & Hb & _).
    assert (Hs : In s fl).
    { rewrite Hsplit. apply in_or_app. right. now left. }
    apply Hfl in Hs. destruct Hs as [Hs1 Hs2].
    exists s, before, after. unfold min_by. cbn [flt Binary64.py_float].
    split; [exact Es|]. split; [exact Hs2|]. split; [exact Ho|]. split.
    + intros o Hin Had.
      rewrite leb_rank by (now apply Hnan). apply Z.leb_le.
      apply (Hle o). apply Hfl. auto.
    + intros o Hin Had.
      rewrite ltb_rank by (apply Hnan; auto; rewrite Ho; apply in_or_app; auto).
      apply Z.ltb_lt. apply (Hlt o). rewrite <- Hb. apply filter_In. auto.
  - intros Hnone Hne. unfold select_reinforcement.
    assert (Ef : filter adequate options = []).
    { destruct (filter adequate options) as [|x f] eqn:Ef; [reflexivity|].
      assert (Hx : In x (filter adequate options)) by (rewrite Ef; now left).
      apply filter_In in Hx. destruct Hx as [Hx1 Hx2].
      rewrite (Hnone x Hx1) in Hx2. discriminate. }
    rewrite Ef.
    destruct (best_by_first_least (fun x y => PrimFloat.ltb y x) As_actual
                (fun o => (- rank (As_actual o))%Z) options Hne)
      as (s & Es & before & after & Hsplit & Hle & Hlt).
    { intros a c Ha Hc. rewrite ltb_rank by (now apply Hnan).
      destruct (Z.ltb_spec (rank (As_actual c)) (rank (As_actual a)));
        symmetry; [apply Z.ltb_lt | apply Z.ltb_ge]; lia. }
    assert (Hs : In s options).
    { rewrite Hsplit. apply in_or_app. right. now left. }
    exists s, before, after. split; [exact Es|]. split; [exact Hsplit|]. split.
    + intros o Hin. rewrite leb_rank by (now apply Hnan). apply Z.leb_le.
      specialize (Hle o Hin). cbv beta in Hle. lia.
    + intros o Hin.
      rewrite ltb_rank by (apply Hnan; auto; rewrite Hsplit; apply in_or_app; auto).
      apply Z.ltb_lt. specialize (Hlt o Hin). cbv beta in Hlt. lia.
Qed.

Lemma scenario_A_evaluate_bars :
  evaluate_bars (F := float) 270.33266992234877 270.33266992234877
  = Ok scenario_A_options.
Proof. vm_compute. reflexivity. Qed.

Lemma scenario_heavy_evaluate_bars :
  evaluate_bars (F := float) 10296.725725342918 10296.725725342918
  = Ok scenario_heavy_options.
Proof. vm_compute. reflexivity. Qed.

(** C5.  On every list of options the loop produces on binary64: an option
    is adequate exactly when its unrounded actual area is at least the
    required area; if some option is adequate, the selected one is adequate,
    its bar area is least among the adequate ones and every adequate option
    before it in the list has a strictly larger bar area; if none is
    adequate (and the list is not empty), the actual area of the selected
    one is greatest and every option before it has a strictly smaller one,
    both for the recorded one-decimal areas the code compares and for the
    unrounded areas. *)
Theorem selection_rule :
  forall (As_provided As_required : float) (options : list (option_ float)),
    evaluate_bars As_provided As_required = Ok options ->
    (forall o, In o options ->
       exists a, actual_area (bar_area o) (spacing o) = Ok a /\
                 As_actual o = round a 1 /\
                 adequate o = fge a As_required) /\
    ((exists o, In o options /\ adequate o = true) ->
     exists selected before after,
       select_reinforcement options = Ok selected /\
       adequate selected = true /\
       options = (before ++ selected :: after)%list /\
       (forall o, In o options -> adequate o = true ->
                  (bar_area selected <=? bar_area o) = true) /\
       (forall o, In o before -> adequate o = true ->
                  (bar_area selected <? bar_area o) = true)) /\
    ((forall o, In o options -> adequate o = false) -> options <> [] ->
     exists selected before after a_selected,
       select_reinforcement options = Ok selected /\
       options = (before ++ selected :: after)%list /\
       actual_area (bar_area selected) (spacing selected) = Ok a_selected /\
       (forall o, In o options ->
          (As_actual o <=? As_actual selected) = true /\
          exists a, actual_area (bar_area o) (spacing o) = Ok a /\
                    (a <=? a_selected) = true) /\
       (forall o, In o before ->
          (As_actual o <? As_actual selected) = true /\
          exists a, actual_area (bar_area o) (spacing o) = Ok a /\
                    (a <? a_selected) = true)).
Proof.
  intros Ap Ar options H. apply evaluate_bars_Ok in H. destruct H as [Hev _].
  rewrite Forall_forall in Hev.
  assert (Hnan : forall o, In o options ->
                   PrimFloat.is_nan (bar_area o) = false /\
                   PrimFloat.is_nan (As_actual o) = false).
  { intros o Ho. apply (binary64_evaluated_not_nan Ap Ar). now apply Hev. }
  destruct (selection_rule_general options Hnan) as [Hsome Hnone].
  split; [|split].
  - intros o Hin.
    destruct (binary64_evaluated_pair _ _ _ (Hev o Hin))
      as (a & E1 & E2 & E3 & _).
    exists a. auto.
  - exact Hsome.
  - intros Hno Hne.
    destruct (Hnone Hno Hne)
      as (s & before & after & Es & Hsplit & Hle & Hlt).
    assert (Hs : In s options).
    { rewrite Hsplit. apply in_or_app. right. now left. }
    destruct (binary64_evaluated_pair _ _ _ (Hev s Hs))
      as (a_s & E1 & _ & _ & Hps).
    exists s, before, after, a_s.
    split; [exact Es|]. split; [exact Hsplit|]. split; [exact E1|]. split.
    + intros o Hin. split; [now apply Hle|].
      destruct (binary64_evaluated_pair _ _ _ (Hev o Hin))
        as (a & Ea & _ & _ & Hp).
      exists a. split; [exact Ea|].
      destruct (area_pairs_order _ _ Hp Hps) as [_ L]. cbn [fst snd] in L.
      rewrite <- L. now apply Hle.
    + intros o Hin. split; [now apply Hlt|].
      assert (Hin' : In o options).
      { rewrite Hsplit. apply in_or_app. now left. }
      destruct (binary64_evaluated_pair _ _ _ (Hev o Hin'))
        as (a & Ea & _ & _ & Hp).
      exists a. split; [exact Ea|].
      destruct (area_pairs_order _ _ Hp Hps) as [L _]. cbn [fst snd] in L.
      rewrite <- L. now apply Hlt.
Qed.

Lemma selection_rule_witness :
  (exists selected before after,
     select_reinforcement scenario_A_options = Ok selected /\
     adequate selected = true /\
     scenario_A_options = (before ++ selected :: after)%list /\
     (forall o, In o scenario_A_options -> adequate o = true ->
                (bar_area selected <=? bar_area o) = true) /\
     (forall o, In o before -> adequate o = true ->
                (bar_area selected <? bar_area o) = true)) /\
  (exists selected before after a_selected,
     select_reinforcement scenario_heavy_options = Ok selected /\
     scenario_heavy_options = (before ++ selected :: after)%list /\
     actual_area (bar_area selected) (spacing selected) = Ok a_selected /\
     (forall o, In o scenario_heavy_options ->
        (As_actual o <=? As_actual selected) = true /\
        exists a, actual_area (bar_area o) (spacing o) = Ok a /\
                  (a <=? a_selected) = true) /\
     (forall o, In o before ->
        (As_actual o <? As_actual selected) = true /\
        exists a, actual_area (bar_area o) (spacing o) = Ok a /\
                  (a <? a_selected) = true)).
Proof.
  split.
  - destruct (selection_rule _ _ _ scenario_A_evaluate_bars)
      as (_ & Hsome & _).
    apply Hsome. eexists. split; [left; reflexivity | reflexivity].
  - destruct (selection_rule _ _ _ scenario_heavy_evaluate_bars)
      as (_ & _ & Hnone).
    apply Hnone; [|discriminate].
    intros o Hin. cbn in Hin.
    destruct Hin as [E|[E|[E|[E|[E|[E|[]]]]]]]; subst o; reflexivity.
Defined.

Lemma options_are_evaluated_witness :
  Forall (evaluated 270.33266992234877 270.33266992234877)
    scenario_A_options.
Proof.
  apply (options_are_evaluated float Binary64.py_float
           270.33266992234877 270.33266992234877 scenario_A_options).
  vm_compute. reflexivity.
Defined.

End Selection.

(** ** Scenario A in exact arithmetic, and the witnesses *)

Section ExactScenario.
Local Open Scope R_scope.

Lemma exact_scenario_A_depth : round_up_depth (4 * 1000 / 25) = Ok 175%Z.
Proof. apply (exact_round_up_depth_value (4 * 1000 / 25) 7). lra. Qed.

Lemma exact_scenario_A_materials :
  material_properties (F := R) "C25" "460" = Ok (25, 460)%Z.
Proof. reflexivity. Qed.

Lemma exact_scenario_A :
  exists l : Loc.t R,
    section_design 4 3 2 25 460 25 = Ok l /\
    Loc.slab_depth l = 175%Z /\ Loc.effective_depth l = 144.
Proof.
  destruct (exact_section_design 4 3 2 25 460 25 175) as [_ H];
    [lia | lia | exact exact_scenario_A_depth |].
  destruct H as (l & El & Hs & Hd); [lra|].
  exists l. repeat split; [exact El | exact Hs | rewrite Hd; lra].
Qed.

(** C10, as amended.  For every real-valued input with a positive span and
    known grades on which steps 1 to 9 complete: the slab depth is at least
    25, so the minimum steel area is at least 32.5 and the provided area is
    positive; the guard of the loop holds, every division of the loop is
    defined, the list has one option per bar designation in table order
    (six), and one of them is selected. *)
Theorem six_options_evaluated :
  forall (span dead_load live_load : R) (concrete_grade steel_grade : string)
         (cover : R) (fck fy : Z) (l : Loc.t R),
    0 < span ->
    material_properties (F := R) concrete_grade steel_grade = Ok (fck, fy) ->
    section_design span dead_load live_load fck fy cover = Ok l ->
    (25 <= Loc.slab_depth l)%Z /\
    32.5 <= Loc.As_min l /\
    0 < Loc.As_provided l /\
    fgt (Loc.As_provided l) (lit 0 0) = true /\
    exists options : list (option_ R),
      evaluate_bars (Loc.As_provided l) (Loc.As_required l) = Ok options /\
      map bar_size options = keys (BAR_AREAS (F := R)) /\
      List.length options = 6%nat /\
      exists selected : option_ R,
        select_reinforcement options = Ok selected.
Proof.
  intros span dead_load live_load cg sg cover fck fy l Hspan _ Hl.
  destruct (exact_section_steel _ _ _ _ _ _ _ Hspan Hl) as (H25 & Hmin & Hle).
  assert (Hmin' : 32.5 <= Loc.As_min l).
  { rewrite Hmin. apply IZR_le in H25. lra. }
  assert (Hp : 0 < Loc.As_provided l) by lra.
  split; [exact H25|]. split; [exact Hmin'|]. split; [exact Hp|].
  split; [rewrite exact_lit_int; now apply exact_fgt|].
  destruct (exact_options_selected (Loc.As_provided l) (Loc.As_required l) Hp)
    as (options & selected & E & Hk & Hlen & Es).
  exists options. repeat split; try assumption. now exists selected.
Qed.

Lemma six_options_evaluated_witness :
  exists l : Loc.t R,
    section_design 4 3 2 25 460 25 = Ok l /\
    (25 <= Loc.slab_depth l)%Z /\
    32.5 <= Loc.As_min l /\
    0 < Loc.As_provided l /\
    fgt (Loc.As_provided l) (lit 0 0) = true /\
    exists options : list (option_ R),
      evaluate_bars (Loc.As_provided l) (Loc.As_required l) = Ok options /\
      map bar_size options = keys (BAR_AREAS (F := R)) /\
      List.length options = 6%nat /\
      exists selected : option_ R,
        select_reinforcement options = Ok selected.
Proof.
  destruct exact_scenario_A as (l & El & _).
  exists l. split; [exact El|].
  apply (six_options_evaluated 4 3 2 "C25" "460" 25 25 460 l);
    [lra | reflexivity | exact El].
Defined.

Lemma moment_strictly_monotone_witness :
  exists M : R,
    bending_moment (load_combination 3 2) 4 = Ok M /\
    (forall span' : R,
        4 < span' -> 0 < load_combination 3 2 ->
        exists M', bending_moment (load_combination 3 2) span' = Ok M' /\
                   M < M') /\
    (forall dead_load' : R,
        3 < dead_load' ->
        load_combination 3 2 < load_combination dead_load' 2 /\
        exists M', bending_moment (load_combination dead_load' 2) 4 = Ok M' /\
                   M < M') /\
    (forall live_load' : R,
        2 < live_load' ->
        load_combination 3 2 < load_combination 3 live_load' /\
        exists M', bending_moment (load_combination 3 live_load') 4 = Ok M' /\
                   M < M').
Proof. apply (moment_strictly_monotone 4 3 2); lra. Defined.

Lemma nonpositive_effective_depth_raises_witness :
  calculate_slab_design (F := R) (1 / 10) 3 2 "C25" "460" 19
    = Raise ZeroDivisionError /\
  calculate_slab_design (F := R) (1 / 10) 3 2 "C25" "460" 75
    = Raise TypeError.
Proof.
  assert (Hsd : round_up_depth (1 / 10 * 1000 / 25) = Ok 25%Z).
  { apply (exact_round_up_depth_value (1 / 10 * 1000 / 25) 1). lra. }
  assert (Hspan : 0 < 1 / 10) by lra.
  assert (Hdl : 0 <= 3) by lra.
  assert (Hll : 0 <= 2) by lra.
  split.
  - pose proof (nonpositive_effective_depth_raises (1 / 10) 3 2 "C25" "460"
                  19 25 460 25 Hspan Hdl Hll eq_refl Hsd) as H.
    cbv zeta in H. destruct H as [H _]. apply H. lra.
  - pose proof (nonpositive_effective_depth_raises (1 / 10) 3 2 "C25" "460"
                  75 25 460 25 Hspan Hdl Hll eq_refl Hsd) as H.
    cbv zeta in H. destruct H as [_ H]. apply H. lra.
Defined.

End ExactScenario.

(** ** Runs on binary64 that contradict the design document *)

Section Counterexamples.
Local Open Scope float_scope.

(** C2, counterexample.  On binary64, with span 0.1 and cover 19 the
    effective depth is zero and the call raises ZeroDivisionError; with
    cover 75 the effective depth is -56, K is computed as 0.000118 and the
    call raises TypeError in the shear step. *)
Lemma zero_effective_depth_ZeroDivisionError :
  (forall c_pow : float -> float -> float,
      calculate_slab_design (LM := Binary64.libm c_pow)
        0.1 3 2 "C25" "460" 19 = Raise ZeroDivisionError) /\
  (forall c_pow : float -> float -> float,
      calculate_slab_design (LM := Binary64.libm c_pow)
        0.1 3 2 "C25" "460" 75 = Raise TypeError) /\
  (exists l : Loc.t float,
      section_design 0.1 3 2 25 460 75 = Ok l /\
      Loc.effective_depth l = -56 /\
      Loc.K l = 0.00011798469387755104).
Proof.
  split; [|split].
  - intros c_pow. vm_compute. reflexivity.
  - intros c_pow. vm_compute. reflexivity.
  - eexists. split; [vm_compute; reflexivity|]. split; reflexivity.
Qed.

(** C4, counterexample.  With both loads zero the moment is 0 for span 1
    and for span 2; and raising the dead load from 0 to 1e-17 leaves the
    binary64 ultimate load unchanged. *)
Lemma moment_not_strictly_monotone :
  (exists l1 l2 : Loc.t float,
      section_design 1 0 0 25 460 25 = Ok l1 /\
      section_design 2 0 0 25 460 25 = Ok l2 /\
      (1 <? 2) = true /\
      Loc.moment l1 = 0 /\ Loc.moment l2 = 0 /\
      (Loc.moment l1 <? Loc.moment l2) = false) /\
  ((0 <? 1e-17) = true /\
   load_combination 0 2 = load_combination 1e-17 2 /\
   (load_combination 0 2 <? load_combination 1e-17 2) = false).
Proof.
  split.
  - do 2 eexists. split; [vm_compute; reflexivity|].
    split; [vm_compute; reflexivity|]. repeat split.
  - repeat split.
Qed.

(** C10, counterexample.  A NaN dead load with span 4 and known grades:
    steps 1 to 9 complete, the provided area is not greater than zero, the
    loop appends no option and the selection raises ValueError. *)
Lemma nan_load_empties_the_options :
  (forall c_pow : float -> float -> float,
      calculate_slab_design (LM := Binary64.libm c_pow)
        4 nan 2 "C25" "460" 25 = Raise ValueError) /\
  (exists l : Loc.t float,
      section_design 4 nan 2 25 460 25 = Ok l /\
      fgt (Loc.As_provided l) (lit 0 0) = false /\
      evaluate_bars (Loc.As_provided l) (Loc.As_required l) = Ok [] /\
      select_reinforcement (F := float) [] = Raise ValueError).
Proof.
  split.
  - intros c_pow. vm_compute. reflexivity.
  - eexists. split; [vm_compute; reflexivity|]. repeat split.
Qed.

End Counterexamples.

(** ** Threshold and minimum steel (C6, C7) *)

Section Threshold.
Local Open Scope R_scope.

Lemma exact_scenario_A_returns :
  exists r : Res.t R,
    calculate_slab_design 4 3 2 "C25" "460" 25 = Ok r.
Proof.
  destruct exact_scenario_A as (l & El & _ & Hd).
  apply (exact_calculate_slab_design 4 3 2 "C25" "460" 25 25 460 l);
    try lra; [reflexivity | exact El].
Qed.

(** C6.  For every real-valued input on which the call returns: the stored
    flag compression_reinforcement_needed is true exactly when K exceeds
    0.156; when K is at most 0.156 the argument of the square root is not
    negative and the lever arm is d(0.5 + sqrt(0.25 - K/1.134)) under the
    cap 0.95 d (Python's [min] of the two); when K exceeds 0.156 the lever
    arm is 0.95 d.  K, d and z are the unrounded locals; the stored lever
    arm is z rounded to one decimal. *)
Theorem lever_arm_matches_threshold :
  forall (span dead_load live_load : R) (concrete_grade steel_grade : string)
         (cover : R) (r : Res.t R),
    calculate_slab_design span dead_load live_load concrete_grade
      steel_grade cover = Ok r ->
    exists (fck fy : Z) (l : Loc.t R),
      section_design span dead_load live_load fck fy cover = Ok l /\
      lever_arm (Loc.effective_depth l) (Loc.K l) = Ok (Loc.z l) /\
      (Res.compression_reinforcement_needed r = true <-> 0.156 < Loc.K l) /\
      (Loc.K l <= 0.156 ->
       0 <= 0.25 - Loc.K l / 1.134 /\
       Loc.z l =
       Rmin (Loc.effective_depth l *
             (0.5 + R_sqrt.sqrt (0.25 - Loc.K l / 1.134)))
            (0.95 * Loc.effective_depth l)) /\
      (0.156 < Loc.K l -> Loc.z l = 0.95 * Loc.effective_depth l) /\
      Res.lever_arm r = round (Loc.z l) 1.
Proof.
  intros span dead_load live_load cg sg cover r H.
  apply calculate_slab_design_Ok in H.
  destruct H as (fck & fy & l & _ & El & _ & _ & _ & _ & _ & _ & _ & Ec & Ez
                 & _).
  exists fck, fy, l. split; [exact El|].
  apply section_design_Ok in El.
  destruct El as (_ & _ & _ & _ & _ & _ & _ & Hz & _).
  split; [exact Hz|]. split; [|split; [|split]].
  - rewrite Ec. unfold fgt. rewrite exact_K_prime. apply exact_flt.
  - intros HK. split; [pose proof (sqrt_argument_positive _ HK); lra|].
    rewrite exact_lever_arm_below in Hz by exact HK. now injection Hz.
  - intros HK. rewrite exact_lever_arm_above in Hz by exact HK.
    now injection Hz.
  - exact Ez.
Qed.

Lemma lever_arm_matches_threshold_witness :
  exists r : Res.t R,
    calculate_slab_design 4 3 2 "C25" "460" 25 = Ok r /\
    exists (fck fy : Z) (l : Loc.t R),
      section_design 4 3 2 fck fy 25 = Ok l /\
      lever_arm (Loc.effective_depth l) (Loc.K l) = Ok (Loc.z l) /\
      (Res.compression_reinforcement_needed r = true <-> 0.156 < Loc.K l) /\
      (Loc.K l <= 0.156 ->
       0 <= 0.25 - Loc.K l / 1.134 /\
       Loc.z l =
       Rmin (Loc.effective_depth l *
             (0.5 + R_sqrt.sqrt (0.25 - Loc.K l / 1.134)))
            (0.95 * Loc.effective_depth l)) /\
      (0.156 < Loc.K l -> Loc.z l = 0.95 * Loc.effective_depth l) /\
      Res.lever_arm r = round (Loc.z l) 1.
Proof.
  destruct exact_scenario_A_returns as [r Er].
  exists r. split; [exact Er|].
  apply (lever_arm_matches_threshold 4 3 2 "C25" "460" 25 r). exact Er.
Defined.

(** On binary64, [max] returns a value not below its second argument when
    neither argument is NaN. *)
Lemma binary64_fmax_ge (x y : float) :
  PrimFloat.is_nan x = false -> PrimFloat.is_nan y = false ->
  PrimFloat.leb y (fmax x y) = true.
Proof.
  intros Hx Hy. unfold fmax, fgt. cbn [flt Binary64.py_float].
  rewrite (ltb_rank x y Hx Hy).
  destruct (Z.ltb_spec (rank x) (rank y)).
  - rewrite leb_rank by assumption. apply Z.leb_le. lia.
  - rewrite leb_rank by assumption. apply Z.leb_le. lia.
Qed.

(** C7.  Whenever steps 1 to 9 complete, the minimum steel area is
    0.0013 * 1000 * slab_depth and the provided area is Python's [max] of
    the required and the minimum area, hence not below the minimum: in
    exact arithmetic for every real-valued input, and on binary64 for every
    input whose two areas are not NaN. *)
Theorem provided_steel_is_max :
  (forall (span dead_load live_load : R) (fck fy : Z) (cover : R)
          (l : Loc.t R),
      section_design span dead_load live_load fck fy cover = Ok l ->
      Loc.As_min l = 0.0013 * 1000 * IZR (Loc.slab_depth l) /\
      Loc.As_provided l = Rmax (Loc.As_required l) (Loc.As_min l) /\
      Loc.As_min l <= Loc.As_provided l) /\
  (forall (span dead_load live_load : float) (fck fy : Z) (cover : float)
          (l : Loc.t float),
      section_design span dead_load live_load fck fy cover = Ok l ->
      Loc.As_min l =
        fmul (fmul (lit 13 4) (lit 1000 0)) (lit (Loc.slab_depth l) 0) /\
      Loc.As_provided l = fmax (Loc.As_required l) (Loc.As_min l) /\
      (PrimFloat.is_nan (Loc.As_required l) = false ->
       PrimFloat.is_nan (Loc.As_min l) = false ->
       PrimFloat.leb (Loc.As_min l) (Loc.As_provided l) = true)).
Proof.
  split.
  - intros span dead_load live_load fck fy cover l H.
    apply section_design_Ok in H.
    destruct H as (_ & _ & _ & _ & _ & _ & _ & _ & _ & Hmin & Hmax).
    rewrite exact_minimum_steel in Hmin. injection Hmin as Hmin.
    rewrite exact_fmax in Hmax.
    split; [now symmetry|]. split; [exact Hmax|].
    rewrite Hmax. apply Rmax_r.
  - intros span dead_load live_load fck fy cover l H.
    apply section_design_Ok in H.
    destruct H as (_ & _ & _ & _ & _ & _ & _ & _ & _ & Hmin & Hmax).
    unfold minimum_steel in Hmin. apply bind_Ok in Hmin.
    destruct Hmin as (h & Eh & Hmin). apply float_of_int_Ok in Eh. subst h.
    injection Hmin as Hmin.
    split; [now symmetry|]. split; [exact Hmax|].
    intros Hr Hm. rewrite Hmax. now apply binary64_fmax_ge.
Qed.

Lemma provided_steel_is_max_witness :
  (exists l : Loc.t R,
      section_design 4 3 2 25 460 25 = Ok l /\
      Loc.As_min l = 0.0013 * 1000 * IZR (Loc.slab_depth l) /\
      Loc.As_provided l = Rmax (Loc.As_required l) (Loc.As_min l) /\
      Loc.As_min l <= Loc.As_provided l) /\
  (exists l : Loc.t float,
      section_design 4%float 3%float 2%float 25 460 25%float = Ok l /\
      Loc.As_min l = 227.5%float /\
      Loc.As_provided l = 270.33266992234877%float /\
      PrimFloat.leb (Loc.As_min l) (Loc.As_provided l) = true).
Proof.
  split.
  - destruct exact_scenario_A as (l & El & _).
    exists l. split; [exact El|].
    apply (proj1 provided_steel_is_max 4 3 2 25%Z 460%Z 25 l). exact El.
  - eexists. split; [exact scenario_A_section|].
    destruct (proj2 provided_steel_is_max _ _ _ _ _ _ _ scenario_A_section)
      as (_ & _ & Hge).
    split; [reflexivity|]. split; [reflexivity|].
    apply Hge; reflexivity.
Defined.

End Threshold.

(** ** The recorded actual area *)

Section Recorded.
Local Open Scope float_scope.

(** The recorded area is the one-decimal rounding of the quotient: in
    scenario A the Y8 option records 287.4, while its bar area times 1000
    over its spacing 175 is 287.42857142857144. *)
Lemma recorded_actual_area_is_rounded :
  exists (o : option_ float) (a : float),
    evaluate_bars 270.33266992234877 270.33266992234877
      = Ok scenario_A_options /\
    In o scenario_A_options /\
    bar_size o = "Y8"%string /\ spacing o = 175%Z /\
    truediv (fmul (bar_area o) (lit 1000 0)) (lit (spacing o) 0) = Ok a /\
    a = 287.42857142857144 /\
    As_actual o = 287.4 /\
    (As_actual o =? a) = false.
Proof.
  eexists. eexists. split; [exact scenario_A_evaluate_bars|].
  split; [left; reflexivity|]. cbn [bar_size spacing bar_area As_actual].
  split; [reflexivity|]. split; [reflexivity|].
  split; [vm_compute; reflexivity|]. repeat split.
Qed.

End Recorded.

(** * Further properties of the calculator and of its page *)


Lemma calculate_slab_design_checks {F : Type} {PF : PyFloat F} {LM : Libm F}
    (span dead_load live_load : F) (concrete_grade steel_grade : string)
    (cover : F) (r : Res.t F) :
  calculate_slab_design span dead_load live_load concrete_grade steel_grade
    cover = Ok r ->
  exists (fck fy : Z) (l : Loc.t F) (mf a V vc v : F),
    material_properties (F := F) concrete_grade steel_grade = Ok (fck, fy) /\
    section_design span dead_load live_load fck fy cover = Ok l /\
    modification_factor (Loc.As_provided l) (Loc.As_required l)
      (Loc.moment l) (Loc.effective_depth l) fy = Ok mf /\
    actual_span_depth_of span (Loc.slab_depth l) = Ok a /\
    truediv (fmul (Loc.ultimate_load l) span) (lit 2 0) = Ok V /\
    concrete_shear_strength_of (Loc.As_provided l) (Loc.effective_depth l)
      fck = Ok vc /\
    truediv (fmul V (lit 1000 0)) (fmul (lit b 0) (Loc.effective_depth l))
      = Ok v /\
    Res.modification_factor r = round mf 2 /\
    Res.allowable_span_depth r = round (fmul (lit basic_ratio 0) mf) 1 /\
    Res.actual_span_depth r = round a 1 /\
    Res.deflection_ok r = fle a (fmul (lit basic_ratio 0) mf) /\
    Res.shear_force r = round V 2 /\
    Res.concrete_shear_strength r = round vc 2 /\
    Res.shear_ok r = fle v vc /\
    Res.slab_depth r = Loc.slab_depth l /\
    Res.effective_depth r = Loc.effective_depth_int l.
Proof.
  unfold calculate_slab_design. intros H.
  bind_inv H. destruct a as [fck fy]. cbv zeta in H.
  do 8 bind_inv H.
  injection H as <-. cbn.
  exists fck, fy, a, a2, a3, a4, a5, a6. repeat split; assumption.
Qed.

Lemma calculate_slab_design_echo {F : Type} {PF : PyFloat F} {LM : Libm F}
    (span dead_load live_load : F) (concrete_grade steel_grade : string)
    (cover : F) (r : Res.t F) :
  calculate_slab_design span dead_load live_load concrete_grade steel_grade
    cover = Ok r ->
  (Res.span r = span /\ Res.dead_load r = dead_load /\
   Res.live_load r = live_load /\
   Res.concrete_grade r = concrete_grade /\
   Res.steel_grade r = steel_grade /\ Res.cover r = cover) /\
  material_properties (F := F) concrete_grade steel_grade
    = Ok (Res.fck r, Res.fy r) /\
  Res.reinforcement_suggestion r = suggestion (Res.selected_reinforcement r).
Proof.
  unfold calculate_slab_design. intros H.
  bind_inv H. destruct a as [fck fy]. cbv zeta in H.
  do 8 bind_inv H.
  injection H as <-. cbn. repeat split. exact E.
Qed.

Section Generic.
Context {F : Type} {PF : PyFloat F}.

Lemma fold_best_In {A : Type} (better : F -> F -> bool) (key : A -> F)
    (P : A -> Prop) (rest : list A) (best : A) :
  P best -> (forall x, In x rest -> P x) ->
  P (fold_left (fun best item =>
                  if better (key item) (key best) then item else best)
               rest best).
Proof.
  revert best. induction rest as [|x rest IH]; intros best Hb Hr; cbn.
  - exact Hb.
  - apply IH.
    + destruct (better (key x) (key best)); [apply Hr; now left | exact Hb].
    + intros y Hy. apply Hr. now right.
Qed.

Lemma best_by_In {A : Type} (better : F -> F -> bool) (key : A -> F)
    (P : A -> Prop) (xs : list A) (x : A) :
  best_by better key xs = Ok x -> (forall y, In y xs -> P y) -> P x.
Proof.
  destruct xs as [|a rest]; cbn; [discriminate|].
  intros H Hp. injection H as <-.
  apply fold_best_In; [apply Hp; now left | intros y Hy; apply Hp; now right].
Qed.

Lemma select_reinforcement_Ok_In (options : list (option_ F))
    (selected : option_ F) :
  select_reinforcement options = Ok selected ->
  In selected options /\
  ((exists o, In o options /\ adequate o = true) -> adequate selected = true).
Proof.
  unfold select_reinforcement.
  destruct (filter adequate options) as [|a fl] eqn:Ef; intros Es.
  - split.
    + apply (best_by_In _ _ (fun o => In o options) _ _ Es). auto.
    + intros (o & Ho & Ha).
      assert (Hin : In o (filter adequate options))
        by (apply filter_In; auto).
      rewrite Ef in Hin. contradiction.
  - assert (Hs : In selected options /\ adequate selected = true).
    { apply (best_by_In _ _ (fun o => In o options /\ adequate o = true)
               _ _ Es).
      intros y Hy. rewrite <- Ef in Hy. now apply filter_In in Hy. }
    split; [apply Hs | intros _; apply Hs].
Qed.

(** X1.  The selection raises ValueError on the empty list of options; on
    any other list, at any float instance, it returns one of the options of
    the list, and an adequate one whenever the list holds an adequate
    option. *)
Theorem selection_is_a_member :
  forall options : list (option_ F),
    (options = [] -> select_reinforcement options = Raise ValueError) /\
    (options <> [] ->
     exists selected,
       select_reinforcement options = Ok selected /\
       In selected options /\
       ((exists o, In o options /\ adequate o = true) ->
        adequate selected = true)).
Proof.
  intros options. split.
  - intros ->. reflexivity.
  - intros Hne.
    destruct (select_reinforcement_nonempty options Hne) as [s Es].
    exists s. split; [exact Es|].
    now apply select_reinforcement_Ok_In.
Qed.

(** X2.  At any float instance the loop over the bar table is all or
    nothing: when it returns, either the guard [As_provided > 0] holds and
    the options are the bars of the table, one each and in table order, or
    the guard fails and there is no option at all. *)
Theorem loop_appends_every_bar_or_none :
  forall (As_provided As_required : F) (options : list (option_ F)),
    evaluate_bars As_provided As_required = Ok options ->
    (fgt As_provided (lit 0 0) = true /\
     map (fun o => (bar_size o, bar_area o)) options = BAR_AREAS) \/
    (fgt As_provided (lit 0 0) = false /\ options = []).
Proof.
  intros Ap Ar options H. apply evaluate_bars_Ok in H.
  destruct H as (_ & Hyes & Hno).
  destruct (fgt Ap (lit 0 0)) eqn:E; [left | right]; auto.
Qed.



Lemma evaluate_bars_guard_false (As_provided As_required : F) :
  fgt As_provided (lit 0 0) = false ->
  evaluate_bars As_provided As_required = Ok [].
Proof.
  intros Hg. unfold evaluate_bars, BAR_AREAS, for_each, evaluate_bar.
  rewrite Hg. reflexivity.
Qed.

(** X3.  Whenever the call returns, at any float instance: the results
    echo the six arguments, [fck] and [fy] are the table entries of the two
    grades, the slab depth is a multiple of 25, the options are the six
    bars of the table in table order, the selected option is one of them,
    with a spacing that is a multiple of 25 between 75 and 300, and the
    suggestion is its label. *)
Theorem returned_results_are_coherent :
  forall (LM : Libm F) (span dead_load live_load : F)
         (concrete_grade steel_grade : string) (cover : F) (r : Res.t F),
    calculate_slab_design span dead_load live_load concrete_grade
      steel_grade cover = Ok r ->
    (Res.span r = span /\ Res.dead_load r = dead_load /\
     Res.live_load r = live_load /\
     Res.concrete_grade r = concrete_grade /\
     Res.steel_grade r = steel_grade /\ Res.cover r = cover) /\
    material_properties (F := F) concrete_grade steel_grade
      = Ok (Res.fck r, Res.fy r) /\
    (25 | Res.slab_depth r) /\
    map (fun o => (bar_size o, bar_area o)) (Res.reinforcement_options r)
      = BAR_AREAS /\
    In (Res.selected_reinforcement r) (Res.reinforcement_options r) /\
    75 <= spacing (Res.selected_reinforcement r) <= 300 /\
    (25 | spacing (Res.selected_reinforcement r)) /\
    Res.reinforcement_suggestion r =
      (bar_size (Res.selected_reinforcement r) ++ " @ " ++
       str_of_int (spacing (Res.selected_reinforcement r)) ++ "mm c/c").
Proof.
  intros LM span dead_load live_load cg sg cover r H.
  pose proof (calculate_slab_design_Ok _ _ _ _ _ _ _ H)
    as (fck & fy & l & Em & El & Eo & Es & _ & _ & Hsd & _).
  apply section_design_Ok in El.
  destruct El as (_ & _ & _ & Hr & _).
  pose proof (select_reinforcement_Ok_In _ _ Es) as [Hin _].
  pose proof (evaluate_bars_Ok _ _ _ Eo) as (Hev & Hyes & Hno).
  assert (Hg : fgt (Loc.As_provided l) (lit 0 0) = true).
  { destruct (fgt (Loc.As_provided l) (lit 0 0)) eqn:E; [reflexivity|].
    rewrite (Hno eq_refl) in Hin. contradiction. }
  rewrite Forall_forall in Hev.
  destruct (Hev _ Hin) as (_ & raw & a & _ & _ & Hs & Hd & _).
  destruct (calculate_slab_design_echo _ _ _ _ _ _ _ H) as (He & Hm & Hl).
  split; [exact He|]. split; [exact Hm|]. split.
  { unfold round_up_depth in Hr. do 2 bind_inv Hr. injection Hr as Hr.
    rewrite Hsd, <- Hr. exists a1. reflexivity. }
  split; [now apply Hyes|]. split; [exact Hin|].
  split; [exact Hs|]. split; [exact Hd | exact Hl].
Qed.

(** X4.  At any float instance, when steps 1 to 9 complete with a provided
    area that is not greater than zero (a NaN included), no bar is
    evaluated and the call raises ValueError: the [max] of the selection
    is taken over the empty list. *)
Theorem guard_failure_raises_ValueError :
  forall (LM : Libm F) (span dead_load live_load : F)
         (concrete_grade steel_grade : string) (cover : F) (fck fy : Z)
         (l : Loc.t F),
    material_properties (F := F) concrete_grade steel_grade = Ok (fck, fy) ->
    section_design span dead_load live_load fck fy cover = Ok l ->
    fgt (Loc.As_provided l) (lit 0 0) = false ->
    evaluate_bars (Loc.As_provided l) (Loc.As_required l) = Ok [] /\
    calculate_slab_design span dead_load live_load concrete_grade
      steel_grade cover = Raise ValueError.
Proof.
  intros LM span dead_load live_load cg sg cover fck fy l Em El Hg.
  pose proof (evaluate_bars_guard_false _ (Loc.As_required l) Hg) as Eo.
  split; [exact Eo|].
  unfold calculate_slab_design. rewrite Em. cbn [bind]. cbv zeta.
  rewrite El. cbn [bind]. rewrite Eo. reflexivity.
Qed.

End Generic.

Section Tables.
Context {F : Type} {PF : PyFloat F}.

(** X5.  The two lookups succeed exactly on the five concrete grades and
    the two steel grades, and the strength they return is the number in the
    grade's name: the concrete grade is "C" followed by fck, the steel grade
    is fy written in decimal. *)
Theorem grade_names_carry_the_strengths :
  forall (concrete_grade steel_grade : string) (fck fy : Z),
    material_properties (F := F) concrete_grade steel_grade = Ok (fck, fy) <->
    In fck [20; 25; 30; 35; 40] /\ In fy [460; 500] /\
    concrete_grade = "C" ++ str_of_int fck /\
    steel_grade = str_of_int fy.
Proof.
  intros cg sg fck fy. split.
  - unfold material_properties. intros H. do 2 bind_inv H.
    injection H as <- <-.
    apply getitem_Ok_In in E, E0. cbn in E, E0.
    repeat match goal with
           | H : _ \/ _ |- _ => destruct H as [H|H]
           | H : (_, _) = (_, _) |- _ => injection H as <- <-
           | H : False |- _ => contradiction
           end; cbn; tauto.
  - intros (Hc & Hs & -> & ->). cbn in Hc, Hs.
    repeat match goal with
           | H : _ \/ _ |- _ => destruct H as [H|H]
           | H : False |- _ => contradiction
           end; subst; reflexivity.
Qed.

End Tables.

Section PageFacts.
Context {F : Type} {PF : PyFloat F} {LM : Libm F}.




(** X8.  The grades the page offers are the keys of the two tables: a pair
    of grades is accepted by the calculator's lookups exactly when both are
    among the offered ones. *)
Theorem offered_grades_are_the_known_ones :
  forall (method : string) (f : form F) (concrete_grade steel_grade : string),
    (In concrete_grade (concrete_grades (calculator method f)) /\
     In steel_grade (steel_grades (calculator method f))) <->
    exists fck fy,
      material_properties (F := F) concrete_grade steel_grade = Ok (fck, fy).
Proof.
  intros method f cg sg.
  assert (Hc : concrete_grades (calculator method f)
               = keys (CONCRETE_GRADES (F := F))).
  { unfold calculator.
    destruct (String.eqb method "POST"); [|reflexivity].
    match goal with
    | |- concrete_grades (match ?a with _ => _ end) = _ =>
        destruct a as [[? ?]|[]]; reflexivity
    end. }
  assert (Hs : steel_grades (calculator method f) = keys STEEL_GRADES).
  { unfold calculator.
    destruct (String.eqb method "POST"); [|reflexivity].
    match goal with
    | |- steel_grades (match ?a with _ => _ end) = _ =>
        destruct a as [[? ?]|[]]; reflexivity
    end. }
  rewrite Hc, Hs. unfold material_properties. split.
  - intros [H1 H2].
    destruct (getitem_present _ _ H1) as [c Ec].
    destruct (getitem_present _ _ H2) as [s Es].
    exists (fck c), (fy s). rewrite Ec, Es. reflexivity.
  - intros (fck & fy & H). do 2 bind_inv H.
    apply getitem_Ok_In in E, E0. split.
    + apply (in_map fst) in E. exact E.
    + apply (in_map fst) in E0. exact E0.
Qed.

End PageFacts.

(** ** Comparisons with NaN, and what they let through *)

Section Binary64Facts.
Local Open Scope float_scope.

Lemma is_nan_true (x : float) :
  PrimFloat.is_nan x = true -> Prim2SF x = S754_nan.
Proof.
  intros H. destruct (Prim2SF x) eqn:E; try reflexivity;
    assert (Hn : PrimFloat.is_nan x = false)
      by (apply is_nan_spec; rewrite E; discriminate);
    rewrite Hn in H; discriminate.
Qed.

Lemma nan_compares_false (x y : float) :
  PrimFloat.is_nan x = true ->
  (x <? y) = false /\ (y <? x) = false /\
  (x <=? y) = false /\ (y <=? x) = false.
Proof.
  intros H. apply is_nan_true in H.
  rewrite !ltb_spec, !leb_spec, H. unfold SFltb, SFleb.
  cbn [SFcompare]. destruct (Prim2SF y); auto.
Qed.

Lemma ltb_not_nan (x y : float) :
  (x <? y) = true ->
  PrimFloat.is_nan x = false /\ PrimFloat.is_nan y = false.
Proof.
  intros H. split.
  - destruct (PrimFloat.is_nan x) eqn:E; [|reflexivity].
    destruct (nan_compares_false x y E) as (H1 & _). congruence.
  - destruct (PrimFloat.is_nan y) eqn:E; [|reflexivity].
    destruct (nan_compares_false y x E) as (_ & H1 & _). congruence.
Qed.

Lemma leb_not_nan (x y : float) :
  (x <=? y) = true ->
  PrimFloat.is_nan x = false /\ PrimFloat.is_nan y = false.
Proof.
  intros H. split.
  - destruct (PrimFloat.is_nan x) eqn:E; [|reflexivity].
    destruct (nan_compares_false x y E) as (_ & _ & H1 & _). congruence.
  - destruct (PrimFloat.is_nan y) eqn:E; [|reflexivity].
    destruct (nan_compares_false y x E) as (_ & _ & _ & H1). congruence.
Qed.

Lemma ltb_leb (x y : float) : (x <? y) = true -> (x <=? y) = true.
Proof.
  intros H. destruct (ltb_not_nan x y H) as [Hx Hy].
  rewrite ltb_rank in H by assumption. rewrite leb_rank by assumption.
  apply Z.ltb_lt in H. apply Z.leb_le. lia.
Qed.

Lemma leb_refl (x : float) : PrimFloat.is_nan x = false -> (x <=? x) = true.
Proof. intros H. rewrite leb_rank by assumption. apply Z.leb_refl. Qed.

Lemma leb_negb_ltb (x y : float) :
  PrimFloat.is_nan x = false -> PrimFloat.is_nan y = false ->
  (x <=? y) = negb (y <? x).
Proof.
  intros Hx Hy. rewrite leb_rank, ltb_rank by assumption.
  destruct (Z.leb_spec (rank x) (rank y)), (Z.ltb_spec (rank y) (rank x));
    (reflexivity || lia).
Qed.

Lemma binary64_clamp (lo hi x : float) :
  (lo <=? hi) = true ->
  (lo <=? fmax lo (fmin hi x)) = true /\ (fmax lo (fmin hi x) <=? hi) = true.
Proof.
  intros H. destruct (leb_not_nan _ _ H) as [Hlo Hhi].
  unfold fmax, fmin, fgt. cbn [flt Binary64.py_float].
  destruct (x <? hi) eqn:E1.
  - destruct (lo <? x) eqn:E2.
    + split; now apply ltb_leb.
    + split; [now apply leb_refl | exact H].
  - destruct (lo <? hi) eqn:E2.
    + split; [exact H | now apply leb_refl].
    + split; [now apply leb_refl | exact H].
Qed.

(** X9.  On binary64 the modification factor of the deflection check lies
    between 0.9 and 2.0 whenever it is computed, whatever the areas, the
    moment and the depth are (NaN and infinities included): [min] and
    [max] put the constant first, so a NaN ratio gives 2.0. *)
Theorem modification_factor_is_clamped :
  forall (As_provided As_required moment d : float) (fy : Z) (mf : float),
    modification_factor As_provided As_required moment d fy = Ok mf ->
    (0.9 <=? mf) = true /\ (mf <=? 2) = true.
Proof.
  intros Ap Ar M d fy mf. unfold modification_factor.
  destruct (fgt Ap (lit 0 0) && fgt Ar (lit 0 0)).
  - intros H. do 4 bind_inv H. injection H as <-.
    change (lit (F := float) 9 1) with 0.9.
    change (lit (F := float) 2 0) with 2.
    apply binary64_clamp. reflexivity.
  - intros [= <-]. split; reflexivity.
Qed.

Lemma modification_factor_is_clamped_witness :
  exists mf : float,
    modification_factor 270.33266992234877 270.33266992234877
      14.799999999999999 144 460 = Ok mf /\
    (0.9 <=? mf) = true /\ (mf <=? 2) = true.
Proof.
  eexists. split; [vm_compute; reflexivity|].
  apply (modification_factor_is_clamped 270.33266992234877
           270.33266992234877 14.799999999999999 144 460).
  vm_compute. reflexivity.
Defined.

(** X10.  On binary64 the flag and the branch of the lever arm agree
    except on a NaN: when K is greater than 0.156 the lever arm is
    0.95 d; when K is a number not greater than 0.156 the test of the first
    branch holds; when K is NaN the flag is false and yet the lever arm is
    the fallback 0.95 d. *)
Theorem lever_arm_branch_on_binary64 :
  forall d K : float,
    (fgt K K_prime = true -> lever_arm d K = Ok (0.95 * d)) /\
    (PrimFloat.is_nan K = false -> fgt K K_prime = false ->
     fle K K_prime = true) /\
    (PrimFloat.is_nan K = true ->
     fgt K K_prime = false /\ lever_arm d K = Ok (0.95 * d)).
Proof.
  intros d K.
  assert (Hk : PrimFloat.is_nan 0.156 = false) by reflexivity.
  unfold lever_arm, fgt. cbn [flt fle Binary64.py_float].
  change (K_prime (F := float)) with 0.156.
  change (lit (F := float) 95 2) with 0.95.
  split; [|split].
  - intros H. destruct (ltb_not_nan _ _ H) as [_ Hn].
    rewrite (leb_negb_ltb K 0.156 Hn Hk), H. reflexivity.
  - intros Hn H. rewrite (leb_negb_ltb K 0.156 Hn Hk), H. reflexivity.
  - intros Hn. destruct (nan_compares_false K 0.156 Hn) as (_ & H1 & H2 & _).
    rewrite H1, H2. split; reflexivity.
Qed.

Lemma lever_arm_branch_on_binary64_witness :
  (fgt 0.2 (K_prime (F := float)) = true /\
   lever_arm 144 0.2 = Ok (0.95 * 144)) /\
  (fgt nan (K_prime (F := float)) = false /\
   lever_arm 144 nan = Ok (0.95 * 144)).
Proof.
  destruct (lever_arm_branch_on_binary64 144 0.2) as (H1 & _ & _).
  destruct (lever_arm_branch_on_binary64 144 nan) as (_ & _ & H3).
  split; [split; [reflexivity | apply H1; reflexivity]|].
  apply H3. reflexivity.
Defined.

Lemma errors_nil {F : Type} {PF : PyFloat F}
    (span dead_load live_load cover : F) :
  errors span dead_load live_load cover = [] <->
  (fle span (lit 0 0) || fgt span (lit 12 0) = false /\
   flt dead_load (lit 0 0) || fgt dead_load (lit 50 0) = false /\
   flt live_load (lit 0 0) || fgt live_load (lit 20 0) = false /\
   flt cover (lit 15 0) || fgt cover (lit 75 0) = false)%bool.
Proof.
  unfold errors.
  destruct (fle span (lit 0 0) || fgt span (lit 12 0))%bool;
    destruct (flt dead_load (lit 0 0) || fgt dead_load (lit 50 0))%bool;
    destruct (flt live_load (lit 0 0) || fgt live_load (lit 20 0))%bool;
    destruct (flt cover (lit 15 0) || fgt cover (lit 75 0))%bool;
    cbn; split; try discriminate; try tauto;
    intros (? & ? & ? & ?); discriminate.
Qed.

Lemma binary64_range_check (lo hi x : float) :
  PrimFloat.is_nan lo = false -> PrimFloat.is_nan hi = false ->
  ((x <? lo) || (hi <? x) = false)%bool <->
  PrimFloat.is_nan x = true \/ ((lo <=? x) = true /\ (x <=? hi) = true).
Proof.
  intros Hlo Hhi. destruct (PrimFloat.is_nan x) eqn:Hx.
  - destruct (nan_compares_false x lo Hx) as (H1 & _).
    destruct (nan_compares_false x hi Hx) as (_ & H2 & _).
    rewrite H1, H2. cbn. tauto.
  - rewrite (leb_negb_ltb lo x Hlo Hx), (leb_negb_ltb x hi Hx Hhi).
    destruct (x <? lo), (hi <? x); cbn; split; auto;
      try discriminate; intros [H|[H1 H2]]; discriminate.
Qed.

(** X11.  On binary64 the validation of the page accepts exactly the
    inputs each of whose four numbers is NaN or lies in its range: a span
    greater than 0 and at most 12, a dead load from 0 to 50, a live load
    from 0 to 20, a cover from 15 to 75.  A NaN passes every check, and a
    span below 0.1 is accepted although the message names 0.1 m. *)
Theorem validation_on_binary64 :
  forall span dead_load live_load cover : float,
    errors span dead_load live_load cover = [] <->
    (PrimFloat.is_nan span = true \/
     ((0 <? span) = true /\ (span <=? 12) = true)) /\
    (PrimFloat.is_nan dead_load = true \/
     ((0 <=? dead_load) = true /\ (dead_load <=? 50) = true)) /\
    (PrimFloat.is_nan live_load = true \/
     ((0 <=? live_load) = true /\ (live_load <=? 20) = true)) /\
    (PrimFloat.is_nan cover = true \/
     ((15 <=? cover) = true /\ (cover <=? 75) = true)).
Proof.
  intros span dead_load live_load cover. rewrite errors_nil.
  unfold fgt. cbn [flt fle Binary64.py_float].
  change (lit (F := float) 0 0) with 0.
  change (lit (F := float) 12 0) with 12.
  change (lit (F := float) 50 0) with 50.
  change (lit (F := float) 20 0) with 20.
  change (lit (F := float) 15 0) with 15.
  change (lit (F := float) 75 0) with 75.
  rewrite (binary64_range_check 0 50 dead_load) by reflexivity.
  rewrite (binary64_range_check 0 20 live_load) by reflexivity.
  rewrite (binary64_range_check 15 75 cover) by reflexivity.
  assert (Hs : ((span <=? 0) || (12 <? span) = false)%bool <->
               PrimFloat.is_nan span = true \/
               ((0 <? span) = true /\ (span <=? 12) = true)).
  { destruct (PrimFloat.is_nan span) eqn:Hx.
    - destruct (nan_compares_false span 0 Hx) as (_ & _ & H1 & _).
      destruct (nan_compares_false span 12 Hx) as (_ & H2 & _).
      rewrite H1, H2. cbn. tauto.
    - rewrite (leb_negb_ltb span 0 Hx), (leb_negb_ltb span 12 Hx)
        by reflexivity.
      destruct (0 <? span), (12 <? span); cbn; split; auto;
        try discriminate; intros [H|[H1 H2]]; discriminate. }
  rewrite Hs. tauto.
Qed.

Lemma is_nan_of_SF (x : float) :
  Prim2SF x = S754_nan -> PrimFloat.is_nan x = true.
Proof.
  intros H. destruct (PrimFloat.is_nan x) eqn:E; [reflexivity|].
  apply is_nan_spec in E. contradiction.
Qed.

Lemma mul_nan (x y : float) :
  PrimFloat.is_nan x = true \/ PrimFloat.is_nan y = true ->
  PrimFloat.is_nan (x * y) = true.
Proof.
  intros H. apply is_nan_of_SF. rewrite mul_spec.
  destruct H as [H|H]; apply is_nan_true in H; rewrite H.
  - reflexivity.
  - destruct (Prim2SF x); reflexivity.
Qed.

Lemma add_nan (x y : float) :
  PrimFloat.is_nan x = true \/ PrimFloat.is_nan y = true ->
  PrimFloat.is_nan (x + y) = true.
Proof.
  intros H. apply is_nan_of_SF. rewrite add_spec.
  destruct H as [H|H]; apply is_nan_true in H; rewrite H.
  - reflexivity.
  - destruct (Prim2SF x); reflexivity.
Qed.

Lemma div_nan (x y : float) :
  PrimFloat.is_nan x = true -> PrimFloat.is_nan (x / y) = true.
Proof.
  intros H. apply is_nan_of_SF. rewrite div_spec.
  apply is_nan_true in H. rewrite H. reflexivity.
Qed.

Lemma truediv_nan (x y q : float) :
  truediv x y = Ok q -> PrimFloat.is_nan x = true ->
  PrimFloat.is_nan q = true.
Proof.
  unfold truediv. destruct (feq y (lit 0 0)); [discriminate|].
  intros [= <-] H. now apply div_nan.
Qed.

Lemma sub_nan (x y : float) :
  PrimFloat.is_nan x = true \/ PrimFloat.is_nan y = true ->
  PrimFloat.is_nan (x - y) = true.
Proof.
  intros H. apply is_nan_of_SF. rewrite sub_spec.
  destruct H as [H|H]; apply is_nan_true in H; rewrite H.
  - reflexivity.
  - destruct (Prim2SF x); reflexivity.
Qed.

Lemma nan_span_stops_at_ceil (span dead_load live_load : float) (fck fy : Z)
    (cover : float) (l : Loc.t float) :
  PrimFloat.is_nan span = true ->
  section_design span dead_load live_load fck fy cover <> Ok l.
Proof.
  intros Hn El. apply section_design_Ok in El.
  destruct El as (_ & _ & He & Hr & _).
  unfold estimate_depth in He.
  assert (Hen : PrimFloat.is_nan (Loc.estimated_depth l) = true).
  { apply (truediv_nan _ _ _ He). cbn [fmul Binary64.py_float].
    apply mul_nan. now left. }
  unfold round_up_depth in Hr. do 2 bind_inv Hr.
  pose proof (truediv_nan _ _ _ E Hen) as Hq.
  unfold math_ceil in E0. cbn [is_nan Binary64.py_float] in E0.
  rewrite Hq in E0. discriminate.
Qed.

Lemma nan_cover_stops_at_int (span dead_load live_load : float) (fck fy : Z)
    (cover : float) (l : Loc.t float) :
  PrimFloat.is_nan cover = true ->
  section_design span dead_load live_load fck fy cover <> Ok l.
Proof.
  intros Hn El. apply section_design_Ok in El.
  destruct El as (_ & _ & _ & _ & Hd & Hi & _).
  unfold effective_depth_of in Hd. do 2 bind_inv Hd. injection Hd as Hd.
  assert (Hdn : PrimFloat.is_nan (Loc.effective_depth l) = true).
  { rewrite <- Hd. cbn [fsub Binary64.py_float].
    apply sub_nan. left. apply sub_nan. now right. }
  unfold int_of_float in Hi. cbn [is_nan Binary64.py_float] in Hi.
  rewrite Hdn in Hi. discriminate.
Qed.

(** X12.  On binary64 a NaN among the four numbers never gives results,
    whatever the other arguments and C's [pow] are.  A NaN span stops at
    [math.ceil] and a NaN cover at [int()]; with a NaN load, if steps 1 to
    9 complete, the ultimate load, the moment and the required area are
    NaN, [max] keeps the NaN as the provided area, the guard of the loop
    fails for every bar and the selection raises ValueError on the empty
    list. *)
Theorem nan_input_never_returns :
  forall (LM : Libm float) (span dead_load live_load : float)
         (concrete_grade steel_grade : string) (cover : float),
    (PrimFloat.is_nan span = true \/ PrimFloat.is_nan dead_load = true \/
     PrimFloat.is_nan live_load = true \/ PrimFloat.is_nan cover = true ->
     forall r : Res.t float,
       calculate_slab_design span dead_load live_load concrete_grade
         steel_grade cover <> Ok r) /\
    (PrimFloat.is_nan dead_load = true \/ PrimFloat.is_nan live_load = true ->
     forall (fck fy : Z) (l : Loc.t float),
       material_properties (F := float) concrete_grade steel_grade
         = Ok (fck, fy) ->
       section_design span dead_load live_load fck fy cover = Ok l ->
       PrimFloat.is_nan (Loc.As_provided l) = true /\
       calculate_slab_design span dead_load live_load concrete_grade
         steel_grade cover = Raise ValueError).
Proof.
  intros LM span dead_load live_load cg sg cover.
  assert (Hsec : PrimFloat.is_nan dead_load = true \/
                 PrimFloat.is_nan live_load = true ->
                 forall (fck fy : Z) (l : Loc.t float),
                   section_design span dead_load live_load fck fy cover
                     = Ok l ->
                   PrimFloat.is_nan (Loc.As_provided l) = true).
  { intros Hnan fck fy l El. apply section_design_Ok in El.
    destruct El as (Hw & HM & _ & _ & _ & _ & _ & _ & Hreq & _ & Hmax).
    assert (Hwn : PrimFloat.is_nan (Loc.ultimate_load l) = true).
    { rewrite Hw. unfold load_combination. cbn [fadd fmul Binary64.py_float].
      apply add_nan. destruct Hnan as [H|H]; [left | right];
        apply mul_nan; now right. }
    assert (HMn : PrimFloat.is_nan (Loc.moment l) = true).
    { unfold bending_moment in HM. bind_inv HM.
      apply (truediv_nan _ _ _ HM). cbn [fmul Binary64.py_float].
      apply mul_nan. now left. }
    assert (Hrn : PrimFloat.is_nan (Loc.As_required l) = true).
    { unfold required_steel in Hreq. apply (truediv_nan _ _ _ Hreq).
      cbn [fmul Binary64.py_float]. apply mul_nan. now left. }
    rewrite Hmax. unfold fmax, fgt. cbn [flt Binary64.py_float].
    destruct (nan_compares_false _ (Loc.As_min l) Hrn) as (H1 & _).
    rewrite H1. exact Hrn. }
  assert (Hraise : PrimFloat.is_nan dead_load = true \/
                   PrimFloat.is_nan live_load = true ->
                   forall (fck fy : Z) (l : Loc.t float),
                     material_properties (F := float) cg sg = Ok (fck, fy) ->
                     section_design span dead_load live_load fck fy cover
                       = Ok l ->
                     calculate_slab_design span dead_load live_load cg sg
                       cover = Raise ValueError).
  { intros Hnan fck fy l Em El.
    assert (Hg : fgt (Loc.As_provided l) (lit 0 0) = false).
    { unfold fgt. cbn [flt Binary64.py_float].
      destruct (nan_compares_false _ (lit 0 0) (Hsec Hnan _ _ _ El))
        as (_ & H2 & _).
      exact H2. }
    unfold calculate_slab_design. rewrite Em. cbn [bind]. cbv zeta.
    rewrite El. cbn [bind].
    rewrite (evaluate_bars_guard_false _ (Loc.As_required l) Hg).
    reflexivity. }
  split.
  - intros Hnan r Er.
    destruct (calculate_slab_design_Ok _ _ _ _ _ _ _ Er)
      as (fck & fy & l & Em & El & _).
    destruct Hnan as [H|[H|[H|H]]].
    + exact (nan_span_stops_at_ceil _ _ _ _ _ _ _ H El).
    + rewrite (Hraise (or_introl H) _ _ _ Em El) in Er. discriminate.
    + rewrite (Hraise (or_intror H) _ _ _ Em El) in Er. discriminate.
    + exact (nan_cover_stops_at_int _ _ _ _ _ _ _ H El).
  - intros Hnan fck fy l Em El.
    split; [now apply (Hsec Hnan fck fy) | now apply (Hraise Hnan fck fy l)].
Qed.

Lemma nan_input_never_returns_witness :
  ~ (exists r : Res.t float,
        calculate_slab_design (LM := Binary64.libm (fun x _ => x))
          4 nan 2 "C25" "460" 25 = Ok r) /\
  ~ (exists r : Res.t float,
        calculate_slab_design (LM := Binary64.libm (fun x _ => x))
          nan 3 2 "C25" "460" 25 = Ok r).
Proof.
  split.
  - intros [r Er].
    apply (proj1 (nan_input_never_returns (Binary64.libm (fun x _ => x))
                    4 nan 2 "C25" "460" 25)
                 (or_intror (or_introl eq_refl)) r Er).
  - intros [r Er].
    apply (proj1 (nan_input_never_returns (Binary64.libm (fun x _ => x))
                    nan 3 2 "C25" "460" 25)
                 (or_introl eq_refl) r Er).
Defined.

End Binary64Facts.

(** ** More of the calculation in exact arithmetic *)

Ltac exact_literals :=
  repeat match goal with
  | |- context [Exact.literal ?m ?k] =>
      let d := eval vm_compute in (10 ^ Z.of_nat k)%Z in
      change (Exact.literal m k) with (IZR m / IZR d)%R
  | H : context [Exact.literal ?m ?k] |- _ =>
      let d := eval vm_compute in (10 ^ Z.of_nat k)%Z in
      change (Exact.literal m k) with (IZR m / IZR d)%R in H
  end.

Section ExactMore.
Local Open Scope R_scope.

(** X13.  In exact arithmetic, for a positive span, loads that are not
    negative and known grades, the call returns results exactly when the
    effective depth slab_depth - cover - 6 is positive. *)
Theorem returns_iff_effective_depth_positive :
  forall (span dead_load live_load : R) (concrete_grade steel_grade : string)
         (cover : R) (fck fy slab_depth : Z),
    0 < span -> 0 <= dead_load -> 0 <= live_load ->
    material_properties (F := R) concrete_grade steel_grade = Ok (fck, fy) ->
    round_up_depth (span * 1000 / 25) = Ok slab_depth ->
    (exists r : Res.t R,
        calculate_slab_design span dead_load live_load concrete_grade
          steel_grade cover = Ok r) <->
    0 < IZR slab_depth - cover - 6.
Proof.
  intros span dead_load live_load cg sg cover fck fy sd Hspan Hdl Hll Em Hsd.
  destruct (material_properties_Ok _ _ _ _ Em) as [Hfck Hfy].
  destruct (exact_section_design span dead_load live_load fck fy cover sd)
    as [Hzero Hnz]; [lia | lia | exact Hsd |]. cbv zeta in Hzero, Hnz.
  split.
  - intros [r Er].
    destruct (Rtotal_order (IZR sd - cover - 6) 0) as [Hd|[Hd|Hd]].
    + destruct Hnz as (l & El & _ & Ed); [lra|].
      destruct (exact_calculate_slab_design _ _ _ _ _ _ _ _ l
                  Hspan Hdl Hll Em El) as [_ Hneg].
      rewrite Hneg in Er by (rewrite Ed; exact Hd). discriminate.
    + rewrite (calculate_slab_design_Raise _ _ _ _ _ _ fck fy
                 ZeroDivisionError Em (Hzero Hd)) in Er.
      discriminate.
    + lra.
  - intros Hd. destruct Hnz as (l & El & _ & Ed); [lra|].
    apply (exact_calculate_slab_design _ _ _ _ _ _ _ _ l
             Hspan Hdl Hll Em El).
    rewrite Ed. exact Hd.
Qed.

Lemma returns_iff_effective_depth_positive_witness :
  exists r : Res.t R,
    calculate_slab_design 4 3 2 "C25" "460" 25 = Ok r.
Proof.
  assert (Hsd : round_up_depth (4 * 1000 / 25) = Ok 175%Z).
  { apply (exact_round_up_depth_value (4 * 1000 / 25) 7). lra. }
  assert (Hspan : 0 < 4) by lra.
  assert (Hdl : 0 <= 3) by lra.
  assert (Hll : 0 <= 2) by lra.
  apply (proj2 (returns_iff_effective_depth_positive 4 3 2 "C25" "460" 25
                  25 460 175 Hspan Hdl Hll eq_refl Hsd)).
  lra.
Defined.

(** X14.  In exact arithmetic the lever arm never raises, and for a
    positive effective depth it lies between 0.835 d and 0.95 d, whatever K
    is. *)
Theorem lever_arm_is_bounded :
  forall d K : R,
    exists z : R,
      lever_arm d K = Ok z /\
      (0 < d -> 0.835 * d <= z <= 0.95 * d).
Proof.
  intros d K. destruct (Rle_dec K 0.156) as [HK|HK].
  - rewrite (exact_lever_arm_below d K HK). eexists. split; [reflexivity|].
    intros Hd.
    assert (Hs : 0.335 <= R_sqrt.sqrt (0.25 - K / 1.134)).
    { rewrite <- (sqrt_square 0.335) by lra. apply sqrt_le_1_alt. lra. }
    split.
    + apply Rmin_glb; nra.
    + apply Rmin_r.
  - rewrite (exact_lever_arm_above d K) by lra. eexists.
    split; [reflexivity|]. intros Hd. lra.
Qed.


Lemma exact_section_values (span dead_load live_load : R) (fck fy : Z)
    (cover : R) (l : Loc.t R) :
  0 < span -> (fck <> 0)%Z -> (fy <> 0)%Z ->
  section_design span dead_load live_load fck fy cover = Ok l ->
  Loc.ultimate_load l = 1.4 * dead_load + 1.6 * live_load /\
  Loc.moment l = Loc.ultimate_load l * (span * span) / 8 /\
  (25 <= Loc.slab_depth l)%Z /\
  span * 1000 / 25 <= IZR (Loc.slab_depth l) < span * 1000 / 25 + 25 /\
  Loc.effective_depth l = IZR (Loc.slab_depth l) - cover - 6 /\
  Loc.effective_depth l <> 0 /\
  Loc.K l = Loc.moment l * 1000000 /
            (1000 * (Loc.effective_depth l * Loc.effective_depth l)
             * IZR fck) /\
  Loc.z l <> 0 /\
  Loc.As_required l = Loc.moment l * 1000000 / (0.87 * IZR fy * Loc.z l) /\
  Loc.As_min l = 0.0013 * 1000 * IZR (Loc.slab_depth l) /\
  Loc.As_provided l = Rmax (Loc.As_required l) (Loc.As_min l).
Proof.
  intros Hspan Hfck Hfy Hl.
  pose proof (section_design_Ok _ _ _ _ _ _ _ Hl)
    as (Hw & HM & He & Hr & Hd & _ & HK & Hz & Hreq & Hmin & Hmax).
  rewrite exact_load_combination in Hw.
  rewrite exact_bending_moment in HM. injection HM as HM.
  rewrite exact_estimate_depth in He. injection He as He.
  destruct (exact_round_up_depth (span * 1000 / 25)) as (n & En & Hn1 & Hn2).
  rewrite <- He, En in Hr. injection Hr as Hr.
  assert (Hpos : (0 < n)%Z) by (apply lt_IZR; lra).
  rewrite exact_effective_depth_of in Hd. injection Hd as Hd.
  assert (Hdnz : Loc.effective_depth l <> 0).
  { intros E0. rewrite (exact_k_value_zero _ _ _ E0) in HK. discriminate. }
  rewrite exact_k_value in HK by assumption. injection HK as HK.
  destruct (exact_lever_arm_sign _ _ _ Hz) as (_ & _ & Hznz).
  specialize (Hznz Hdnz).
  rewrite exact_required_steel in Hreq by assumption.
  injection Hreq as Hreq.
  rewrite exact_minimum_steel in Hmin. injection Hmin as Hmin.
  rewrite exact_fmax in Hmax.
  split; [exact Hw|]. split; [now symmetry|]. split; [lia|].
  split; [rewrite <- Hr, mult_IZR; lra|].
  split; [now symmetry|]. split; [exact Hdnz|]. split; [now symmetry|].
  split; [exact Hznz|]. split; [now symmetry|]. split; [now symmetry|].
  exact Hmax.
Qed.

(** X15.  In exact arithmetic, when steps 1 to 9 complete for a positive
    span, loads that are not negative, positive strengths and a positive
    effective depth, no quantity of the design is negative: the ultimate
    load, the moment, K and the required area are at least zero, the lever
    arm and the minimum and provided areas are positive; and the moment is
    zero only when both loads are. *)
Theorem design_quantities_are_not_negative :
  forall (span dead_load live_load : R) (fck fy : Z) (cover : R)
         (l : Loc.t R),
    0 < span -> 0 <= dead_load -> 0 <= live_load ->
    (0 < fck)%Z -> (0 < fy)%Z ->
    section_design span dead_load live_load fck fy cover = Ok l ->
    0 < Loc.effective_depth l ->
    0 <= Loc.ultimate_load l /\ 0 <= Loc.moment l /\ 0 <= Loc.K l /\
    0 < Loc.z l /\ 0 <= Loc.As_required l /\
    0 < Loc.As_min l <= Loc.As_provided l /\
    (Loc.moment l = 0 <-> dead_load = 0 /\ live_load = 0).
Proof.
  intros span dead_load live_load fck fy cover l Hspan Hdl Hll Hfck Hfy Hl Hd.
  assert (Hfck0 : (fck <> 0)%Z) by lia.
  assert (Hfy0 : (fy <> 0)%Z) by lia.
  destruct (exact_section_values _ _ _ _ _ _ _ Hspan Hfck0 Hfy0 Hl)
    as (Hw & HM & Hsd & _ & _ & _ & HK & _ & Hreq & Hmin & Hmax).
  apply section_design_Ok in Hl.
  destruct Hl as (_ & _ & _ & _ & _ & _ & _ & Hz & _).
  destruct (exact_lever_arm_sign _ _ _ Hz) as (Hzpos & _ & _).
  specialize (Hzpos Hd).
  assert (Hfck' : 0 < IZR fck) by (apply IZR_lt; lia).
  assert (Hfy' : 0 < IZR fy) by (apply IZR_lt; lia).
  assert (Hsd' : 25 <= IZR (Loc.slab_depth l)) by (apply IZR_le; lia).
  assert (Hss : 0 < span * span) by nra.
  assert (Hw0 : 0 <= Loc.ultimate_load l) by lra.
  assert (HM0 : 0 <= Loc.moment l).
  { rewrite HM. apply Rmult_le_pos; [|lra]. apply Rmult_le_pos; lra. }
  assert (HK0 : 0 <= Loc.K l).
  { rewrite HK. apply Rmult_le_pos; [lra|].
    apply Rlt_le, Rinv_0_lt_compat.
    apply Rmult_lt_0_compat; [|lra].
    apply Rmult_lt_0_compat; [lra|]. nra. }
  assert (Hr0 : 0 <= Loc.As_required l).
  { rewrite Hreq. apply Rmult_le_pos; [lra|].
    apply Rlt_le, Rinv_0_lt_compat.
    apply Rmult_lt_0_compat; [|lra]. lra. }
  split; [exact Hw0|]. split; [exact HM0|]. split; [exact HK0|].
  split; [exact Hzpos|]. split; [exact Hr0|]. split.
  - split; [lra|]. rewrite Hmax. apply Rmax_r.
  - rewrite HM, Hw. split.
    + intros E.
      assert (E' : (1.4 * dead_load + 1.6 * live_load) * (span * span) = 0)
        by lra.
      apply Rmult_integral in E'. destruct E' as [E'|E']; lra.
    + intros [-> ->]. lra.
Qed.

Lemma design_quantities_are_not_negative_witness :
  exists l : Loc.t R,
    section_design 4 3 2 25 460 25 = Ok l /\
    0 <= Loc.ultimate_load l /\ 0 <= Loc.moment l /\ 0 <= Loc.K l /\
    0 < Loc.z l /\ 0 <= Loc.As_required l /\
    0 < Loc.As_min l <= Loc.As_provided l /\
    (Loc.moment l = 0 <-> 3 = 0 /\ 2 = 0).
Proof.
  destruct exact_scenario_A as (l & El & _ & Hd).
  exists l. split; [exact El|].
  apply (design_quantities_are_not_negative 4 3 2 25 460 25 l);
    try lra; try lia.
  exact El.
Defined.


Lemma exact_bar_area_bounds (size : string) (area : R) :
  In (size, area) (BAR_AREAS (F := R)) -> 0 < area <= 490.9.
Proof.
  unfold BAR_AREAS. cbn [In]. exact_lits.
  intros [E|[E|[E|[E|[E|[E|[]]]]]]]; injection E as _ <-; lra.
Qed.

Lemma exact_evaluated (As_provided As_required : R) (o : option_ R) :
  0 < As_provided ->
  evaluated As_provided As_required o ->
  0 < bar_area o <= 490.9 /\
  (75 <= spacing o <= 300)%Z /\
  (exists n : Z,
      IZR n <= bar_area o * 1000 / As_provided / 25 < IZR n + 1 /\
      spacing o = imax 75 (imin (n * 25) 300)) /\
  (adequate o = true <->
   As_required <= bar_area o * 1000 / IZR (spacing o)).
Proof.
  intros Hp (Hin & raw & a & Hraw & (q & n & Hq & Hn & Hs) & Hr & _ & Ha
             & _ & Had).
  pose proof (exact_bar_area_bounds _ _ Hin) as Hb.
  rewrite !exact_lit_int in Hraw, Hq, Ha.
  cbn [fmul Exact.py_float] in Hraw, Ha.
  rewrite exact_truediv in Hraw by lra. injection Hraw as Hraw.
  rewrite exact_truediv in Hq by lra. injection Hq as Hq.
  destruct (exact_math_floor q) as (n' & En & Hn').
  rewrite En in Hn. injection Hn as ->.
  assert (Hsp : 0 < IZR (spacing o)) by (apply IZR_lt; lia).
  rewrite (exact_lit_int (spacing o)) in Ha.
  rewrite exact_truediv in Ha by lra. injection Ha as Ha.
  split; [exact Hb|]. split; [exact Hr|]. split.
  - exists n. split; [|exact Hs]. rewrite <- Hq, <- Hraw in Hn'. exact Hn'.
  - rewrite Had. unfold fge. rewrite exact_fle. rewrite <- Ha. tauto.
Qed.

Lemma exact_wide_spacing_is_adequate (As_provided As_required : R)
    (o : option_ R) :
  0 < As_provided -> As_required <= As_provided ->
  evaluated As_provided As_required o ->
  (75 < spacing o)%Z -> adequate o = true.
Proof.
  intros Hp Hr He Hs.
  destruct (exact_evaluated _ _ _ Hp He)
    as (Hb & Hsp & (n & Hn & Es) & Had).
  apply Had.
  assert (Hle : (spacing o <= n * 25)%Z).
  { pose proof (clamp_spec n) as (_ & _ & H1 & H2 & H3).
    rewrite <- Es in H1, H2, H3.
    destruct (Z_lt_le_dec (n * 25) 75) as [Hlow|Hlow]; [lia|].
    destruct (Z_lt_le_dec 300 (n * 25)) as [Hhigh|Hhigh]; lia. }
  apply IZR_le in Hle. rewrite mult_IZR in Hle.
  assert (Hs0 : 0 < IZR (spacing o)) by (apply IZR_lt; lia).
  assert (Hraw : IZR (spacing o) * As_provided <= bar_area o * 1000).
  { assert (H25 : IZR n * 25 <= bar_area o * 1000 / As_provided).
    { destruct Hn as [Hn _]. lra. }
    apply (Rmult_le_reg_r (/ As_provided)).
    - now apply Rinv_0_lt_compat.
    - replace (IZR (spacing o) * As_provided * / As_provided)
        with (IZR (spacing o)) by (field; lra).
      unfold Rdiv in H25. lra. }
  apply Rle_trans with As_provided; [exact Hr|].
  apply (Rmult_le_reg_r (IZR (spacing o))); [exact Hs0|].
  replace (bar_area o * 1000 / IZR (spacing o) * IZR (spacing o))
    with (bar_area o * 1000) by (field; lra).
  lra.
Qed.

(** X16.  In exact arithmetic, for a positive provided area that is at
    least the required area, every option whose spacing is wider than the
    minimum 75 mm is adequate: an inadequate option always has the spacing
    75. *)
Theorem inadequate_options_have_spacing_75 :
  forall (As_provided As_required : R) (options : list (option_ R)),
    0 < As_provided -> As_required <= As_provided ->
    evaluate_bars As_provided As_required = Ok options ->
    forall o, In o options -> adequate o = false -> spacing o = 75%Z.
Proof.
  intros Ap Ar options Hp Hr H o Ho Ha.
  apply evaluate_bars_Ok in H. destruct H as [Hev _].
  rewrite Forall_forall in Hev. specialize (Hev o Ho).
  destruct (Z_lt_le_dec 75 (spacing o)) as [Hw|Hn].
  - rewrite (exact_wide_spacing_is_adequate Ap Ar o Hp Hr Hev Hw) in Ha.
    discriminate.
  - destruct (exact_evaluated _ _ _ Hp Hev) as (_ & Hs & _). lia.
Qed.

(** X17.  In exact arithmetic, for a positive provided area that is at
    least the required area, the selected option is adequate exactly when
    the required area is at most 490.9 * 1000 / 75 (about 6545 mm2), the
    area of Y25 bars at the spacing 75. *)
Theorem selection_is_adequate_up_to_Y25_at_75 :
  forall (As_provided As_required : R) (options : list (option_ R))
         (selected : option_ R),
    0 < As_provided -> As_required <= As_provided ->
    evaluate_bars As_provided As_required = Ok options ->
    select_reinforcement options = Ok selected ->
    (adequate selected = true <-> As_required <= 490.9 * 1000 / 75).
Proof.
  intros Ap Ar options sel Hp Hr H Hs.
  pose proof (evaluate_bars_Ok _ _ _ H) as (Hev & Hyes & _).
  rewrite Forall_forall in Hev.
  destruct (select_reinforcement_Ok_In _ _ Hs) as [Hin Hsome].
  split.
  - intros Ha.
    destruct (exact_evaluated _ _ _ Hp (Hev _ Hin))
      as (Hb & Hsp & _ & Had).
    apply Had in Ha.
    assert (H75 : 75 <= IZR (spacing sel)) by (apply IZR_le; lia).
    apply Rle_trans with (bar_area sel * 1000 / IZR (spacing sel));
      [exact Ha|].
    apply (Rmult_le_reg_r (IZR (spacing sel))); [lra|].
    replace (bar_area sel * 1000 / IZR (spacing sel) * IZR (spacing sel))
      with (bar_area sel * 1000) by (field; lra).
    assert (0 <= (490.9 - bar_area sel) * 1000) by nra.
    assert (490.9 * 1000 / 75 * 75 <= 490.9 * 1000 / 75 * IZR (spacing sel)).
    { apply Rmult_le_compat_l; lra. }
    lra.
  - intros Hcap. apply Hsome.
    assert (Hg : fgt Ap (lit 0 0) = true).
    { rewrite exact_lit_int. now apply exact_fgt. }
    specialize (Hyes Hg).
    assert (H25 : In ("Y25", lit (F := R) 4909 1)
                     (map (fun o => (bar_size o, bar_area o)) options)).
    { rewrite Hyes. unfold BAR_AREAS. cbn [In]. tauto. }
    apply in_map_iff in H25. destruct H25 as (o & Eo & Ho).
    injection Eo as _ Earea.
    exists o. split; [exact Ho|].
    destruct (Z_lt_le_dec 75 (spacing o)) as [Hw|Hn].
    + apply (exact_wide_spacing_is_adequate Ap Ar o Hp Hr (Hev _ Ho) Hw).
    + destruct (exact_evaluated _ _ _ Hp (Hev _ Ho))
        as (_ & Hsp & _ & Had).
      apply Had. replace (spacing o) with 75%Z by lia.
      assert (Ea : bar_area o = 490.9).
      { rewrite Earea. unfold Exact.literal. cbn. lra. }
      rewrite Ea. lra.
Qed.

Lemma exact_modification_factor_bounds (As_provided As_required moment d : R)
    (fy : Z) (mf : R) :
  modification_factor As_provided As_required moment d fy = Ok mf ->
  0.9 <= mf <= 2.
Proof.
  unfold modification_factor.
  destruct (fgt As_provided (lit 0 0) && fgt As_required (lit 0 0)).
  - intros H. do 4 bind_inv H. injection H as <-.
    exact_lits. rewrite exact_fmax, exact_fmin.
    cbn [fadd Exact.py_float]. unfold Rmax, Rmin.
    repeat match goal with
           | |- context [Rle_dec ?x ?y] => destruct (Rle_dec x y)
           end; exact_literals; lra.
  - intros [= <-]. exact_lits. exact_literals. lra.
Qed.

Lemma exact_returned_depth_positive (span dead_load live_load : R)
    (concrete_grade steel_grade : string) (cover : R) (fck fy : Z)
    (l : Loc.t R) (r : Res.t R) :
  0 < span -> 0 <= dead_load -> 0 <= live_load ->
  material_properties (F := R) concrete_grade steel_grade = Ok (fck, fy) ->
  section_design span dead_load live_load fck fy cover = Ok l ->
  calculate_slab_design span dead_load live_load concrete_grade steel_grade
    cover = Ok r ->
  0 < Loc.effective_depth l.
Proof.
  intros Hspan Hdl Hll Em El Er.
  destruct (material_properties_Ok _ _ _ _ Em) as [Hfck Hfy].
  assert (Hfck0 : (fck <> 0)%Z) by lia.
  assert (Hfy0 : (fy <> 0)%Z) by lia.
  destruct (exact_section_values _ _ _ _ _ _ _ Hspan Hfck0 Hfy0 El)
    as (_ & _ & _ & _ & _ & Hnz & _).
  destruct (Rtotal_order (Loc.effective_depth l) 0) as [Hd|[Hd|Hd]];
    [|contradiction | exact Hd].
  destruct (exact_calculate_slab_design _ _ _ _ _ _ _ _ l
              Hspan Hdl Hll Em El) as [_ Hneg].
  rewrite (Hneg Hd) in Er. discriminate.
Qed.

(** X18.  In exact arithmetic, whenever the call returns for a positive
    span: the modification factor lies between 0.9 and 2, so the allowable
    span/depth ratio 26 mf lies between 23.4 and 52; the actual ratio
    span * 1000 / slab_depth is positive and at most 25; the flag
    deflection_ok compares the two unrounded ratios, and it is true
    whenever the modification factor is at least 25/26. *)
Theorem deflection_check_is_bounded :
  forall (span dead_load live_load : R) (concrete_grade steel_grade : string)
         (cover : R) (r : Res.t R),
    0 < span ->
    calculate_slab_design span dead_load live_load concrete_grade
      steel_grade cover = Ok r ->
    exists mf : R,
      Res.modification_factor r = round mf 2 /\
      Res.allowable_span_depth r = round (26 * mf) 1 /\
      Res.actual_span_depth r
        = round (span * 1000 / IZR (Res.slab_depth r)) 1 /\
      0.9 <= mf <= 2 /\
      0 < span * 1000 / IZR (Res.slab_depth r) <= 25 /\
      (Res.deflection_ok r = true <->
       span * 1000 / IZR (Res.slab_depth r) <= 26 * mf) /\
      (25 / 26 <= mf -> Res.deflection_ok r = true).
Proof.
  intros span dead_load live_load cg sg cover r Hspan H.
  destruct (calculate_slab_design_checks _ _ _ _ _ _ _ H)
    as (fck & fy & l & mf & a & V & vc & v & Em & El & Emf & Ea & _ & _ & _
        & Hmf & Hall & Hact & Hok & _ & _ & _ & Hsd & _).
  destruct (material_properties_Ok _ _ _ _ Em) as [Hfck Hfy].
  assert (Hfck0 : (fck <> 0)%Z) by lia.
  assert (Hfy0 : (fy <> 0)%Z) by lia.
  destruct (exact_section_values _ _ _ _ _ _ _ Hspan Hfck0 Hfy0 El)
    as (_ & _ & H25 & Hest & _).
  pose proof (exact_modification_factor_bounds _ _ _ _ _ _ Emf) as Hb.
  assert (Hs : 25 <= IZR (Loc.slab_depth l)) by (apply IZR_le; lia).
  unfold actual_span_depth_of in Ea. rewrite exact_float_of_int in Ea.
  cbn [bind] in Ea. rewrite exact_lit_int in Ea.
  cbn [fmul Exact.py_float] in Ea.
  rewrite exact_truediv in Ea by lra. injection Ea as Ea.
  assert (Hbr : lit (F := R) basic_ratio 0 = 26)
    by (unfold basic_ratio; apply exact_lit_int).
  rewrite Hbr in Hall, Hok. cbn [fmul Exact.py_float] in Hall, Hok.
  rewrite Hsd. rewrite <- Ea in Hact, Hok.
  assert (Ha : 0 < span * 1000 / IZR (Loc.slab_depth l) <= 25).
  { split.
    - apply Rmult_lt_0_compat; [lra|]. apply Rinv_0_lt_compat. lra.
    - apply (Rmult_le_reg_r (IZR (Loc.slab_depth l))); [lra|].
      replace (span * 1000 / IZR (Loc.slab_depth l) * IZR (Loc.slab_depth l))
        with (span * 1000) by (field; lra).
      lra. }
  exists mf. split; [exact Hmf|]. split; [exact Hall|]. split; [exact Hact|].
  split; [exact Hb|]. split; [exact Ha|]. split.
  - rewrite Hok. apply exact_fle.
  - intros Hge. rewrite Hok. apply exact_fle. lra.
Qed.

Lemma exact_float_pow_positive_value (x y : R) :
  0 < x -> 0 < y < 1 ->
  exists v : R, float_pow x y = Ok (Float v) /\ 0 < v.
Proof.
  intros Hx Hy. unfold float_pow. rewrite !exact_lit_int.
  assert (E1 : feq y 0 = false) by (apply exact_feq_false; lra).
  assert (E2 : feq x 0 = false) by (apply exact_feq_false; lra).
  assert (E3 : flt x 0 = false) by (apply exact_flt_false; lra).
  rewrite E1. cbn [is_nan is_inf Exact.py_float]. rewrite E2, E3.
  cbn [andb]. destruct (feq x 1).
  - eexists. split; [reflexivity | lra].
  - eexists. split; [reflexivity|]. cbn [libm_pow Exact.libm].
    unfold Rpower. apply exp_pos.
Qed.

Lemma exact_shear_strength_bounds (As_provided d : R) (fck : Z) (vc : R) :
  0 < As_provided -> (0 < fck)%Z -> 0 < d ->
  concrete_shear_strength_of As_provided d fck = Ok vc ->
  0 < vc <= 0.8 * R_sqrt.sqrt (IZR fck).
Proof.
  intros Hp Hf Hd. unfold concrete_shear_strength_of.
  rewrite (exact_lit_int 0). apply exact_fgt in Hp as Eg. rewrite Eg.
  assert (Hfck : 0 < lit (F := R) fck 0).
  { rewrite exact_lit_int. apply IZR_lt. lia. }
  assert (H3 : truediv (lit (F := R) 1 0) (lit 3 0) = Ok (1 / 3)).
  { rewrite exact_truediv; exact_lits; [f_equal; lra | lra]. }
  assert (H4 : truediv (lit (F := R) 1 0) (lit 4 0) = Ok (1 / 4)).
  { rewrite exact_truediv; exact_lits; [f_equal; lra | lra]. }
  assert (H125 : lit (F := R) 125 2 <> 0) by (exact_lits; lra).
  assert (Hbd : fmul (lit b 0) d <> 0).
  { unfold b. exact_lits. cbn [fmul Exact.py_float]. lra. }
  rewrite exact_truediv by assumption. cbn [bind]. rewrite H3. cbn [bind].
  destruct (exact_float_pow_positive_value
              (fmul (lit 100 0) As_provided / fmul (lit b 0) d) (1 / 3))
    as (p & -> & Hpp); [|lra|].
  { unfold b. exact_lits. cbn [fmul Exact.py_float].
    apply Rmult_lt_0_compat; [lra|]. apply Rinv_0_lt_compat. lra. }
  cbn [bind]. rewrite exact_truediv by lra. cbn [bind].
  rewrite H4. cbn [bind].
  destruct (exact_float_pow_positive_value (lit 400 0 / d) (1 / 4))
    as (q & -> & Hq); [|lra|].
  { exact_lits. apply Rmult_lt_0_compat; [lra|].
    apply Rinv_0_lt_compat. lra. }
  cbn [bind scale nmul]. unfold ntruediv. rewrite exact_lit_int.
  apply exact_feq_false in H125 as E125. rewrite E125. cbn [bind].
  rewrite exact_math_sqrt by lra. cbn [bind nmin].
  intros [= <-]. rewrite exact_fmin.
  assert (Hroot : 0 < R_sqrt.sqrt (lit fck 0)) by now apply sqrt_lt_R0.
  rewrite exact_lit_int in Hroot |- *.
  assert (Hx : 0 < fdiv (fmul (fmul (lit 79 2) p) q) (lit 125 2)).
  { exact_lits. cbn [fmul fdiv Exact.py_float].
    apply Rmult_lt_0_compat; [|lra].
    apply Rmult_lt_0_compat; [|lra]. apply Rmult_lt_0_compat; lra. }
  revert Hx. exact_lits. exact_literals. cbn [fmul fdiv Exact.py_float].
  intros Hx. split.
  - apply Rmin_glb_lt; [exact Hx|].
    apply Rmult_lt_0_compat; [lra | exact Hroot].
  - eapply Rle_trans; [apply Rmin_r | lra].
Qed.

(** X19.  In exact arithmetic, whenever the call returns for a positive
    span and loads that are not negative: the effective depth
    d = slab_depth - cover - 6 is positive; the shear force is
    w * span / 2 with w the ultimate load; the concrete shear strength is
    positive and at most 0.8 * sqrt(fck); and shear_ok compares the
    unrounded stress V * 1000 / (1000 d) with the unrounded strength. *)
Theorem shear_check_is_capped :
  forall (span dead_load live_load : R) (concrete_grade steel_grade : string)
         (cover : R) (r : Res.t R),
    0 < span -> 0 <= dead_load -> 0 <= live_load ->
    calculate_slab_design span dead_load live_load concrete_grade
      steel_grade cover = Ok r ->
    let w := 1.4 * dead_load + 1.6 * live_load in
    let d := IZR (Res.slab_depth r) - cover - 6 in
    0 < d /\
    Res.shear_force r = round (w * span / 2) 2 /\
    exists vc : R,
      Res.concrete_shear_strength r = round vc 2 /\
      0 < vc <= 0.8 * R_sqrt.sqrt (IZR (Res.fck r)) /\
      (Res.shear_ok r = true <-> w * span / 2 * 1000 / (1000 * d) <= vc).
Proof.
  intros span dead_load live_load cg sg cover r Hspan Hdl Hll H w d.
  destruct (calculate_slab_design_checks _ _ _ _ _ _ _ H)
    as (fck & fy & l & mf & a & V & vc & v & Em & El & _ & _ & EV & Evc & Ev
        & _ & _ & _ & _ & HV & Hvc & Hok & Hsd & _).
  destruct (calculate_slab_design_echo _ _ _ _ _ _ _ H) as (_ & Em' & _).
  rewrite Em in Em'. injection Em' as Hfck' Hfy'.
  destruct (material_properties_Ok _ _ _ _ Em) as [Hfck Hfy].
  assert (Hfck0 : (fck <> 0)%Z) by lia.
  assert (Hfy0 : (fy <> 0)%Z) by lia.
  pose proof (exact_returned_depth_positive _ _ _ _ _ _ _ _ _ _
                Hspan Hdl Hll Em El H) as Hd.
  destruct (exact_section_values _ _ _ _ _ _ _ Hspan Hfck0 Hfy0 El)
    as (Hw & _ & _ & _ & Ed & _ & _ & _ & _ & Hmin & Hmax).
  assert (Hp : 0 < Loc.As_provided l).
  { destruct (exact_section_steel _ _ _ _ _ _ _ Hspan El) as (H25 & _ & Hle).
    apply IZR_le in H25. lra. }
  rewrite exact_lit_int in EV. cbn [fmul Exact.py_float] in EV.
  rewrite exact_truediv in EV by lra. injection EV as EV.
  revert Ev. unfold b. rewrite !exact_lit_int. cbn [fmul Exact.py_float].
  rewrite exact_truediv by lra. intros [= Ev].
  assert (Hfpos : (0 < fck)%Z) by lia.
  pose proof (exact_shear_strength_bounds _ _ _ _ Hp Hfpos Hd Evc) as Hb.
  assert (Edd : d = Loc.effective_depth l).
  { unfold d. rewrite Hsd, Ed. reflexivity. }
  split; [rewrite Edd; exact Hd|]. split.
  - rewrite HV, <- EV, Hw. reflexivity.
  - exists vc. split; [exact Hvc|]. split.
    + rewrite <- Hfck'. exact Hb.
    + rewrite Hok, exact_fle, <- Ev, <- EV, Hw, Edd. tauto.
Qed.



(** X21.  In exact arithmetic, whenever the call returns for a positive
    span and loads that are not negative, the effective depth it reports is
    the integer part of the depth it computes with: it is at most
    slab_depth - cover - 6 and within one millimetre of it. *)
Theorem reported_effective_depth_is_truncated :
  forall (span dead_load live_load : R) (concrete_grade steel_grade : string)
         (cover : R) (r : Res.t R),
    0 < span -> 0 <= dead_load -> 0 <= live_load ->
    calculate_slab_design span dead_load live_load concrete_grade
      steel_grade cover = Ok r ->
    (0 <= Res.effective_depth r)%Z /\
    IZR (Res.effective_depth r) <= IZR (Res.slab_depth r) - cover - 6
      < IZR (Res.effective_depth r) + 1.
Proof.
  intros span dead_load live_load cg sg cover r Hspan Hdl Hll H.
  destruct (calculate_slab_design_checks _ _ _ _ _ _ _ H)
    as (fck & fy & l & mf & a & V & vc & v & Em & El & _ & _ & _ & _ & _
        & _ & _ & _ & _ & _ & _ & _ & Hsd & Hed).
  destruct (material_properties_Ok _ _ _ _ Em) as [Hfck Hfy].
  assert (Hfck0 : (fck <> 0)%Z) by lia.
  assert (Hfy0 : (fy <> 0)%Z) by lia.
  pose proof (exact_returned_depth_positive _ _ _ _ _ _ _ _ _ _
                Hspan Hdl Hll Em El H) as Hd.
  destruct (exact_section_values _ _ _ _ _ _ _ Hspan Hfck0 Hfy0 El)
    as (_ & _ & _ & _ & Ed & _).
  apply section_design_Ok in El.
  destruct El as (_ & _ & _ & _ & _ & Hint & _).
  unfold int_of_float in Hint. cbn [is_nan is_inf Exact.py_float] in Hint.
  rewrite exact_lit_int in Hint.
  assert (Hneg : flt (Loc.effective_depth l) 0 = false)
    by (apply exact_flt_false; lra).
  rewrite Hneg in Hint. injection Hint as Hint.
  cbn [floorZ Exact.py_float] in Hint.
  pose proof (exact_floor_spec (Loc.effective_depth l)) as Hfl.
  rewrite Hint in Hfl. rewrite Hed, Hsd, <- Ed.
  split; [|exact Hfl].
  assert (Hm : IZR (-1) < IZR (Loc.effective_depth_int l)) by lra.
  apply lt_IZR in Hm. lia.
Qed.

(** X22.  In exact arithmetic, a span that is zero or negative (with
    loads and a cover that are not negative and known grades) never gives
    results: the slab depth and the effective depth are then not positive,
    no area is positive, the loop evaluates no bar and the call raises
    ValueError from the selection over the empty list. *)
Theorem nonpositive_span_raises_ValueError :
  forall (span dead_load live_load : R) (concrete_grade steel_grade : string)
         (cover : R) (fck fy : Z),
    span <= 0 -> 0 <= dead_load -> 0 <= live_load -> 0 <= cover ->
    material_properties (F := R) concrete_grade steel_grade = Ok (fck, fy) ->
    calculate_slab_design span dead_load live_load concrete_grade
      steel_grade cover = Raise ValueError.
Proof.
  intros span dead_load live_load cg sg cover fck fy Hspan Hdl Hll Hc Em.
  destruct (material_properties_Ok _ _ _ _ Em) as [Hfck Hfy].
  destruct (exact_round_up_depth (span * 1000 / 25)) as (n & En & Hn1 & Hn2).
  assert (Hn : (n <= 0)%Z).
  { assert (Hlt : IZR n < IZR 1) by lra. apply lt_IZR in Hlt. lia. }
  assert (Hsd : IZR (n * 25) <= 0).
  { apply IZR_le. lia. }
  destruct (exact_section_design span dead_load live_load fck fy cover
              (n * 25)) as [_ Hnz]; [lia | lia | exact En |].
  cbv zeta in Hnz. destruct Hnz as (l & El & Esd & Ed); [lra|].
  pose proof (section_design_Ok _ _ _ _ _ _ _ El)
    as (Hw & HM & _ & _ & _ & _ & _ & Hz & Hreq & Hmin & Hmax).
  rewrite exact_load_combination in Hw.
  rewrite exact_bending_moment in HM. injection HM as HM.
  destruct (exact_lever_arm_sign _ _ _ Hz) as (_ & Hzneg & _).
  assert (Hzn : Loc.z l < 0) by (apply Hzneg; lra).
  rewrite exact_required_steel in Hreq by (lra || lia).
  injection Hreq as Hreq.
  rewrite exact_minimum_steel in Hmin. injection Hmin as Hmin.
  rewrite exact_fmax in Hmax.
  assert (HM0 : 0 <= Loc.moment l).
  { rewrite <- HM, Hw. apply Rmult_le_pos; [|lra].
    apply Rmult_le_pos; [lra | nra]. }
  assert (Hfy' : 0 < IZR fy) by (apply IZR_lt; lia).
  assert (Hr0 : Loc.As_required l <= 0).
  { rewrite <- Hreq.
    assert (Hden : 0 < - (0.87 * IZR fy * Loc.z l)) by nra.
    replace (Loc.moment l * 1000000 / (0.87 * IZR fy * Loc.z l))
      with (- (Loc.moment l * 1000000 / - (0.87 * IZR fy * Loc.z l)))
      by (field; nra).
    assert (0 <= Loc.moment l * 1000000 / - (0.87 * IZR fy * Loc.z l)).
    { apply Rmult_le_pos; [lra|]. apply Rlt_le, Rinv_0_lt_compat. lra. }
    lra. }
  assert (Hm0 : Loc.As_min l <= 0) by (rewrite <- Hmin, Esd; lra).
  assert (Hg : fgt (Loc.As_provided l) (lit 0 0) = false).
  { rewrite exact_lit_int. apply exact_fgt_false. rewrite Hmax.
    apply Rmax_lub; assumption. }
  unfold calculate_slab_design. rewrite Em. cbn [bind]. cbv zeta.
  rewrite El. cbn [bind].
  rewrite (evaluate_bars_guard_false _ (Loc.As_required l) Hg).
  reflexivity.
Qed.

Lemma nonpositive_span_raises_ValueError_witness :
  calculate_slab_design (F := R) 0 3 2 "C25" "460" 25 = Raise ValueError.
Proof.
  apply (nonpositive_span_raises_ValueError 0 3 2 "C25" "460" 25 25 460);
    try lra.
  reflexivity.
Defined.

(** X23.  In exact arithmetic the slab depth chosen for a span is less
    than 25 mm above the span/25 estimate, and it never decreases when the
    span grows. *)
Theorem slab_depth_is_tight_and_monotone :
  forall (span span' : R) (slab_depth slab_depth' : Z),
    round_up_depth (span * 1000 / 25) = Ok slab_depth ->
    round_up_depth (span' * 1000 / 25) = Ok slab_depth' ->
    span * 1000 / 25 <= IZR slab_depth < span * 1000 / 25 + 25 /\
    (span <= span' -> (slab_depth <= slab_depth')%Z).
Proof.
  intros span span' sd sd' H H'.
  destruct (exact_round_up_depth (span * 1000 / 25)) as (n & En & Hn).
  destruct (exact_round_up_depth (span' * 1000 / 25)) as (n' & En' & Hn').
  rewrite En in H. injection H as <-.
  rewrite En' in H'. injection H' as <-.
  split.
  - rewrite mult_IZR. lra.
  - intros Hle.
    assert (Hlt : IZR (n - 1) < IZR n').
    { rewrite minus_IZR. lra. }
    apply lt_IZR in Hlt. lia.
Qed.

Lemma slab_depth_is_tight_and_monotone_witness :
  4 * 1000 / 25 <= IZR 175 < 4 * 1000 / 25 + 25 /\
  (4 <= 5 -> (175 <= 200)%Z).
Proof.
  apply (slab_depth_is_tight_and_monotone 4 5 175 200).
  - apply (exact_round_up_depth_value (4 * 1000 / 25) 7). lra.
  - apply (exact_round_up_depth_value (5 * 1000 / 25) 8). lra.
Defined.

End ExactMore.

(** ** Instances of the properties *)

Section Instances.

Lemma loop_appends_every_bar_or_none_witness :
  (fgt 270.33266992234877%float (lit 0 0) = true /\
   map (fun o => (bar_size o, bar_area o)) scenario_A_options
     = BAR_AREAS (F := float)) \/
  (fgt 270.33266992234877%float (lit 0 0) = false /\
   scenario_A_options = []).
Proof.
  apply (loop_appends_every_bar_or_none
           270.33266992234877%float 270.33266992234877%float).
  exact scenario_A_evaluate_bars.
Defined.

Lemma guard_failure_raises_ValueError_witness :
  exists l : Loc.t float,
    section_design 4%float nan 2%float 25 460 25%float = Ok l /\
    evaluate_bars (Loc.As_provided l) (Loc.As_required l) = Ok [] /\
    calculate_slab_design (LM := Binary64.libm (fun x _ => x))
      4%float nan 2%float "C25" "460" 25%float = Raise ValueError.
Proof.
  eexists. split; [vm_compute; reflexivity|].
  apply (guard_failure_raises_ValueError (Binary64.libm (fun x _ => x))
           4%float nan 2%float "C25" "460" 25%float 25 460);
    vm_compute; reflexivity.
Defined.


Local Open Scope R_scope.

Lemma returned_results_are_coherent_witness :
  exists r : Res.t R,
    calculate_slab_design 4 3 2 "C25" "460" 25 = Ok r /\
    (Res.span r = 4 /\ Res.dead_load r = 3 /\ Res.live_load r = 2 /\
     Res.concrete_grade r = "C25" /\ Res.steel_grade r = "460" /\
     Res.cover r = 25) /\
    material_properties (F := R) "C25" "460" = Ok (Res.fck r, Res.fy r) /\
    (25 | Res.slab_depth r)%Z /\
    map (fun o => (bar_size o, bar_area o)) (Res.reinforcement_options r)
      = BAR_AREAS /\
    In (Res.selected_reinforcement r) (Res.reinforcement_options r) /\
    (75 <= spacing (Res.selected_reinforcement r) <= 300)%Z /\
    (25 | spacing (Res.selected_reinforcement r))%Z /\
    Res.reinforcement_suggestion r =
      (bar_size (Res.selected_reinforcement r) ++ " @ " ++
       str_of_int (spacing (Res.selected_reinforcement r)) ++ "mm c/c").
Proof.
  destruct exact_scenario_A_returns as [r Er].
  exists r. split; [exact Er|].
  apply (returned_results_are_coherent Exact.libm 4 3 2 "C25" "460" 25 r Er).
Defined.

Lemma inadequate_options_have_spacing_75_witness :
  exists options : list (option_ R),
    evaluate_bars 10000 10000 = Ok options /\
    forall o, In o options -> adequate o = false -> spacing o = 75%Z.
Proof.
  destruct (exact_evaluate_bars 10000 10000) as (options & E & _); [lra|].
  exists options. split; [exact E|].
  apply (inadequate_options_have_spacing_75 10000 10000 options);
    [lra | lra | exact E].
Defined.

Lemma selection_is_adequate_up_to_Y25_at_75_witness :
  exists (options : list (option_ R)) (selected : option_ R),
    evaluate_bars 10000 10000 = Ok options /\
    select_reinforcement options = Ok selected /\
    (adequate selected = true <-> 10000 <= 490.9 * 1000 / 75).
Proof.
  destruct (exact_options_selected 10000 10000)
    as (options & selected & E & _ & _ & Es); [lra|].
  exists options, selected. split; [exact E|]. split; [exact Es|].
  apply (selection_is_adequate_up_to_Y25_at_75 10000 10000 options selected);
    [lra | lra | exact E | exact Es].
Defined.

Lemma deflection_check_is_bounded_witness :
  exists (r : Res.t R) (mf : R),
    calculate_slab_design 4 3 2 "C25" "460" 25 = Ok r /\
    Res.modification_factor r = round mf 2 /\
    Res.allowable_span_depth r = round (26 * mf) 1 /\
    Res.actual_span_depth r = round (4 * 1000 / IZR (Res.slab_depth r)) 1 /\
    0.9 <= mf <= 2 /\
    0 < 4 * 1000 / IZR (Res.slab_depth r) <= 25 /\
    (Res.deflection_ok r = true <->
     4 * 1000 / IZR (Res.slab_depth r) <= 26 * mf) /\
    (25 / 26 <= mf -> Res.deflection_ok r = true).
Proof.
  destruct exact_scenario_A_returns as [r Er].
  assert (Hspan : 0 < 4) by lra.
  destruct (deflection_check_is_bounded 4 3 2 "C25" "460" 25 r Hspan Er)
    as (mf & H).
  exists r, mf. split; [exact Er | exact H].
Defined.

Lemma shear_check_is_capped_witness :
  exists r : Res.t R,
    calculate_slab_design 4 3 2 "C25" "460" 25 = Ok r /\
    0 < IZR (Res.slab_depth r) - 25 - 6 /\
    Res.shear_force r = round ((1.4 * 3 + 1.6 * 2) * 4 / 2) 2 /\
    exists vc : R,
      Res.concrete_shear_strength r = round vc 2 /\
      0 < vc <= 0.8 * R_sqrt.sqrt (IZR (Res.fck r)) /\
      (Res.shear_ok r = true <->
       (1.4 * 3 + 1.6 * 2) * 4 / 2 * 1000
         / (1000 * (IZR (Res.slab_depth r) - 25 - 6)) <= vc).
Proof.
  destruct exact_scenario_A_returns as [r Er].
  exists r. split; [exact Er|].
  apply (shear_check_is_capped 4 3 2 "C25" "460" 25 r); try lra.
  exact Er.
Defined.

Lemma reported_effective_depth_is_truncated_witness :
  exists r : Res.t R,
    calculate_slab_design 4 3 2 "C25" "460" 25 = Ok r /\
    (0 <= Res.effective_depth r)%Z /\
    IZR (Res.effective_depth r) <= IZR (Res.slab_depth r) - 25 - 6
      < IZR (Res.effective_depth r) + 1.
Proof.
  destruct exact_scenario_A_returns as [r Er].
  exists r. split; [exact Er|].
  apply (reported_effective_depth_is_truncated 4 3 2 "C25" "460" 25 r);
    try lra.
  exact Er.
Defined.


End Instances.
